(** * myi: the income model and the accrual tracker

    A shallow embedding of [src/myi/core.py] (the [IncomeConfig] data
    class and the [IncomeTracker]), of [get_default_config] from
    [src/myi/cli.py] and of the per-hour figure of
    [MyiDisplay._show_summary] from [src/myi/display.py], together with
    the part of Python's [decimal] and [float] semantics these functions
    rely on. *)

From Stdlib Require Import ZArith NArith Lia Bool List.
From Corelib Require Import SpecFloat.
From stdpp Require Import base option strings gmap.

Local Open Scope Z_scope.

(** * Exceptions and fallible computations *)

(** The three signals the default decimal context traps, i.e. the
    exceptions a [Decimal] operation of the program can raise. *)
Inductive exn : Type :=
| InvalidOperation
| DivisionByZero
| Overflow.

Inductive result (A : Type) : Type :=
| Ok (a : A)
| Raise (e : exn).
Arguments Ok {A} a.
Arguments Raise {A} e.

Global Instance result_ret : MRet result := fun A a => Ok a.
Global Instance result_bind : MBind result := fun A B f m =>
  match m with
  | Ok a => f a
  | Raise e => Raise e
  end.

Definition is_ok {A} (m : result A) : bool :=
  match m with Ok _ => true | Raise _ => false end.

(** * Python's [decimal.Decimal] under the default context *)

Module Dec.

(** A [Decimal] is a sign, a coefficient and an exponent, or one of the
    special values.  The payload of a NaN is its diagnostic digits, [0]
    when there are none. *)
Inductive Decimal : Type :=
| Finite (sign : bool) (coeff : N) (exp : Z)
| Infinity (sign : bool)
| NaN (sign : bool) (payload : N)
| sNaN (sign : bool) (payload : N).

(** [getcontext()] at start-up: [Context(prec=28, rounding=ROUND_HALF_EVEN,
    Emin=-999999, Emax=999999, clamp=0,
    traps=[InvalidOperation, DivisionByZero, Overflow])]. *)
Definition prec : Z := 28.
Definition Emax : Z := 999999.
Definition Emin : Z := -999999.
Definition Etiny : Z := Emin - prec + 1.
Definition Etop : Z := Emax - prec + 1.

Inductive rounding : Type := ROUND_HALF_UP | ROUND_HALF_EVEN.

(** [len(str(c))] for a coefficient [c >= 0]. *)
Fixpoint ndigits_fuel (fuel : nat) (c : Z) : Z :=
  match fuel with
  | O => 1
  | S f => if c <? 10 then 1 else 1 + ndigits_fuel f (c / 10)
  end.

Definition ndigits (c : N) : Z := ndigits_fuel (N.size_nat c) (Z.of_N c).

(** Dropping the last [k] digits of [c] under a rounding mode
    ([_round_half_up] and [_round_half_even], written arithmetically). *)
Definition round_digits (r : rounding) (c k : Z) : Z :=
  let p := 10 ^ k in
  let q := c / p in
  let m := c mod p in
  match r with
  | ROUND_HALF_UP => if p <=? 2 * m then q + 1 else q
  | ROUND_HALF_EVEN =>
      if (p <? 2 * m) || ((p =? 2 * m) && Z.odd q) then q + 1 else q
  end.

Definition mk (s : bool) (c : Z) (e : Z) : Decimal := Finite s (Z.to_N c) e.

(** [Decimal._fix]: round a result to the context. *)
Definition _fix_nan (s : bool) (signalling : bool) (payload : N) : Decimal :=
  let p := if prec <? ndigits payload
           then Z.to_N (Z.of_N payload mod 10 ^ prec) else payload in
  if signalling then sNaN s p else NaN s p.

Definition _fix (d : Decimal) : result Decimal :=
  match d with
  | NaN s p => Ok (_fix_nan s false p)
  | sNaN s p => Ok (_fix_nan s true p)
  | Infinity s => Ok d
  | Finite s c e =>
      if (c =? 0)%N then Ok (Finite s 0 (Z.min (Z.max e Etiny) Emax))
      else
        let exp_min := ndigits c + e - prec in
        if Etop <? exp_min then Raise Overflow
        else
          let exp_min := Z.max exp_min Etiny in
          if e <? exp_min then
            let digits := ndigits c + e - exp_min in
            let '(ci, k) :=
              if digits <? 0 then (1, 1) else (Z.of_N c, exp_min - e) in
            let coeff := round_digits ROUND_HALF_EVEN ci k in
            let '(coeff, exp_min) :=
              if prec <? ndigits (Z.to_N coeff)
              then (coeff / 10, exp_min + 1) else (coeff, exp_min) in
            if Etop <? exp_min then Raise Overflow
            else Ok (mk s coeff exp_min)
          else Ok d
  end.

(** [Decimal._check_nans]: [Some] when an operand is a NaN. *)
Definition _check_nans (x y : Decimal) : option (result Decimal) :=
  match x, y with
  | sNaN _ _, _ => Some (Raise InvalidOperation)
  | _, sNaN _ _ => Some (Raise InvalidOperation)
  | NaN s p, _ => Some (Ok (_fix_nan s false p))
  | _, NaN s p => Some (Ok (_fix_nan s false p))
  | _, _ => None
  end.

(** [Decimal._rescale]. *)
Definition _rescale (d : Decimal) (exp : Z) (r : rounding) : Decimal :=
  match d with
  | Finite s c e =>
      if (c =? 0)%N then Finite s 0 exp
      else if exp <=? e then mk s (Z.of_N c * 10 ^ (e - exp)) exp
      else
        let digits := ndigits c + e - exp in
        let '(ci, k) :=
          if digits <? 0 then (1, 1) else (Z.of_N c, exp - e) in
        mk s (round_digits r ci k) exp
  | _ => d
  end.

(** [_normalize], on the two coefficient-exponent pairs of an addition. *)
Definition _normalize (c1 e1 c2 e2 : Z) : (Z * Z) * (Z * Z) :=
  let swap := e1 <? e2 in
  let '(tc, te, oc, oe) := if swap then (c2, e2, c1, e1) else (c1, e1, c2, e2) in
  let tmp_len := ndigits (Z.to_N tc) in
  let other_len := ndigits (Z.to_N oc) in
  let exp := te + Z.min (-1) (tmp_len - prec - 2) in
  let '(oc, oe) := if other_len + oe - 1 <? exp then (1, exp) else (oc, oe) in
  let tc := tc * 10 ^ (te - oe) in
  let te := oe in
  if swap then ((oc, oe), (tc, te)) else ((tc, te), (oc, oe)).

(** [Decimal.__add__]. *)
Definition add (x y : Decimal) : result Decimal :=
  match _check_nans x y with
  | Some r => r
  | None =>
    match x, y with
    | Infinity s1, Infinity s2 =>
        if negb (eqb s1 s2) then Raise InvalidOperation else Ok x
    | Infinity _, _ => Ok x
    | _, Infinity _ => Ok y
    | Finite s1 c1 e1, Finite s2 c2 e2 =>
        let exp := Z.min e1 e2 in
        if (c1 =? 0)%N && (c2 =? 0)%N then _fix (Finite (s1 && s2) 0 exp)
        else if (c1 =? 0)%N then
          _fix (_rescale y (Z.max exp (e2 - prec - 1)) ROUND_HALF_EVEN)
        else if (c2 =? 0)%N then
          _fix (_rescale x (Z.max exp (e1 - prec - 1)) ROUND_HALF_EVEN)
        else
          let '((i1, x1), (i2, _)) := _normalize (Z.of_N c1) e1 (Z.of_N c2) e2 in
          if negb (eqb s1 s2) then
            if i1 =? i2 then _fix (Finite false 0 exp)
            else if i1 <? i2 then _fix (mk s2 (i2 - i1) x1)
            else _fix (mk s1 (i1 - i2) x1)
          else _fix (mk s1 (i1 + i2) x1)
    | _, _ => Ok x
    end
  end.

(** [Decimal.__mul__]. *)
Definition is_zero (d : Decimal) : bool :=
  match d with Finite _ c _ => (c =? 0)%N | _ => false end.

Definition sign_of (d : Decimal) : bool :=
  match d with
  | Finite s _ _ | Infinity s | NaN s _ | sNaN s _ => s
  end.

Definition mul (x y : Decimal) : result Decimal :=
  let resultsign := xorb (sign_of x) (sign_of y) in
  match _check_nans x y with
  | Some r => r
  | None =>
    match x, y with
    | Infinity _, _ =>
        if is_zero y then Raise InvalidOperation else Ok (Infinity resultsign)
    | _, Infinity _ =>
        if is_zero x then Raise InvalidOperation else Ok (Infinity resultsign)
    | Finite _ c1 e1, Finite _ c2 e2 =>
        _fix (Finite resultsign (c1 * c2) (e1 + e2))
    | _, _ => Ok x
    end
  end.

(** The loop of [__truediv__] that moves an exact quotient towards the
    ideal exponent. *)
Fixpoint strip_zeros (fuel : nat) (coeff exp ideal_exp : Z) : Z * Z :=
  match fuel with
  | O => (coeff, exp)
  | S f =>
      if (exp <? ideal_exp) && (coeff mod 10 =? 0)
      then strip_zeros f (coeff / 10) (exp + 1) ideal_exp
      else (coeff, exp)
  end.

(** [Decimal.__truediv__]. *)
Definition truediv (x y : Decimal) : result Decimal :=
  let sign := xorb (sign_of x) (sign_of y) in
  match _check_nans x y with
  | Some r => r
  | None =>
    match x, y with
    | Infinity _, Infinity _ => Raise InvalidOperation
    | Infinity _, _ => Ok (Infinity sign)
    | _, Infinity _ => Ok (Finite sign 0 Etiny)
    | Finite _ c1 e1, Finite _ c2 e2 =>
        if (c2 =? 0)%N then
          if (c1 =? 0)%N then Raise InvalidOperation else Raise DivisionByZero
        else if (c1 =? 0)%N then _fix (Finite sign 0 (e1 - e2))
        else
          let shift := ndigits c2 - ndigits c1 + prec + 1 in
          let exp := e1 - e2 - shift in
          let '(coeff, remainder) :=
            if 0 <=? shift
            then Z.div_eucl (Z.of_N c1 * 10 ^ shift) (Z.of_N c2)
            else Z.div_eucl (Z.of_N c1) (Z.of_N c2 * 10 ^ (- shift)) in
          let '(coeff, exp) :=
            if negb (remainder =? 0)
            then ((if coeff mod 5 =? 0 then coeff + 1 else coeff), exp)
            else strip_zeros (N.size_nat (Z.to_N coeff)) coeff exp (e1 - e2) in
          _fix (mk sign coeff exp)
    | _, _ => Ok x
    end
  end.

(** [Decimal.__gt__] against the integer [0]: an ordering comparison
    that involves a NaN, quiet or signalling, signals [InvalidOperation]. *)
Definition gt_zero (x : Decimal) : result bool :=
  match x with
  | NaN _ _ | sNaN _ _ => Raise InvalidOperation
  | Infinity s => Ok (negb s)
  | Finite s c _ => Ok (negb s && negb (c =? 0)%N)
  end.

(** [Decimal.__eq__] against the integer [0]. *)
Definition eq_zero (x : Decimal) : result bool :=
  match x with
  | sNaN _ _ => Raise InvalidOperation
  | NaN _ _ => Ok false
  | Infinity _ => Ok false
  | Finite _ c _ => Ok (c =? 0)%N
  end.

(** [Decimal.adjusted]. *)
Definition adjusted (c : N) (e : Z) : Z := e + ndigits c - 1.

(** [Decimal.quantize(exp, rounding=r)]. *)
Definition quantize (x q : Decimal) (r : rounding) : result Decimal :=
  match _check_nans x q with
  | Some res => res
  | None =>
    match x, q with
    | Infinity _, Infinity _ => Ok x
    | Infinity _, _ | _, Infinity _ => Raise InvalidOperation
    | Finite s c e, Finite _ _ qe =>
        if negb ((Etiny <=? qe) && (qe <=? Emax)) then Raise InvalidOperation
        else if (c =? 0)%N then _fix (Finite s 0 qe)
        else if Emax <? adjusted c e then Raise InvalidOperation
        else if prec <? adjusted c e - qe + 1 then Raise InvalidOperation
        else
          match _rescale x qe r with
          | Finite s' c' e' =>
              if Emax <? adjusted c' e' then Raise InvalidOperation
              else if prec <? ndigits c' then Raise InvalidOperation
              else _fix (Finite s' c' e')
          | other => Ok other
          end
    | _, _ => Ok x
    end
  end.

(** [Decimal(n)] for an integer [n], and [Decimal("d.ddd")] literals. *)
Definition of_int (n : Z) : Decimal := Finite (n <? 0) (Z.abs_N n) 0.

End Dec.
Export Dec.

(** * Python's [float] and [str] of a float *)

Module PyFloat.

(** A Python float is an IEEE 754 binary64 number. *)
Definition float : Type := spec_float.

(** [x - y] on floats. *)
Definition fsub (x y : float) : float := SFsub 53 1024 x y.

(** A positive rational [n / d] as a pair. *)
Definition pow_frac (b : Z) (k : Z) : Z * Z :=
  if 0 <=? k then (b ^ k, 1) else (1, b ^ (- k)).

(** The position [k] of the decimal point of [n / d]:
    [10 ^ (k - 1) <= n / d < 10 ^ k]. *)
Definition decpt (n d : Z) : Z :=
  if d <=? n then ndigits (Z.to_N (n / d))
  else
    let t := ndigits (Z.to_N (d / n)) in
    let '(pn, pd) := pow_frac 10 (1 - t) in
    if pn * d <=? n * pd then 2 - t else 1 - t.

(** The shortest digit string that reads back as the float [m * 2 ^ e]
    (what [repr] prints): its digits as a number, how many they are, and
    the position of the decimal point. *)
Fixpoint shortest (fuel : nat) (n : Z) (m : positive) (e k : Z) : Z * Z :=
  let boundary := (Z.pos m =? 2 ^ 52) && (-1074 <? e) in
  let '(tn, td) := pow_frac 2 (e - 2) in
  let '(pn, pd) := pow_frac 10 (k - n) in
  let v := 4 * Z.pos m in
  let lo := if boundary then v - 1 else v - 2 in
  let hi := v + 2 in
  let closed := Z.even (Z.pos m) in
  (* candidate [d * 10 ^ (k - n)] against [x * 2 ^ (e - 2)] *)
  let cmp d x := (d * pn * td ?= x * tn * pd) in
  let inside d :=
    match cmp d lo, cmp d hi with
    | Gt, Lt => true
    | Eq, _ | _, Eq => closed
    | _, _ => false
    end in
  let f := (v * tn * pd) / (pn * td) in
  let exact := (v * tn * pd) mod (pn * td) =? 0 in
  (* twice the distance of [f] and of [f + 1] to the float *)
  let below := 2 * (v * tn * pd) - 2 * f * (pn * td) in
  let pick :=
    if exact then Some f
    else
      match inside f, inside (f + 1) with
      | true, true =>
          if below <? pn * td then Some f
          else if pn * td <? below then Some (f + 1)
          else Some (if Z.even f then f else f + 1)
      | true, false => Some f
      | false, true => Some (f + 1)
      | false, false => None
      end in
  match pick, fuel with
  | Some d, _ => (d, n)
  | None, O => (if below <=? pn * td then f else f + 1, n)
  | None, S fuel' => shortest fuel' (n + 1) m e k
  end.

(** Trailing zeros of the digits are not printed. *)
Fixpoint strip_digits (fuel : nat) (d n : Z) : Z * Z :=
  match fuel with
  | O => (d, n)
  | S f => if (1 <? n) && (d mod 10 =? 0) then strip_digits f (d / 10) (n - 1)
           else (d, n)
  end.

Definition repr_digits (m : positive) (e : Z) : Z * Z * Z :=
  let '(vn, vd) := pow_frac 2 e in
  let k := decpt (Z.pos m * vn) vd in
  let '(d, n) := shortest 16 1 m e k in
  (* a carry to [10 ^ n] moves the decimal point *)
  let k := if 10 ^ n <=? d then k + 1 else k in
  let '(d, n) := strip_digits 18 d (ndigits (Z.to_N d)) in
  (d, n, k).

(** [Decimal(str(x))]: the decimal that [repr] prints for [x], with the
    exponent the printed form gives it ([".0"] is added to an integer
    value, the exponent form is used when the decimal point is at or
    before [-4] or after [16]). *)
Definition Decimal_of_str (x : float) : Decimal :=
  match x with
  | S754_zero s => Finite s 0 (-1)
  | S754_infinity s => Infinity s
  | S754_nan => NaN false 0
  | S754_finite s m e =>
      let '(d, n, k) := repr_digits m e in
      let use_exp := (k <=? -4) || (16 <? k) in
      if negb use_exp && (n <=? k)
      then mk s (d * 10 ^ (k - n + 1)) (-1)
      else mk s d (k - n)
  end.

(** [float(d)] for a decimal [d]: the float nearest to its value, ties to
    even; [None] when [float] raises [ValueError] on a signalling NaN. *)
Definition float_of_Decimal (d : Decimal) : option float :=
  match d with
  | sNaN _ _ => None
  | NaN _ _ => Some S754_nan
  | Infinity s => Some (S754_infinity s)
  | Finite s 0%N _ => Some (S754_zero s)
  | Finite s (Npos c) e =>
      if 0 <=? e then
        let n := Z.pos c * 10 ^ e in
        Some (binary_normalize 53 1024 (if s then - n else n) 0 false)
      else
        Some (SFdiv 53 1024 (S754_finite s c 0)
                (S754_finite false (Z.to_pos (10 ^ (- e))) 0))
  end.

(** The float nearest to an integer number of seconds, for examples. *)
Definition of_Z (z : Z) : float :=
  binary_normalize 53 1024 z 0 false.

End PyFloat.
Export PyFloat.

(** * src/myi/core.py: the income model *)

(** Values read from a JSON file by [json.load]. *)
#[warnings="-register-all"]
Inductive json : Type :=
| JNull
| JBool (b : bool)
| JInt (z : Z)
| JFloat (f : float)
| JStr (s : string)
| JArray (l : list json)
| JObject (l : list (string * json)).

(** [@dataclass class IncomeConfig]. *)
Record IncomeConfig : Type := mkIncomeConfig {
  annual_salary : Decimal;
  currency : json;
  work_hours_per_day : Decimal;
  work_days_per_year : Decimal;
  side_income : Decimal;
  passive_income : Decimal
}.

(** The constructor with the defaults of the class for the fields a call
    leaves out: [currency="$"], hours [8], days [250], the two other
    incomes [0]. *)
Definition dollar : json := JStr "$".
Definition default_hours : Decimal := Finite false 8 0.
Definition default_days : Decimal := Finite false 250 0.

(** [IncomeConfig.total_annual]. *)
Definition total_annual (self : IncomeConfig) : result Decimal :=
  s ← add (annual_salary self) (side_income self);
  add s (passive_income self).

(** [IncomeConfig.per_second]; [total_seconds] is its local variable. *)
Definition total_seconds (self : IncomeConfig) : result Decimal :=
  h ← mul (work_hours_per_day self) (Finite false 3600 0);
  mul h (work_days_per_year self).

Definition per_second (self : IncomeConfig) : result Decimal :=
  total_seconds ← total_seconds self;
  z ← eq_zero total_seconds;
  if (z : bool) then Ok (Finite false 0 0)
  else
    t ← total_annual self;
    q ← truediv t total_seconds;
    quantize q (Finite false 1 (-4)) ROUND_HALF_UP.

(** * src/myi/core.py: the tracker *)

(** What a subscriber does when it is called: it returns, it raises an
    exception derived from [Exception], or it raises one that is not
    ([SystemExit], [KeyboardInterrupt], [GeneratorExit]). *)
Inductive outcome : Type :=
| Returns
| RaisesException
| RaisesBaseException.

(** A subscriber is called with the published value and the elapsed
    time.  When it calls a method of the tracker itself, that call is, in
    the interleavings below, the call of another thread made between two
    steps of the worker. *)
Definition callback : Type := Decimal -> float -> outcome.

(** The fields of an [IncomeTracker].  [_thread] is the index of the
    thread object in the list of threads the tracker has spawned,
    [_lock] the thread holding the lock, if any. *)
Record IncomeTracker : Type := mkIncomeTracker {
  config : IncomeConfig;
  accumulated : Decimal;
  start_time : float;
  _running : bool;
  _thread : option nat;
  _callbacks : list callback;
  _lock : option nat
}.

Definition set_accumulated (a : Decimal) (t : IncomeTracker) : IncomeTracker :=
  mkIncomeTracker (config t) a (start_time t) (_running t) (_thread t)
    (_callbacks t) (_lock t).
Definition set_start_time (x : float) (t : IncomeTracker) : IncomeTracker :=
  mkIncomeTracker (config t) (accumulated t) x (_running t) (_thread t)
    (_callbacks t) (_lock t).
Definition set_running (b : bool) (t : IncomeTracker) : IncomeTracker :=
  mkIncomeTracker (config t) (accumulated t) (start_time t) b (_thread t)
    (_callbacks t) (_lock t).
Definition set_thread (th : option nat) (t : IncomeTracker) : IncomeTracker :=
  mkIncomeTracker (config t) (accumulated t) (start_time t) (_running t) th
    (_callbacks t) (_lock t).
Definition set_callbacks (l : list callback) (t : IncomeTracker) : IncomeTracker :=
  mkIncomeTracker (config t) (accumulated t) (start_time t) (_running t)
    (_thread t) l (_lock t).
Definition set_lock (o : option nat) (t : IncomeTracker) : IncomeTracker :=
  mkIncomeTracker (config t) (accumulated t) (start_time t) (_running t)
    (_thread t) (_callbacks t) o.

(** [IncomeTracker.__init__]; [now] is what [time.time()] returns. *)
Definition __init__ (cfg : IncomeConfig) (now : float) : IncomeTracker :=
  mkIncomeTracker cfg (Finite false 0 0) now false None [] None.

(** [Decimal(str(elapsed)) * self.config.per_second], the right-hand side
    of line 57 and of line 68. *)
Definition value_at (cfg : IncomeConfig) (elapsed : float) : result Decimal :=
  rate ← per_second cfg;
  mul (Decimal_of_str elapsed) rate.

(** [IncomeTracker.get_current], run without interruption. *)
Definition get_current (self : IncomeTracker) (now : float)
  : result (Decimal * float) :=
  let elapsed := fsub now (start_time self) in
  current ← value_at (config self) elapsed;
  Ok (current, elapsed).

(** [IncomeTracker.on_update]. *)
Definition on_update (self : IncomeTracker) (cb : callback) : IncomeTracker :=
  set_callbacks (_callbacks self ++ [cb]) self.

(** [IncomeTracker.reset]. *)
Definition reset (self : IncomeTracker) (now : float) : IncomeTracker :=
  set_accumulated (Finite false 0 0) (set_start_time now self).

(** ** Threads

    The tracker is shared by the thread [start] spawns and by the threads
    that call its methods.  A thread is at a program point, named after
    the line of [core.py] it is about to run, together with its locals. *)
Inductive pc : Type :=
(* _track_loop *)
| L54                                  (* while self._running: *)
| L55                                  (* elapsed = time.time() - self.start_time *)
| L56 (elapsed : float)                (* with self._lock: *)
| L57 (elapsed : float)                (* self.accumulated = ... *)
| L57x (elapsed : float)               (* end of the with block *)
| L58 (elapsed : float) (i : nat)      (* for callback in self._callbacks: *)
| L63                                  (* time.sleep(0.1) *)
(* start *)
| L43 | L44 | L45
(* stop *)
| L49 | L50
(* get_current *)
| L66
| L67
| L68 (elapsed : float)
| L69 (current : Decimal) (elapsed : float)
(* on_update *)
| L72 (cb : callback)
(* reset *)
| L75 | L76 | L77 | L77x
(* the thread has finished: the function returned, or an exception left it *)
| Done (ret : option (Decimal * float))
| Failed.

Record World : Type := mkWorld {
  self : IncomeTracker;
  threads : list pc
}.

(** The threads that are running [_track_loop]. *)
Definition is_worker (p : pc) : bool :=
  match p with
  | L54 | L55 | L56 _ | L57 _ | L57x _ | L58 _ _ | L63 => true
  | _ => false
  end.

Definition workers (w : World) : nat :=
  length (List.filter is_worker (threads w)).

(** The program points inside a [with self._lock:] block. *)
Definition in_with (p : pc) : bool :=
  match p with
  | L57 _ | L57x _ | L67 | L68 _ | L69 _ _ | L76 | L77 | L77x => true
  | _ => false
  end.

(** One step of thread [i]; [now] is what [time.time()] returns if the
    step calls it.  [None]: the thread cannot move (it waits for the lock
    or has finished). *)
Definition thread_step (now : float) (w : World) (i : nat) : option World :=
  let t := self w in
  let goto (t' : IncomeTracker) (p : pc) : option World :=
    Some (mkWorld t' (<[i := p]> (threads w))) in
  let acquire (p : pc) : option World :=
    match _lock t with
    | None => goto (set_lock (Some i) t) p
    | Some _ => None
    end in
  p ← threads w !! i;
  match p with
  | L54 => goto t (if _running t then L55 else Done None)
  | L55 => goto t (L56 (fsub now (start_time t)))
  | L56 e => acquire (L57 e)
  | L57 e =>
      match value_at (config t) e with
      | Ok a => goto (set_accumulated a t) (L57x e)
      | Raise _ => goto (set_lock None t) Failed
      end
  | L57x e => goto (set_lock None t) (L58 e 0)
  | L58 e k =>
      match _callbacks t !! k with
      | Some cb =>
          match cb (accumulated t) e with
          | Returns | RaisesException => goto t (L58 e (S k))
          | RaisesBaseException => goto t Failed
          end
      | None => goto t L63
      end
  | L63 => goto t L54
  | L43 => goto (set_running true t) L44
  | L44 => goto (set_start_time now t) L45
  | L45 =>
      Some (mkWorld (set_thread (Some (length (threads w))) t)
                    (<[i := Done None]> (threads w) ++ [L54]))
  | L49 => goto (set_running false t) L50
  | L50 => goto t (Done None)
  | L66 => acquire L67
  | L67 => goto t (L68 (fsub now (start_time t)))
  | L68 e =>
      match value_at (config t) e with
      | Ok c => goto t (L69 c e)
      | Raise _ => goto (set_lock None t) Failed
      end
  | L69 c e => goto (set_lock None t) (Done (Some (c, e)))
  | L72 cb => goto (set_callbacks (_callbacks t ++ [cb]) t) (Done None)
  | L75 => acquire L76
  | L76 => goto (set_start_time now t) L77
  | L77 => goto (set_accumulated (Finite false 0 0) t) L77x
  | L77x => goto (set_lock None t) (Done None)
  | Done _ | Failed => None
  end.

(** A method called on the tracker from a new thread. *)
Inductive method : Type :=
| Mstart
| Mstop
| Mget_current
| Mon_update (cb : callback)
| Mreset.

Definition entry (m : method) : pc :=
  match m with
  | Mstart => L43
  | Mstop => L49
  | Mget_current => L66
  | Mon_update cb => L72 cb
  | Mreset => L75
  end.

(** The interleavings: at each step some thread moves, or some thread
    calls a method. *)
Inductive step (w : World) : World -> Prop :=
| step_thread now i w' :
    thread_step now w i = Some w' -> step w w'
| step_call m :
    step w (mkWorld (self w) (threads w ++ [entry m])).

Inductive reachable (cfg : IncomeConfig) : World -> Prop :=
| reach_init now :
    reachable cfg (mkWorld (__init__ cfg now) [])
| reach_step w w' :
    reachable cfg w -> step w w' -> reachable cfg w'.

(** [IncomeTracker.start] and [IncomeTracker.stop], run without
    interruption ([stop] then waits in [join] for at most a second). *)
Definition start (w : World) (now : float) : World :=
  mkWorld
    (set_thread (Some (length (threads w)))
       (set_start_time now (set_running true (self w))))
    (threads w ++ [L54]).

Definition stop (w : World) : World :=
  mkWorld (set_running false (self w)) (threads w).

(** * src/myi/display.py: the session summary *)

(** The figures [MyiDisplay._show_summary] prints: the final value, the
    elapsed seconds and [final / Decimal(str(elapsed)) * 3600]; nothing
    when there is no tracker. *)
Definition _show_summary (tracker : option IncomeTracker) (now : float)
  : result (option (Decimal * float * Decimal)) :=
  match tracker with
  | None => Ok None
  | Some t =>
      r ← get_current t now;
      let '(final, elapsed) := r in
      q ← truediv final (Decimal_of_str elapsed);
      per_hour ← mul q (of_int 3600);
      Ok (Some (final, elapsed, per_hour))
  end.

(** The figures of [MyiDisplay._create_stats_panel] (lines 41 to 44): the
    rate per second, per minute, per hour and per work day. *)
Definition _create_stats_panel (config : IncomeConfig)
  : result (Decimal * Decimal * Decimal * Decimal) :=
  per_sec ← per_second config;
  per_min ← mul per_sec (of_int 60);
  per_hour ← mul per_sec (of_int 3600);
  per_day ← mul per_hour (of_int 8);
  Ok (per_sec, per_min, per_hour, per_day).

(** The rows of [MyiDisplay._create_breakdown_panel]: a source, its
    annual amount and its share of the total, which is a decimal or the
    integer [0]. *)
Inductive source : Type := Salary | SideIncome | Passive.

Inductive share : Type :=
| ShareInt (z : Z)
| ShareDecimal (d : Decimal).

Record row : Type := mkRow {
  row_source : source;
  row_annual : Decimal;
  row_pct : share
}.

(** One of the three [if] blocks of lines 81 to 91. *)
Definition breakdown_row (config : IncomeConfig) (src : source)
    (amount : Decimal) : result (list row) :=
  shown ← gt_zero amount;
  if (shown : bool) then
    total ← total_annual config;
    positive ← gt_zero total;
    pct ← (if (positive : bool) then
             total ← total_annual config;
             q ← truediv amount total;
             p ← mul q (of_int 100);
             Ok (ShareDecimal p)
           else Ok (ShareInt 0));
    Ok [mkRow src amount pct]
  else Ok [].

(** [MyiDisplay._create_breakdown_panel]: the rows, and the total and
    the rate of the last row. *)
Definition _create_breakdown_panel (config : IncomeConfig)
  : result (list row * Decimal * Decimal) :=
  total_sec ← per_second config;
  salary ← breakdown_row config Salary (annual_salary config);
  side ← breakdown_row config SideIncome (side_income config);
  passive ← breakdown_row config Passive (passive_income config);
  total ← total_annual config;
  Ok (salary ++ side ++ passive, total, total_sec).

(** * src/myi/cli.py: the saved configuration *)

Section Cli.

(** [Decimal(s)] for a string [s] read from the file; the parser of the
    decimal module is taken as given. *)
Variable Decimal_of_string : string -> result Decimal.

(** [Decimal(str(v))]: [str] of [None], of a boolean, of a list or of a
    dictionary is no numeric string. *)
Definition Decimal_of_json (v : json) : result Decimal :=
  match v with
  | JInt z => Ok (of_int z)
  | JFloat f => Ok (Decimal_of_str f)
  | JStr s => Decimal_of_string s
  | JNull | JBool _ | JArray _ | JObject _ => Raise InvalidOperation
  end.

(** [load_config]: the dictionary in the file, the empty one when there
    is no file. *)
Definition load_config (file : option (gmap string json)) : gmap string json :=
  match file with
  | Some d => d
  | None => ∅
  end.

(** [saved.get(key, dflt)]. *)
Definition get (saved : gmap string json) (key : string) (dflt : json) : json :=
  match saved !! key with
  | Some v => v
  | None => dflt
  end.

(** [get_default_config]. *)
Definition get_default_config (file : option (gmap string json))
  : result IncomeConfig :=
  let saved := load_config file in
  salary ← Decimal_of_json (get saved "salary" (JInt 50000));
  let cur := get saved "currency" dollar in
  side ← Decimal_of_json (get saved "side" (JInt 0));
  passive ← Decimal_of_json (get saved "passive" (JInt 0));
  Ok (mkIncomeConfig salary cur default_hours default_days side passive).

Definition is_Some_bool {A : Type} (o : option A) : bool :=
  match o with Some _ => true | None => false end.

(** [x != 0] for a float [x]. *)
Definition ne_zero (x : float) : bool :=
  match x with
  | S754_zero _ => false
  | _ => true
  end.

(** What the command [cli] has done when it builds the display: the
    configuration it shows and the dictionary it has written to the
    file, if any; or the exception that left it. *)
Inductive cli_outcome : Type :=
| Shows (config : IncomeConfig) (written : option (gmap string json))
| DecimalRaises (e : exn)
| ValueError.

(** [cli] without a subcommand (lines 56 to 73); [salary] is [None]
    when the option is not given, [cur] is the option [--currency]. *)
Definition cli (file : option (gmap string json)) (salary : option float)
    (cur : string) (side passive : float) : cli_outcome :=
  match get_default_config file with
  | Raise e => DecimalRaises e
  | Ok config =>
      let annual_salary' :=
        match salary with
        | Some x => Decimal_of_str x
        | None => annual_salary config
        end in
      let currency' :=
        if negb (String.eqb cur "$") then JStr cur
        else currency config in
      let side_income' :=
        if ne_zero side then Decimal_of_str side else side_income config in
      let passive_income' :=
        if ne_zero passive then Decimal_of_str passive
        else passive_income config in
      let config :=
        mkIncomeConfig annual_salary' currency' (work_hours_per_day config)
          (work_days_per_year config) side_income' passive_income' in
      if is_Some_bool salary || negb (String.eqb cur "$")
         || ne_zero side || ne_zero passive
      then
        match float_of_Decimal annual_salary',
              float_of_Decimal side_income',
              float_of_Decimal passive_income' with
        | Some a, Some b, Some c =>
            Shows config
              (Some (<["salary" := JFloat a]>
                       (<["currency" := currency']>
                          (<["side" := JFloat b]>
                             (<["passive" := JFloat c]> ∅)))))
        | _, _, _ => ValueError
        end
      else Shows config None
  end.

End Cli.

(** * Properties *)

(** The configuration of the first example of the specification. *)
Definition cfg50k : IncomeConfig :=
  mkIncomeConfig (Finite false 50000 0) dollar default_hours default_days
    (Finite false 0 0) (Finite false 0 0).

Example ex_add_round :
  add (Finite false 1 28) (Finite false 1 0) = Ok (Finite false (10 ^ 27) 1).
Proof. vm_compute. reflexivity. Qed.

Example ex_rate : per_second cfg50k = Ok (Finite false 69 (-4)).
Proof. vm_compute. reflexivity. Qed.

Example ex_E10 :
  get_current (__init__ cfg50k (of_Z 1000)) (of_Z 1010)
  = Ok (Finite false 6900 (-5), of_Z 10).
Proof. vm_compute. reflexivity. Qed.

(** ** Digits and powers of ten *)

Lemma pow10_pos (k : Z) : 0 <= k -> 0 < 10 ^ k.
Proof. intros. apply Z.pow_pos_nonneg; lia. Qed.

Lemma pow10_le (a b : Z) : 0 <= a <= b -> 10 ^ a <= 10 ^ b.
Proof. intros. apply Z.pow_le_mono_r; lia. Qed.

Lemma pow10_lt (a b : Z) : 0 <= a < b -> 10 ^ a < 10 ^ b.
Proof. intros. apply Z.pow_lt_mono_r; lia. Qed.

Lemma pow10_lt_inv (a b : Z) : 0 <= a -> 0 <= b -> 10 ^ a < 10 ^ b -> a < b.
Proof.
  intros Ha Hb H. destruct (Z_lt_le_dec a b) as [|Hle]; [assumption|].
  pose proof (pow10_le b a ltac:(lia)). lia.
Qed.

Lemma pow10_split (a b : Z) : 0 <= a -> 0 <= b -> 10 ^ (a + b) = 10 ^ a * 10 ^ b.
Proof. intros. apply Z.pow_add_r; lia. Qed.

Lemma pos_size_nat_bound (p : positive) : Z.pos p < 2 ^ Z.of_nat (Pos.size_nat p).
Proof.
  induction p as [p IH|p IH|]; cbn [Pos.size_nat];
    rewrite ?Nat2Z.inj_succ, ?Z.pow_succ_r by lia; lia.
Qed.

Lemma ndigits_fuel_spec (fuel : nat) :
  forall c, 0 < c < 2 ^ Z.of_nat fuel ->
    1 <= ndigits_fuel fuel c /\
    10 ^ (ndigits_fuel fuel c - 1) <= c < 10 ^ ndigits_fuel fuel c.
Proof.
  induction fuel as [|f IH]; intros c Hc.
  - change (2 ^ Z.of_nat 0) with 1 in Hc. lia.
  - cbn [ndigits_fuel]. destruct (Z.ltb_spec c 10) as [Hs|Hl].
    + change (10 ^ (1 - 1)) with 1. change (10 ^ 1) with 10. lia.
    + rewrite Nat2Z.inj_succ, Z.pow_succ_r in Hc by lia.
      assert (Hq : 0 < c / 10 < 2 ^ Z.of_nat f).
      { split; [apply Z.div_str_pos; lia|].
        apply Z.div_lt_upper_bound; lia. }
      destruct (IH _ Hq) as (H1 & Hlo & Hhi).
      set (r := ndigits_fuel f (c / 10)) in *.
      replace (1 + r - 1) with ((r - 1) + 1) by lia.
      replace (1 + r) with (r + 1) by lia.
      rewrite !pow10_split by lia. change (10 ^ 1) with 10.
      pose proof (Z.div_mod c 10 ltac:(lia)).
      pose proof (Z.mod_pos_bound c 10 ltac:(lia)).
      split; [lia|]. split; nia.
Qed.

Lemma ndigits_0 : ndigits 0%N = 1.
Proof. reflexivity. Qed.

Lemma ndigits_spec (c : N) :
  (c <> 0)%N ->
  1 <= ndigits c /\ 10 ^ (ndigits c - 1) <= Z.of_N c < 10 ^ ndigits c.
Proof.
  intros Hc. unfold ndigits. apply ndigits_fuel_spec.
  destruct c as [|p]; [congruence|].
  cbn [N.size_nat Z.of_N]. split; [lia|apply pos_size_nat_bound].
Qed.

Lemma ndigits_pos (c : N) : 1 <= ndigits c.
Proof.
  destruct (N.eq_dec c 0%N) as [->|H]; [rewrite ndigits_0; lia|].
  apply ndigits_spec; assumption.
Qed.

(** The number of digits is determined by the decade. *)
Lemma ndigits_unique (c : N) (d : Z) :
  1 <= d -> 10 ^ (d - 1) <= Z.of_N c < 10 ^ d -> ndigits c = d.
Proof.
  intros Hd [Hlo Hhi].
  assert (Hc : (c <> 0)%N).
  { intros ->. pose proof (pow10_pos (d - 1) ltac:(lia)). cbn in Hlo. lia. }
  destruct (ndigits_spec c Hc) as (H1 & Hl & Hh).
  assert (ndigits c - 1 < d) by (apply pow10_lt_inv; lia).
  assert (d - 1 < ndigits c) by (apply pow10_lt_inv; lia).
  lia.
Qed.

Lemma ndigits_le (c : N) (d : Z) :
  0 <= d -> Z.of_N c < 10 ^ d -> (c <> 0)%N -> ndigits c <= d.
Proof.
  intros Hd Hlt Hc. destruct (ndigits_spec c Hc) as (H1 & Hl & Hh).
  assert (ndigits c - 1 < d) by (apply pow10_lt_inv; lia). lia.
Qed.

(** ** Results the context leaves alone *)

(** A coefficient of at most 28 digits with an exponent in range is not
    touched by [_fix]. *)
Lemma _fix_exact (s : bool) (c : N) (e : Z) :
  Z.of_N c < 10 ^ 28 -> Etiny <= e <= Etop ->
  _fix (Finite s c e) = Ok (Finite s c e).
Proof.
  intros Hc He. unfold _fix, Etiny, Etop, Emin, Emax, prec in *.
  destruct (N.eqb_spec c 0) as [->|Hnz].
  - f_equal. f_equal. lia.
  - pose proof (ndigits_le c 28 ltac:(lia) Hc Hnz) as Hd.
    destruct (Z.ltb_spec (999999 - 28 + 1) (ndigits c + e - 28)); [lia|].
    destruct (Z.ltb_spec e (Z.max (ndigits c + e - 28) (-999999 - 28 + 1)));
      [lia|reflexivity].
Qed.

(** The product of two finite decimals is exact when its coefficient has
    at most 28 digits. *)
Lemma mul_exact (s1 s2 : bool) (c1 c2 : N) (e1 e2 : Z) :
  Z.of_N c1 * Z.of_N c2 < 10 ^ 28 -> Etiny <= e1 + e2 <= Etop ->
  mul (Finite s1 c1 e1) (Finite s2 c2 e2)
  = Ok (Finite (xorb s1 s2) (c1 * c2) (e1 + e2)).
Proof.
  intros Hc He. cbn [mul _check_nans sign_of].
  apply _fix_exact; [lia|assumption].
Qed.

(** The value of a sign and a magnitude. *)
Definition signed (s : bool) (c : Z) : Z := if s then - c else c.

(** A coefficient [c] with [k] more zeros that stays below [10 ^ 28] has
    fewer than [28 - k] digits beyond the first. *)
Lemma ndigits_shift_bound (c : N) (k : Z) :
  (c <> 0)%N -> 0 <= k -> Z.of_N c * 10 ^ k < 10 ^ 28 ->
  ndigits c + k <= 28.
Proof.
  intros Hc Hk Hlt. destruct (ndigits_spec c Hc) as (H1 & Hlo & _).
  assert (10 ^ (ndigits c - 1 + k) < 10 ^ 28).
  { rewrite pow10_split by lia.
    pose proof (pow10_pos k Hk). nia. }
  assert (ndigits c - 1 + k < 28) by (apply pow10_lt_inv; lia). lia.
Qed.

Lemma _normalize_exact (c1 c2 : N) (e1 e2 : Z) :
  (c1 <> 0)%N -> (c2 <> 0)%N ->
  let e0 := Z.min e1 e2 in
  Z.of_N c1 * 10 ^ (e1 - e0) + Z.of_N c2 * 10 ^ (e2 - e0) < 10 ^ 28 ->
  _normalize (Z.of_N c1) e1 (Z.of_N c2) e2
  = ((Z.of_N c1 * 10 ^ (e1 - e0), e0), (Z.of_N c2 * 10 ^ (e2 - e0), e0)).
Proof.
  intros H1 H2 e0 Hlt. subst e0. unfold _normalize, prec.
  pose proof (ndigits_pos c1). pose proof (ndigits_pos c2).
  destruct (Z.ltb_spec e1 e2) as [Hs|Hs]; cbv beta iota zeta;
    rewrite !N2Z.id.
  - assert (Hm : Z.min e1 e2 = e1) by lia. rewrite Hm in Hlt |- *.
    replace (e1 - e1) with 0 in Hlt |- * by lia.
    rewrite Z.pow_0_r, Z.mul_1_r in Hlt |- *.
    assert (0 < Z.of_N c1) by lia.
    pose proof (ndigits_shift_bound c2 (e2 - e1) H2 ltac:(lia) ltac:(lia)).
    destruct (Z.ltb_spec (ndigits c1 + e1 - 1)
                (e2 + Z.min (-1) (ndigits c2 - 28 - 2))); [lia|].
    reflexivity.
  - assert (Hm : Z.min e1 e2 = e2) by lia. rewrite Hm in Hlt |- *.
    replace (e2 - e2) with 0 in Hlt |- * by lia.
    rewrite Z.pow_0_r, Z.mul_1_r in Hlt |- *.
    assert (0 < Z.of_N c2) by lia.
    pose proof (ndigits_shift_bound c1 (e1 - e2) H1 ltac:(lia) ltac:(lia)).
    destruct (Z.ltb_spec (ndigits c2 + e2 - 1)
                (e1 + Z.min (-1) (ndigits c1 - 28 - 2))); [lia|].
    reflexivity.
Qed.

(** The sum of two finite decimals is exact, at the smaller of the two
    exponents, when the aligned coefficients add up to at most 28
    digits. *)
Lemma add_exact (s1 s2 : bool) (c1 c2 : N) (e1 e2 : Z) :
  let e0 := Z.min e1 e2 in
  let a := Z.of_N c1 * 10 ^ (e1 - e0) in
  let b := Z.of_N c2 * 10 ^ (e2 - e0) in
  a + b < 10 ^ 28 -> Etiny <= e0 <= Etop ->
  exists s c,
    add (Finite s1 c1 e1) (Finite s2 c2 e2) = Ok (Finite s c e0) /\
    signed s (Z.of_N c) = signed s1 a + signed s2 b /\
    Z.of_N c <= a + b.
Proof.
  intros e0 a b Hlt He.
  assert (Hp1 : 0 < 10 ^ (e1 - e0)) by (apply pow10_pos; lia).
  assert (Hp2 : 0 < 10 ^ (e2 - e0)) by (apply pow10_pos; lia).
  assert (Ha : 0 <= a) by (subst a; nia).
  assert (Hb : 0 <= b) by (subst b; nia).
  cbn [add _check_nans]. fold e0.
  destruct (N.eqb_spec c1 0) as [Hz1|Hz1], (N.eqb_spec c2 0) as [Hz2|Hz2];
    cbn [andb].
  - subst. exists (s1 && s2), 0%N. split; [apply _fix_exact; lia|].
    subst a b. cbn. destruct s1, s2; cbn; lia.
  - assert (Hk : ndigits c2 + (e2 - e0) <= 28)
      by (apply ndigits_shift_bound; lia).
    pose proof (ndigits_pos c2).
    unfold prec. rewrite Z.max_l by lia.
    unfold _rescale. destruct (N.eqb_spec c2 0); [contradiction|].
    destruct (Z.leb_spec e0 e2); [|lia].
    exists s2, (Z.to_N b). unfold mk. fold b.
    split; [apply _fix_exact; lia|].
    rewrite Z2N.id by lia. subst a. rewrite Hz1. cbn.
    destruct s1; cbn; lia.
  - assert (Hk : ndigits c1 + (e1 - e0) <= 28)
      by (apply ndigits_shift_bound; lia).
    pose proof (ndigits_pos c1).
    unfold prec. rewrite Z.max_l by lia.
    unfold _rescale. destruct (N.eqb_spec c1 0); [contradiction|].
    destruct (Z.leb_spec e0 e1); [|lia].
    exists s1, (Z.to_N a). unfold mk. fold a.
    split; [apply _fix_exact; lia|].
    rewrite Z2N.id by lia. subst b. rewrite Hz2. cbn.
    destruct s2; cbn; lia.
  - rewrite (_normalize_exact c1 c2 e1 e2 Hz1 Hz2 Hlt). fold e0 a b.
    destruct (eqb s1 s2) eqn:Hs; cbn [negb].
    + apply eqb_prop in Hs. subst s2.
      exists s1, (Z.to_N (a + b)). unfold mk.
      split; [apply _fix_exact; lia|].
      rewrite Z2N.id by lia. destruct s1; cbn; lia.
    + apply eqb_false_iff in Hs.
      destruct (Z.eqb_spec a b) as [Hab|Hab].
      * exists false, 0%N. split; [apply _fix_exact; lia|].
        destruct s1, s2; cbn; try congruence; lia.
      * destruct (Z.ltb_spec a b).
        -- exists s2, (Z.to_N (b - a)). unfold mk.
           split; [apply _fix_exact; lia|].
           rewrite Z2N.id by lia.
           destruct s1, s2; cbn; try congruence; lia.
        -- exists s1, (Z.to_N (a - b)). unfold mk.
           split; [apply _fix_exact; lia|].
           rewrite Z2N.id by lia.
           destruct s1, s2; cbn; try congruence; lia.
Qed.

(** ** Rounding *)

(** Half-up rounding is a floor after adding half a unit. *)
Lemma round_half_up_floor (c h : Z) :
  0 <= c -> 1 <= h ->
  round_digits ROUND_HALF_UP c h = (c + 5 * 10 ^ (h - 1)) / 10 ^ h.
Proof.
  intros Hc Hh. unfold round_digits.
  assert (Hp : 10 ^ h = 10 * 10 ^ (h - 1)).
  { replace h with (1 + (h - 1)) at 1 by lia.
    rewrite pow10_split by lia. reflexivity. }
  pose proof (pow10_pos (h - 1) ltac:(lia)) as Hpos.
  set (p := 10 ^ h) in *. set (p1 := 10 ^ (h - 1)) in *.
  pose proof (Z.div_mod c p ltac:(lia)) as Hdm.
  pose proof (Z.mod_pos_bound c p ltac:(lia)) as Hmb.
  set (q := c / p) in *. set (m := c mod p) in *.
  destruct (Z.leb_spec p (2 * m)).
  - apply Z.div_unique_pos with (r := m + 5 * p1 - p); lia.
  - apply Z.div_unique_pos with (r := m + 5 * p1); lia.
Qed.

(** Half-even rounding lands between the floor and the half-up result. *)
Lemma round_half_even_bounds (c k : Z) :
  0 <= c -> 1 <= k ->
  let v := round_digits ROUND_HALF_EVEN c k in
  c / 10 ^ k <= v /\ 2 * v * 10 ^ k <= 2 * c + 10 ^ k.
Proof.
  intros Hc Hk. unfold round_digits.
  pose proof (pow10_pos k ltac:(lia)) as Hpos.
  set (p := 10 ^ k) in *.
  pose proof (Z.div_mod c p ltac:(lia)) as Hdm.
  pose proof (Z.mod_pos_bound c p ltac:(lia)) as Hmb.
  set (q := c / p) in *. set (m := c mod p) in *.
  destruct (Z.ltb_spec p (2 * m)); cbn [orb].
  - split; nia.
  - destruct (Z.eqb_spec p (2 * m)); cbn [andb].
    + destruct (Z.odd q); split; nia.
    + split; nia.
Qed.

(** A coefficient that lies wholly below the digit kept rounds to zero,
    as the replacement by [1] that [_rescale] makes in that case does. *)
Lemma round_digits_small (r : rounding) (c : N) (k : Z) :
  (c <> 0)%N -> ndigits c < k ->
  round_digits r (Z.of_N c) k = 0 /\ round_digits r 1 1 = 0.
Proof.
  intros Hc Hk. split; [|destruct r; reflexivity].
  destruct (ndigits_spec c Hc) as (H1 & _ & Hhi).
  pose proof (pow10_le (ndigits c) (k - 1) ltac:(lia)) as Hle.
  assert (Hp : 10 ^ k = 10 * 10 ^ (k - 1)).
  { replace k with (1 + (k - 1)) at 1 by lia.
    rewrite pow10_split by lia. reflexivity. }
  pose proof (pow10_pos (k - 1) ltac:(lia)) as Hpos.
  unfold round_digits.
  rewrite Z.div_small, Z.mod_small by lia.
  destruct r.
  - destruct (Z.leb_spec (10 ^ k) (2 * Z.of_N c)); [lia|reflexivity].
  - destruct (Z.ltb_spec (10 ^ k) (2 * Z.of_N c)); [lia|].
    cbn [orb Z.odd]. rewrite andb_false_r. reflexivity.
Qed.

(** [_rescale] to a larger exponent rounds the coefficient. *)
Lemma _rescale_round (s : bool) (c : N) (e exp : Z) (r : rounding) :
  (c <> 0)%N -> e < exp ->
  _rescale (Finite s c e) exp r
  = mk s (round_digits r (Z.of_N c) (exp - e)) exp.
Proof.
  intros Hc He. unfold _rescale.
  destruct (N.eqb_spec c 0); [contradiction|].
  destruct (Z.leb_spec exp e); [lia|].
  destruct (Z.ltb_spec (ndigits c + e - exp) 0); [|reflexivity].
  destruct (round_digits_small r c (exp - e) Hc ltac:(lia)) as [-> ->].
  reflexivity.
Qed.

Lemma strip_zeros_spec (fuel : nat) :
  forall c e ideal, 0 < c ->
    let '(c', e') := strip_zeros fuel c e ideal in
    0 < c' /\ e <= e' /\ c' * 10 ^ (e' - e) = c.
Proof.
  induction fuel as [|f IH]; intros c e ideal Hc; cbn [strip_zeros].
  - replace (e - e) with 0 by lia. cbn. lia.
  - destruct (Z.ltb_spec e ideal); cbn [andb];
      [|replace (e - e) with 0 by lia; cbn; lia].
    destruct (Z.eqb_spec (c mod 10) 0) as [Hm|Hm];
      [|replace (e - e) with 0 by lia; cbn; lia].
    pose proof (Z.div_mod c 10 ltac:(lia)) as Hdm.
    specialize (IH (c / 10) (e + 1) ideal ltac:(lia)).
    destruct (strip_zeros f (c / 10) (e + 1) ideal) as [c' e'].
    destruct IH as (H1 & H2 & H3). split; [assumption|]. split; [lia|].
    replace (e' - e) with ((e' - (e + 1)) + 1) by lia.
    rewrite pow10_split by lia. change (10 ^ 1) with 10. lia.
Qed.

Lemma div_eucl_div_mod (a b q r : Z) :
  Z.div_eucl a b = (q, r) -> q = a / b /\ r = a mod b.
Proof. intros H. unfold Z.div, Z.modulo. rewrite H. split; reflexivity. Qed.

Ltac ltb_true := rewrite (proj2 (Z.ltb_lt _ _)) by lia.
Ltac ltb_false := rewrite (proj2 (Z.ltb_ge _ _)) by lia.

(** [_fix] on a coefficient of 29 or 30 digits: the result keeps 28
    digits and is within half a unit of the last digit kept. *)
Lemma _fix_round (s : bool) (c e : Z) :
  10 ^ 28 <= c < 10 ^ 30 -> Etiny <= e -> e + 3 <= Etop ->
  exists c28 e28,
    _fix (Finite s (Z.to_N c) e) = Ok (Finite s c28 e28) /\
    (c28 <> 0)%N /\ Z.of_N c28 < 10 ^ 28 /\ e <= e28 /\
    let V := Z.of_N c28 * 10 ^ (e28 - e) in
    V <= 10 ^ 30 /\
    ((c < 10 ^ 29 /\ c / 10 * 10 <= V <= c + 5) \/
     (10 ^ 29 <= c /\ c / 100 * 100 <= V <= c + 50)).
Proof.
  intros Hc He1 He2. unfold Etiny, Etop, Emin, Emax, prec in *.
  assert (Hnz : (Z.to_N c <> 0)%N) by lia.
  assert (Hk : exists k, (k = 1 /\ c < 10 ^ 29 \/ k = 2 /\ 10 ^ 29 <= c) /\
                         ndigits (Z.to_N c) = 28 + k).
  { destruct (Z_lt_le_dec c (10 ^ 29)).
    - exists 1. split; [lia|]. apply ndigits_unique; [lia|].
      rewrite Z2N.id by lia. change (28 + 1 - 1) with 28.
      change (28 + 1) with 29. lia.
    - exists 2. split; [lia|]. apply ndigits_unique; [lia|].
      rewrite Z2N.id by lia. change (28 + 2 - 1) with 29.
      change (28 + 2) with 30. lia. }
  destruct Hk as (k & Hk & HL).
  unfold _fix, Etiny, Etop, Emin, Emax, prec.
  destruct (N.eqb_spec (Z.to_N c) 0); [contradiction|].
  rewrite HL. ltb_false. rewrite Z.max_l by lia. ltb_true.
  ltb_false. cbv beta iota zeta. rewrite Z2N.id by lia.
  replace (28 + k + e - 28 - e) with k by lia.
  pose proof (round_half_even_bounds c k ltac:(lia) ltac:(lia)) as Hb.
  cbv zeta in Hb. set (v := round_digits ROUND_HALF_EVEN c k) in *.
  destruct Hb as [Hlo Hhi].
  assert (Hv : 10 ^ 27 <= v <= 10 ^ 28 /\
               ((k = 1 /\ c / 10 <= v /\ 2 * v * 10 <= 2 * c + 10) \/
                (k = 2 /\ c / 100 <= v /\ 2 * v * 100 <= 2 * c + 100))).
  { destruct Hk as [[-> Hk]|[-> Hk]].
    - change (10 ^ 1) with 10 in *. split; [|left; lia].
      assert (10 ^ 27 <= c / 10) by (apply Z.div_le_lower_bound; lia). lia.
    - change (10 ^ 2) with 100 in *. split; [|right; lia].
      assert (10 ^ 27 <= c / 100) by (apply Z.div_le_lower_bound; lia). lia. }
  destruct Hv as [Hv Hvk].
  destruct (Z.eq_dec v (10 ^ 28)) as [Heq|Hne].
  - assert (Hd : ndigits (Z.to_N v) = 29).
    { apply ndigits_unique; [lia|]. rewrite Z2N.id by lia.
      change (29 - 1) with 28. lia. }
    rewrite Hd. ltb_true. ltb_false.
    exists (Z.to_N (v / 10)), (28 + k + e - 28 + 1). unfold mk.
    split; [reflexivity|].
    assert (Hv10 : v / 10 = 10 ^ 27) by (rewrite Heq; reflexivity).
    rewrite Hv10. rewrite Z2N.id by lia.
    split; [lia|]. split; [lia|]. split; [lia|].
    replace (28 + k + e - 28 + 1 - e) with (k + 1) by lia.
    destruct Hvk as [(-> & H1 & H2)|(-> & H1 & H2)].
    + change (10 ^ (1 + 1)) with 100. split; [lia|]. left. lia.
    + change (10 ^ (2 + 1)) with 1000. split; [lia|]. right. lia.
  - assert (Hd : ndigits (Z.to_N v) = 28).
    { apply ndigits_unique; [lia|]. rewrite Z2N.id by lia.
      change (28 - 1) with 27. lia. }
    rewrite Hd. ltb_false. ltb_false.
    exists (Z.to_N v), (28 + k + e - 28). unfold mk.
    split; [reflexivity|]. rewrite Z2N.id by lia.
    split; [lia|]. split; [lia|]. split; [lia|].
    replace (28 + k + e - 28 - e) with k by lia.
    destruct Hvk as [(-> & H1 & H2)|(-> & H1 & H2)].
    + change (10 ^ 1) with 10. split; [lia|]. left. lia.
    + change (10 ^ 2) with 100. split; [lia|]. right. lia.
Qed.

Ltac div_facts c :=
  pose proof (Z.div_mod c 10 ltac:(lia));
  pose proof (Z.mod_pos_bound c 10 ltac:(lia));
  pose proof (Z.div_mod c 100 ltac:(lia));
  pose proof (Z.mod_pos_bound c 100 ltac:(lia)).

(** The quotient of two non-zero finite decimals: [__truediv__] computes
    29 or 30 digits [X / cy] of the quotient and rounds them to 28; the
    result stays within 51 units of the last of those digits, and never
    falls below them cut to a multiple of 100. *)
Lemma truediv_round (sx sy : bool) (cx cy : N) (ex ey : Z) :
  (cx <> 0)%N -> (cy <> 0)%N -> ndigits cx <= 28 ->
  let shift := ndigits cy - ndigits cx + 29 in
  let E := ex - ey - shift in
  let C0 := Z.of_N cx * 10 ^ shift / Z.of_N cy in
  Etiny <= E -> E + 33 <= Etop ->
  exists c28 e28,
    truediv (Finite sx cx ex) (Finite sy cy ey)
    = Ok (Finite (xorb sx sy) c28 e28) /\
    (c28 <> 0)%N /\ Z.of_N c28 < 10 ^ 28 /\ E <= e28 /\
    10 ^ 28 <= C0 < 10 ^ 30 /\
    C0 / 100 * 100 <= Z.of_N c28 * 10 ^ (e28 - E) <= C0 + 51.
Proof.
  intros Hx Hy Hlx shift E C0 HE1 HE2.
  destruct (ndigits_spec cx Hx) as (Hx1 & Hxlo & Hxhi).
  destruct (ndigits_spec cy Hy) as (Hy1 & Hylo & Hyhi).
  assert (Hshift : 1 <= shift) by (subst shift; lia).
  pose proof (pow10_pos shift ltac:(lia)) as Hps.
  (* the quotient has 29 or 30 digits *)
  assert (HC0 : 10 ^ 28 <= C0 < 10 ^ 30).
  { subst C0. split.
    - apply Z.div_le_lower_bound; [lia|].
      assert (10 ^ (ndigits cy + 28) <= Z.of_N cx * 10 ^ shift).
      { replace (ndigits cy + 28) with ((ndigits cx - 1) + shift)
          by (subst shift; lia).
        rewrite pow10_split by lia. nia. }
      rewrite pow10_split in H by lia. nia.
    - apply Z.div_lt_upper_bound; [lia|].
      assert (Z.of_N cx * 10 ^ shift < 10 ^ (ndigits cy - 1 + 30)).
      { replace (ndigits cy - 1 + 30) with (ndigits cx + shift)
          by (subst shift; lia).
        rewrite pow10_split by lia. nia. }
      rewrite pow10_split in H by lia. nia. }
  unfold truediv. cbn [_check_nans sign_of].
  destruct (N.eqb_spec cy 0); [contradiction|].
  destruct (N.eqb_spec cx 0); [contradiction|].
  cbv zeta. unfold prec.
  replace (ndigits cy - ndigits cx + 28 + 1) with shift by (subst shift; lia).
  fold E.
  destruct (Z.leb_spec 0 shift); [|lia].
  destruct (Z.div_eucl (Z.of_N cx * 10 ^ shift) (Z.of_N cy)) as [q r] eqn:Hd.
  apply div_eucl_div_mod in Hd. destruct Hd as [Hq Hr]. fold C0 in Hq.
  subst q. clear Hr. clearbody C0.
  destruct (Z.eqb_spec r 0) as [Hr0|Hr0]; cbn [negb].
  - (* exact quotient *)
    pose proof (strip_zeros_spec (N.size_nat (Z.to_N C0)) C0 E (ex - ey)
                  ltac:(lia)) as Hs.
    destruct (strip_zeros (N.size_nat (Z.to_N C0)) C0 E (ex - ey))
      as [C1 E1].
    destruct Hs as (Hs1 & Hs2 & Hs3).
    pose proof (pow10_pos (E1 - E) ltac:(lia)) as Hpj.
    assert (Hj : E1 - E < 30).
    { apply pow10_lt_inv; [lia|lia|nia]. }
    destruct (Z_lt_le_dec C1 (10 ^ 28)) as [Hsmall|Hbig].
    + exists (Z.to_N C1), E1. unfold mk.
      split.
      { apply _fix_exact; [rewrite Z2N.id by lia; lia|].
        unfold Etop, Etiny, Emax, Emin, prec in *. lia. }
      rewrite Z2N.id by lia.
      split; [lia|]. split; [lia|]. split; [lia|]. split; [lia|].
      rewrite Hs3. pose proof (Z.div_mod C0 100 ltac:(lia)).
      pose proof (Z.mod_pos_bound C0 100 ltac:(lia)). lia.
    + assert (Hj2 : E1 - E < 2).
      { apply pow10_lt_inv; [lia|lia|]. change (10 ^ 2) with 100. nia. }
      destruct (_fix_round (xorb sx sy) C1 E1) as
        (c28 & e28 & Hfix & Hnz & Hlt & Hle & Hv).
      { split; [lia|]. nia. }
      { lia. }
      { unfold Etop, Etiny, Emax, Emin, prec in *. lia. }
      cbv zeta in Hv. destruct Hv as (_ & Hv).
      exists c28, e28. unfold mk. rewrite Hfix.
      split; [reflexivity|]. split; [assumption|]. split; [assumption|].
      split; [lia|]. split; [lia|].
      replace (e28 - E) with ((e28 - E1) + (E1 - E)) by lia.
      rewrite pow10_split by lia.
      assert (Hcase : E1 - E = 0 \/ E1 - E = 1) by lia.
      div_facts C0. div_facts C1.
      destruct Hcase as [Hj0|Hj1].
      * rewrite Hj0 in *. change (10 ^ 0) with 1 in *.
        destruct Hv as [Hv|Hv]; lia.
      * rewrite Hj1 in *. change (10 ^ 1) with 10 in *.
        destruct Hv as [Hv|Hv]; lia.
  - (* inexact quotient: the sticky digit *)
    set (C' := if C0 mod 5 =? 0 then C0 + 1 else C0).
    assert (HC' : C0 <= C' <= C0 + 1 /\ C' < 10 ^ 30).
    { subst C'. pose proof (Z.div_mod C0 5 ltac:(lia)).
      destruct (Z.eqb_spec (C0 mod 5) 0); lia. }
    destruct (_fix_round (xorb sx sy) C' E) as
      (c28 & e28 & Hfix & Hnz & Hlt & Hle & Hv).
    { lia. } { lia. }
    { unfold Etop, Etiny, Emax, Emin, prec in *. lia. }
    cbv zeta in Hv. destruct Hv as (_ & Hv).
    exists c28, e28. unfold mk. rewrite Hfix.
    split; [reflexivity|]. split; [assumption|]. split; [assumption|].
    split; [lia|]. split; [lia|].
    div_facts C0. div_facts C'.
    destruct Hv as [Hv|Hv]; lia.
Qed.

(** [quantize(Decimal("0.0001"), ROUND_HALF_UP)] of a decimal whose
    value is [V] units of [10 ^ (- g - 4)]: the number of units of
    [10 ^ (-4)], rounded half up. *)
Lemma quantize_half_up (s sq : bool) (c28 cq : N) (e28 g : Z) :
  (c28 <> 0)%N -> Z.of_N c28 < 10 ^ 28 -> 3 <= g -> - g - 4 <= e28 ->
  let V := Z.of_N c28 * 10 ^ (e28 - (- g - 4)) in
  V <= 10 ^ 30 + 51 ->
  quantize (Finite s c28 e28) (Finite sq cq (-4)) ROUND_HALF_UP
  = Ok (Finite s (Z.to_N ((V + 5 * 10 ^ (g - 1)) / 10 ^ g)) (-4)).
Proof.
  intros Hnz Hlt Hg He V HV.
  destruct (ndigits_spec c28 Hnz) as (HL1 & HLlo & HLhi).
  pose proof (pow10_pos (e28 - (- g - 4)) ltac:(lia)) as Hpj.
  pose proof (pow10_pos (g - 1) ltac:(lia)) as Hpg1.
  assert (Hpg : 10 ^ g = 10 * 10 ^ (g - 1)).
  { replace g with (1 + (g - 1)) at 1 by lia.
    rewrite pow10_split by lia. reflexivity. }
  assert (Hg100 : 100 <= 10 ^ (g - 1)).
  { change 100 with (10 ^ 2). apply pow10_le. lia. }
  (* the adjusted exponent is at most 23 *)
  assert (Hadj : adjusted c28 e28 <= 26 - g).
  { unfold adjusted.
    assert (10 ^ (ndigits c28 - 1 + (e28 - (- g - 4))) < 10 ^ 31).
    { rewrite pow10_split by lia. subst V. nia. }
    assert (ndigits c28 - 1 + (e28 - (- g - 4)) < 31)
      by (apply pow10_lt_inv; lia).
    lia. }
  set (n := (V + 5 * 10 ^ (g - 1)) / 10 ^ g).
  assert (Hn : 0 <= n < 10 ^ 28).
  { subst n. split.
    - apply Z.div_pos; subst V; nia.
    - apply Z.div_lt_upper_bound; [lia|].
      replace (10 ^ g * 10 ^ 28) with (10 ^ (g - 1) * 10 ^ 29)
        by (rewrite Hpg; change (10 ^ 29) with (10 * 10 ^ 28); ring).
      nia. }
  unfold quantize. cbn [_check_nans].
  unfold Etiny, Etop, Emin, Emax, prec in *. cbn [Z.leb andb negb].
  change ((-999999 - 28 + 1 <=? -4) && (-4 <=? 999999)) with true.
  cbn [negb]. destruct (N.eqb_spec c28 0); [contradiction|].
  ltb_false. ltb_false.
  assert (Hres : _rescale (Finite s c28 e28) (-4) ROUND_HALF_UP
                 = Finite s (Z.to_N n) (-4)).
  { destruct (Z_lt_le_dec e28 (-4)) as [Hlo|Hhi].
    - rewrite _rescale_round by (assumption || lia). unfold mk.
      f_equal. f_equal.
      rewrite round_half_up_floor by lia. subst n V.
      replace (e28 - (- g - 4)) with (g - (-4 - e28)) by lia.
      set (h := -4 - e28) in *.
      pose proof (pow10_pos (g - h) ltac:(lia)).
      replace (10 ^ g) with (10 ^ h * 10 ^ (g - h))
        by (rewrite <- pow10_split by lia; f_equal; lia).
      replace (10 ^ (g - 1)) with (10 ^ (h - 1) * 10 ^ (g - h))
        by (rewrite <- pow10_split by lia; f_equal; lia).
      replace (Z.of_N c28 * 10 ^ (g - h) + 5 * (10 ^ (h - 1) * 10 ^ (g - h)))
        with ((Z.of_N c28 + 5 * 10 ^ (h - 1)) * 10 ^ (g - h)) by ring.
      rewrite Z.div_mul_cancel_r by lia. reflexivity.
    - unfold _rescale. destruct (N.eqb_spec c28 0); [contradiction|].
      destruct (Z.leb_spec (-4) e28); [|lia]. unfold mk.
      f_equal. f_equal. subst n V.
      replace (e28 - (- g - 4)) with ((e28 - -4) + g) by lia.
      rewrite pow10_split by lia.
      apply Z.div_unique_pos with (r := 5 * 10 ^ (g - 1)); [lia|].
      ring. }
  rewrite Hres.
  assert (Hd : ndigits (Z.to_N n) <= 28).
  { destruct (N.eq_dec (Z.to_N n) 0%N) as [->|Hn0]; [rewrite ndigits_0; lia|].
    apply ndigits_le; [lia| |assumption]. rewrite Z2N.id by lia. lia. }
  pose proof (ndigits_pos (Z.to_N n)).
  unfold adjusted. ltb_false. ltb_false.
  apply _fix_exact; [rewrite Z2N.id by lia; lia|].
  unfold Etiny, Etop, Emin, Emax, prec. lia.
Qed.


Lemma le_of_mul (c a b r : Z) :
  0 < c -> 0 <= r < c -> c * a <= c * b + r -> a <= b.
Proof. intros Hc Hr H. nia. Qed.

Lemma lt_of_mul (c a b : Z) : 0 < c -> c * a < c * b -> a < b.
Proof. intros Hc H. nia. Qed.

(** Rounding twice is harmless here: a value [V] that is within 51 of
    the quotient [X / cy] rounds half up like the exact quotient,
    because a quotient that is not on a rounding boundary is more than
    51 away from it. *)
Lemma double_rounding_core (X' cy V T2 u : Z) :
  0 <= X' -> 0 < cy -> 0 < T2 -> 51 * cy < 100 * T2 -> 0 < u ->
  let T := 100 * T2 in
  let X := X' * T in
  let H := u * T in
  X / cy / 100 * 100 <= V <= X / cy + 51 ->
  (V + H) / (2 * H) = (X + H * cy) / (cy * (2 * H)).
Proof.
  intros HX' Hcy HT2 Hgap Hu T X H HV.
  assert (HT : 0 < T) by (subst T; lia).
  assert (HH : 0 < H) by (subst H; apply Z.mul_pos_pos; lia).
  assert (HXnn : 0 <= X) by (subst X; apply Z.mul_nonneg_nonneg; lia).
  set (C0 := X / cy) in *.
  pose proof (Z.div_mod X cy ltac:(lia)) as Hdm. fold C0 in Hdm.
  pose proof (Z.mod_pos_bound X cy ltac:(lia)) as Hmb.
  set (r := X mod cy) in *.
  pose proof (Z.div_mod C0 100 ltac:(lia)) as Hdm1.
  pose proof (Z.mod_pos_bound C0 100 ltac:(lia)) as Hmb1.
  set (C1 := C0 / 100) in *. set (r1 := C0 mod 100) in *.
  assert (HcP : 0 < cy * (2 * H)) by (apply Z.mul_pos_pos; lia).
  set (n := (X + H * cy) / (cy * (2 * H))).
  pose proof (Z.div_mod (X + H * cy) (cy * (2 * H)) ltac:(lia)) as Hn.
  pose proof (Z.mod_pos_bound (X + H * cy) (cy * (2 * H)) ltac:(lia)) as Hnb.
  fold n in Hn. set (rn := (X + H * cy) mod (cy * (2 * H))) in *.
  clearbody rn n r C0 C1 r1.
  symmetry. apply Z.div_unique_pos with (r := V + H - n * (2 * H)); [|ring].
  split.
  - (* the boundary below is a multiple of 100 that [C0] has reached *)
    assert (Hm : (2 * n - 1) * u * T <= C0).
    { apply (le_of_mul cy _ _ r); [lia|lia|]. subst H. lia. }
    assert (Hm1 : (2 * n - 1) * u * T2 <= C1).
    { apply (le_of_mul 100 _ _ r1); [lia|lia|]. subst T. lia. }
    subst H T. lia.
  - (* the boundary above is more than 51 beyond [C0] *)
    assert (Hlt : T * X' < T * ((2 * n + 1) * u * cy)).
    { subst H X. lia. }
    apply lt_of_mul in Hlt; [|lia].
    assert (Hc : cy * (C0 + 51) < cy * ((2 * n + 1) * u * T)).
    { assert (T * (X' + 1) <= T * ((2 * n + 1) * u * cy)).
      { apply Z.mul_le_mono_nonneg_l; lia. }
      subst X T. lia. }
    apply lt_of_mul in Hc; [|lia].
    subst H. lia.
Qed.

Lemma double_rounding (X' cy V g t : Z) :
  0 <= X' -> 0 < cy -> 2 <= t <= g - 1 -> 51 * cy < 10 ^ t ->
  let X := X' * 10 ^ t in
  X / cy / 100 * 100 <= V <= X / cy + 51 ->
  (V + 5 * 10 ^ (g - 1)) / 10 ^ g
  = (X + 5 * 10 ^ (g - 1) * cy) / (cy * 10 ^ g).
Proof.
  intros HX' Hcy Ht Hgap X HV.
  pose proof (pow10_pos (t - 2) ltac:(lia)) as Hp2.
  pose proof (pow10_pos (g - 1 - t) ltac:(lia)) as Hpr.
  assert (Ht100 : 10 ^ t = 100 * 10 ^ (t - 2)).
  { change 100 with (10 ^ 2). rewrite <- pow10_split by lia. f_equal. lia. }
  assert (Hg1 : 5 * 10 ^ (g - 1) = 5 * 10 ^ (g - 1 - t) * (100 * 10 ^ (t - 2))).
  { rewrite <- Ht100, <- Z.mul_assoc, <- pow10_split by lia.
    do 2 f_equal. lia. }
  assert (Hg : 10 ^ g = 2 * (5 * 10 ^ (g - 1))).
  { replace g with (1 + (g - 1)) at 1 by lia.
    rewrite pow10_split by lia. change (10 ^ 1) with 10. lia. }
  rewrite Hg, Hg1. subst X. rewrite Ht100 in *.
  apply double_rounding_core; try lia.
Qed.

(** ** The rate as an exact rounded quotient *)

(** [a / b] rounded half up to an integer, for [0 <= a] and [0 < b]. *)
Definition half_up_div (a b : Z) : Z := (2 * a + b) / (2 * b).

(** The number of units of [10 ^ (-4)] in the quotient of [cx * 10 ^ ex]
    by [cy * 10 ^ ey], rounded half up. *)
Definition rate_units (cx ex cy ey : Z) : Z :=
  let d := ex - ey + 4 in
  if 0 <=? d then half_up_div (cx * 10 ^ d) cy
  else half_up_div cx (cy * 10 ^ (- d)).

Lemma half_up_div_scale (a b k : Z) :
  0 < b -> 0 < k -> half_up_div (a * k) (b * k) = half_up_div a b.
Proof.
  intros Hb Hk. unfold half_up_div.
  replace (2 * (a * k) + b * k) with ((2 * a + b) * k) by ring.
  replace (2 * (b * k)) with (2 * b * k) by ring.
  apply Z.div_mul_cancel_r; lia.
Qed.

(** Dividing and quantizing: under the digit bounds, the 28-digit
    quotient quantized half up is the exact quotient rounded half up. *)
Lemma truediv_quantize (sx sy sq : bool) (cx cy cq : N) (ex ey : Z) :
  (cx <> 0)%N -> (cy <> 0)%N ->
  ndigits cx <= 27 -> ndigits cy <= 28 ->
  ndigits cx + ex - ey <= 22 -> -999900 <= ex - ey ->
  (q ← truediv (Finite sx cx ex) (Finite sy cy ey);
   quantize q (Finite sq cq (-4)) ROUND_HALF_UP)
  = Ok (Finite (xorb sx sy)
          (Z.to_N (rate_units (Z.of_N cx) ex (Z.of_N cy) ey)) (-4)).
Proof.
  intros Hx Hy Hlx Hly Hmag Hlow.
  pose proof (ndigits_pos cx) as Hx1. pose proof (ndigits_pos cy) as Hy1.
  destruct (ndigits_spec cy Hy) as (_ & _ & Hyhi).
  set (shift := ndigits cy - ndigits cx + 29).
  set (E := ex - ey - shift).
  set (g := - E - 4).
  destruct (truediv_round sx sy cx cy ex ey Hx Hy ltac:(lia))
    as (c28 & e28 & Hdiv & Hnz & Hlt & Hle & HC0 & HV).
  { unfold Etiny, Emin, prec. fold shift. lia. }
  { unfold Etop, Emax, prec. fold shift. lia. }
  fold shift E in Hle, HC0, HV. rewrite Hdiv. cbn [mbind result_bind].
  rewrite (quantize_half_up _ sq c28 cq e28 g Hnz Hlt); try (subst g; lia).
  2: { replace (- g - 4) with E by (subst g; lia). lia. }
  f_equal. f_equal. f_equal.
  replace (- g - 4) with E by (subst g; lia).
  set (t := ndigits cy + 2).
  assert (Hpt : 10 ^ t = 100 * 10 ^ ndigits cy).
  { subst t. rewrite pow10_split by lia. change (10 ^ 2) with 100. lia. }
  assert (HX : Z.of_N cx * 10 ^ shift
               = Z.of_N cx * 10 ^ (shift - t) * 10 ^ t).
  { rewrite <- Z.mul_assoc, <- pow10_split by (subst t shift; lia).
    do 2 f_equal. lia. }
  pose proof (pow10_pos (shift - t) ltac:(subst t shift; lia)) as Hpst.
  rewrite HX in HV.
  rewrite (double_rounding (Z.of_N cx * 10 ^ (shift - t)) (Z.of_N cy) _ g t);
    [|nia|lia|subst t g E shift; lia|lia|exact HV].
  rewrite <- HX.
  (* back to the operands *)
  pose proof (pow10_pos (g - 1) ltac:(subst g E shift; lia)) as Hpg1.
  assert (Hpg : 10 ^ g = 2 * (5 * 10 ^ (g - 1))).
  { replace g with (1 + (g - 1)) at 1 by lia.
    rewrite pow10_split by (subst g E shift; lia).
    change (10 ^ 1) with 10. lia. }
  rewrite <- (Z.div_mul_cancel_l _ _ 2) by lia.
  replace (2 * (Z.of_N cx * 10 ^ shift + 5 * 10 ^ (g - 1) * Z.of_N cy))
    with (2 * (Z.of_N cx * 10 ^ shift) + Z.of_N cy * 10 ^ g)
    by (rewrite Hpg; ring).
  replace (2 * (Z.of_N cy * 10 ^ g)) with (2 * (Z.of_N cy * 10 ^ g)) by ring.
  change ((2 * (Z.of_N cx * 10 ^ shift) + Z.of_N cy * 10 ^ g)
          / (2 * (Z.of_N cy * 10 ^ g)))
    with (half_up_div (Z.of_N cx * 10 ^ shift) (Z.of_N cy * 10 ^ g)).
  unfold rate_units.
  destruct (Z.leb_spec 0 (ex - ey + 4)) as [Hd|Hd].
  - replace shift with ((ex - ey + 4) + g) by (subst g E; lia).
    rewrite pow10_split by (subst g E shift; lia).
    rewrite Z.mul_assoc. apply half_up_div_scale; [lia|].
    apply pow10_pos. subst g E shift. lia.
  - replace g with (- (ex - ey + 4) + shift) by (subst g E; lia).
    rewrite pow10_split by (subst shift; lia).
    rewrite Z.mul_assoc. apply half_up_div_scale.
    + pose proof (pow10_pos (- (ex - ey + 4)) ltac:(lia)). nia.
    + apply pow10_pos. subst shift. lia.
Qed.

(** ** The value of a finite decimal *)

(** The value of [d] counted in units of [10 ^ e0], when [d] is finite
    and has no digit below that unit. *)
Definition units (e0 : Z) (d : Decimal) : option Z :=
  match d with
  | Finite s c e =>
      if e0 <=? e then Some (signed s (Z.of_N c * 10 ^ (e - e0))) else None
  | _ => None
  end.

Lemma signed_mul (s : bool) (x k : Z) : signed s (x * k) = signed s x * k.
Proof. destruct s; cbn; ring. Qed.

Lemma pow10_align (c e e1 e0 : Z) :
  e0 <= e1 <= e -> c * 10 ^ (e - e1) * 10 ^ (e1 - e0) = c * 10 ^ (e - e0).
Proof.
  intros H. rewrite <- Z.mul_assoc, <- pow10_split by lia.
  do 2 f_equal. lia.
Qed.

(** * The total annual income (claim C8) *)

Section TotalAnnual.

Variable cfg : IncomeConfig.
Variables (s1 s2 s3 : bool) (c1 c2 c3 : N) (e1 e2 e3 : Z).
Hypothesis Hsalary : annual_salary cfg = Finite s1 c1 e1.
Hypothesis Hside : side_income cfg = Finite s2 c2 e2.
Hypothesis Hpassive : passive_income cfg = Finite s3 c3 e3.

Let e0 := Z.min (Z.min e1 e2) e3.
Let a := Z.of_N c1 * 10 ^ (e1 - e0).
Let b := Z.of_N c2 * 10 ^ (e2 - e0).
Let c := Z.of_N c3 * 10 ^ (e3 - e0).

(** When the three amounts, written with the same exponent, add up to
    at most 28 digits, the total is their exact sum. *)
Lemma total_annual_exact_aux :
  a + b + c < 10 ^ 28 -> Etiny <= e0 -> Z.max (Z.max e1 e2) e3 <= Etop ->
  exists s t,
    total_annual cfg = Ok (Finite s t e0) /\
    signed s (Z.of_N t) = signed s1 a + signed s2 b + signed s3 c /\
    Z.of_N t <= a + b + c.
Proof.
  intros Hsum Hlo Hhi. unfold total_annual.
  rewrite Hsalary, Hside, Hpassive.
  set (e01 := Z.min e1 e2).
  assert (He01 : e0 <= e01) by (subst e0 e01; lia).
  pose proof (pow10_pos (e01 - e0) ltac:(lia)) as Hp.
  pose proof (pow10_pos (e1 - e01) ltac:(subst e01; lia)) as Hp1.
  pose proof (pow10_pos (e2 - e01) ltac:(subst e01; lia)) as Hp2.
  pose proof (pow10_pos (e3 - e0) ltac:(subst e0; lia)) as Hp3.
  assert (Ha : a = Z.of_N c1 * 10 ^ (e1 - e01) * 10 ^ (e01 - e0)).
  { subst a. rewrite pow10_align; [reflexivity|subst e01; lia]. }
  assert (Hb : b = Z.of_N c2 * 10 ^ (e2 - e01) * 10 ^ (e01 - e0)).
  { subst b. rewrite pow10_align; [reflexivity|subst e01; lia]. }
  assert (Hc0 : 0 <= c) by (subst c; nia).
  destruct (add_exact s1 s2 c1 c2 e1 e2) as (s12 & c12 & Hadd & Hval & Hle).
  { fold e01. nia. }
  { fold e01. lia. }
  fold e01 in Hadd, Hval, Hle. rewrite Hadd. cbn [mbind result_bind].
  assert (Hmin : Z.min e01 e3 = e0) by (subst e0 e01; reflexivity).
  destruct (add_exact s12 s3 c12 c3 e01 e3) as (s & t & Hadd2 & Hval2 & Hle2).
  { rewrite Hmin. fold c. nia. }
  { rewrite Hmin. lia. }
  rewrite Hmin in Hadd2, Hval2, Hle2. fold c in Hval2, Hle2.
  exists s, t. split; [exact Hadd2|]. split.
  - rewrite Hval2, signed_mul, Hval, Ha, Hb, !signed_mul. ring.
  - nia.
Qed.

End TotalAnnual.

(** * The per-second rate (claims C2 and C10) *)

Lemma quantize_zero (s sq : bool) (cq : N) (e : Z) (r : rounding) :
  quantize (Finite s 0 e) (Finite sq cq (-4)) r = Ok (Finite s 0 (-4)).
Proof. reflexivity. Qed.

Lemma half_up_div_0 (b : Z) : 0 < b -> half_up_div 0 b = 0.
Proof. intros Hb. unfold half_up_div. apply Z.div_small. lia. Qed.

Lemma rate_units_0 (ex cy ey : Z) : 0 < cy -> rate_units 0 ex cy ey = 0.
Proof.
  intros Hcy. unfold rate_units.
  destruct (Z.leb_spec 0 (ex - ey + 4)).
  - rewrite Z.mul_0_l. apply half_up_div_0. lia.
  - apply half_up_div_0.
    pose proof (pow10_pos (- (ex - ey + 4)) ltac:(lia)). nia.
Qed.

Section PerSecond.

Variable cfg : IncomeConfig.
Variables (s1 s2 s3 sh sd : bool) (c1 c2 c3 ch cd : N) (e1 e2 e3 eh ed : Z).
Hypothesis Hsalary : annual_salary cfg = Finite s1 c1 e1.
Hypothesis Hside : side_income cfg = Finite s2 c2 e2.
Hypothesis Hpassive : passive_income cfg = Finite s3 c3 e3.
Hypothesis Hhours : work_hours_per_day cfg = Finite sh ch eh.
Hypothesis Hdays : work_days_per_year cfg = Finite sd cd ed.

Let e0 := Z.min (Z.min e1 e2) e3.
Let a := Z.of_N c1 * 10 ^ (e1 - e0).
Let b := Z.of_N c2 * 10 ^ (e2 - e0).
Let c := Z.of_N c3 * 10 ^ (e3 - e0).
Let T := signed s1 a + signed s2 b + signed s3 c.
Let cS := Z.of_N ch * 3600 * Z.of_N cd.
Let eS := eh + ed.

(** The working seconds of a year, when the product is exact. *)
Lemma total_seconds_exact :
  cS < 10 ^ 28 -> cS <> 0 -> Etiny <= eh <= Etop -> Etiny <= eS <= Etop ->
  total_seconds cfg = Ok (Finite (xorb sh sd) (ch * 3600 * cd) eS).
Proof.
  intros Hlt Hnz Heh HeS. unfold total_seconds. rewrite Hhours, Hdays.
  assert (0 < Z.of_N ch /\ 0 < Z.of_N cd) as [Hch Hcd] by (subst cS; nia).
  rewrite mul_exact; [|subst cS; nia|lia].
  cbn [mbind result_bind]. rewrite mul_exact; [|subst cS; lia|subst eS; lia].
  rewrite xorb_false_r. subst eS. do 2 f_equal. lia.
Qed.

(** Under the digit bounds, the rate is the exact quotient of the total
    by the working seconds, rounded half up to four places, with the
    sign of the quotient. *)
Lemma per_second_exact_aux (k : Z) :
  cS < 10 ^ 28 -> cS <> 0 -> Etiny <= eh <= Etop -> Etiny <= eS <= Etop ->
  a + b + c < 10 ^ k -> k <= 27 -> k + e0 - eS <= 22 ->
  Etiny <= e0 -> Z.max (Z.max e1 e2) e3 <= Etop -> -999900 <= e0 - eS ->
  exists s,
    per_second cfg
    = Ok (Finite s (Z.to_N (rate_units (Z.abs T) e0 cS eS)) (-4)) /\
    (T <> 0 -> s = xorb (T <? 0) (xorb sh sd)).
Proof.
  intros HS HSnz Heh HeS Hk Hk27 Hmag Hlo Hhi Hdiff.
  assert (H0k : 0 <= k).
  { destruct (Z_lt_le_dec k 0) as [Hn|]; [|assumption].
    rewrite Z.pow_neg_r in Hk by assumption.
    pose proof (pow10_pos (e1 - e0) ltac:(subst e0; lia)).
    pose proof (pow10_pos (e2 - e0) ltac:(subst e0; lia)).
    pose proof (pow10_pos (e3 - e0) ltac:(subst e0; lia)).
    subst a b c. nia. }
  pose proof (pow10_le k 27 ltac:(lia)) as Hk'.
  destruct (total_annual_exact_aux cfg s1 s2 s3 c1 c2 c3 e1 e2 e3
              Hsalary Hside Hpassive) as (st & t & Htot & Hval & Hle).
  { fold e0 a b c. pose proof (pow10_lt 27 28 ltac:(lia)). lia. }
  { assumption. } { assumption. }
  fold e0 a b c in Htot, Hval, Hle. fold T in Hval.
  unfold per_second.
  rewrite (total_seconds_exact HS HSnz Heh HeS).
  cbn [mbind result_bind eq_zero].
  assert (HcS : Z.of_N (ch * 3600 * cd) = cS) by (subst cS; lia).
  destruct (N.eqb_spec (ch * 3600 * cd) 0) as [Hz|Hz]; [lia|].
  rewrite Htot. cbn [mbind result_bind].
  assert (Habs : Z.abs T = Z.of_N t).
  { rewrite <- Hval. destruct st; cbn; lia. }
  rewrite Habs.
  destruct (N.eq_dec t 0%N) as [Ht0|Ht0].
  - subst t. exists (xorb st (xorb sh sd)). split.
    + cbn [truediv _check_nans sign_of].
      destruct (N.eqb_spec (ch * 3600 * cd) 0); [contradiction|].
      cbn [N.eqb Z.of_N].
      rewrite rate_units_0 by lia.
      destruct (_fix (Finite (xorb st (xorb sh sd)) 0 (e0 - eS)))
        as [q|] eqn:Hfix; [|cbn in Hfix; discriminate].
      cbn in Hfix. injection Hfix as <-. reflexivity.
    + intros HT. exfalso. apply HT. rewrite <- Hval. destruct st; reflexivity.
  - exists (xorb st (xorb sh sd)). split.
    + rewrite <- HcS. apply truediv_quantize; try assumption.
      * assert (ndigits t <= k) by (apply ndigits_le; lia). lia.
      * apply ndigits_le; lia.
      * assert (ndigits t <= k) by (apply ndigits_le; lia). lia.
    + intros _. f_equal. destruct st.
      * cbn in Hval. destruct (Z.ltb_spec T 0); [reflexivity|lia].
      * cbn in Hval. destruct (Z.ltb_spec T 0); [lia|reflexivity].
Qed.

End PerSecond.

(** ** Configurations used as examples *)

(** [IncomeConfig(annual_salary=salary)], the other fields at their
    defaults. *)
Definition config_of_salary (salary : Decimal) : IncomeConfig :=
  mkIncomeConfig salary dollar default_hours default_days
    (Finite false 0 0) (Finite false 0 0).

(** The configuration of the [demo] command of [cli.py]. *)
Definition demo_config : IncomeConfig :=
  mkIncomeConfig (Finite false 180000 0) dollar default_hours default_days
    (Finite false 25000 0) (Finite false 5000 0).

(** [IncomeConfig(Decimal("1E+28"), side_income=Decimal("1"))]. *)
Definition cfg_29_digits : IncomeConfig :=
  mkIncomeConfig (Finite false 1 28) dollar default_hours default_days
    (Finite false 1 0) (Finite false 0 0).

(** The claim of the specification on the total: in some common unit the
    total is the sum of the three amounts. *)
Definition total_is_sum (cfg : IncomeConfig) : Prop :=
  exists t e0 va vb vc,
    total_annual cfg = Ok t /\
    units e0 (annual_salary cfg) = Some va /\
    units e0 (side_income cfg) = Some vb /\
    units e0 (passive_income cfg) = Some vc /\
    units e0 t = Some (va + vb + vc).

(** C8, as stated, fails: [Decimal("1E+28") + Decimal("1")] has 29
    digits and the context rounds it to 28, so the total of
    [cfg_29_digits] is [1.000000000000000000000000000E+28], one less
    than the sum. *)
Lemma total_annual_rounds_29_digits : ~ total_is_sum cfg_29_digits.
Proof.
  intros (t & e0 & va & vb & vc & Ht & Ha & Hb & Hc & Hv).
  vm_compute in Ht. injection Ht as <-.
  unfold units in *. cbn [cfg_29_digits annual_salary side_income
    passive_income] in *.
  destruct (Z.leb_spec e0 28); [|discriminate].
  destruct (Z.leb_spec e0 0); [|discriminate].
  destruct (Z.leb_spec e0 1); [|discriminate].
  injection Ha as <-. injection Hb as <-. injection Hc as <-.
  injection Hv as Hv. cbn [signed Z.of_N] in Hv.
  pose proof (pow10_pos (0 - e0) ltac:(lia)) as Hp.
  replace (28 - e0) with (28 + (0 - e0)) in Hv by lia.
  replace (1 - e0) with (1 + (0 - e0)) in Hv by lia.
  rewrite !pow10_split in Hv by lia.
  change (Z.pos (10 ^ 27)) with (10 ^ 27) in Hv.
  change (10 ^ 1) with 10 in Hv.
  change (10 ^ 28) with (10 ^ 27 * 10) in Hv. lia.
Qed.

(** C8 (amended): when the three amounts are finite and, written with
    their smallest exponent, add up to fewer than [10 ^ 28], the total is
    their exact sum (with that exponent); beyond 28 digits the context
    rounds it. *)
Theorem total_annual_exact (cfg : IncomeConfig)
    (s1 s2 s3 : bool) (c1 c2 c3 : N) (e1 e2 e3 : Z) :
  annual_salary cfg = Finite s1 c1 e1 ->
  side_income cfg = Finite s2 c2 e2 ->
  passive_income cfg = Finite s3 c3 e3 ->
  let e0 := Z.min (Z.min e1 e2) e3 in
  let a := Z.of_N c1 * 10 ^ (e1 - e0) in
  let b := Z.of_N c2 * 10 ^ (e2 - e0) in
  let c := Z.of_N c3 * 10 ^ (e3 - e0) in
  a + b + c < 10 ^ 28 -> Etiny <= e0 -> Z.max (Z.max e1 e2) e3 <= Etop ->
  exists t,
    total_annual cfg = Ok t /\
    units e0 t = Some (signed s1 a + signed s2 b + signed s3 c).
Proof.
  intros H1 H2 H3 e0 a b c Hsum Hlo Hhi.
  destruct (total_annual_exact_aux cfg s1 s2 s3 c1 c2 c3 e1 e2 e3 H1 H2 H3
              Hsum Hlo Hhi) as (s & t & Ht & Hv & _).
  exists (Finite s t e0). split; [exact Ht|].
  unfold units. rewrite Z.leb_refl, Z.sub_diag, Z.mul_1_r. f_equal. exact Hv.
Qed.

(** For salary 180000, side 25000 and passive 5000 the total is 210000. *)
Lemma total_annual_exact_witness :
  exists t, total_annual demo_config = Ok t /\ units 0 t = Some 210000.
Proof.
  apply (total_annual_exact demo_config false false false
           180000 25000 5000 0 0 0 eq_refl eq_refl eq_refl).
  - reflexivity.
  - unfold Etiny, Emin, prec. cbn. lia.
  - unfold Etop, Emax, prec. cbn. lia.
Defined.

(** [IncomeConfig(Decimal("8999.999999999999999999999999"))]: the
    quotient by 7200000 is just below 0.00125. *)
Definition cfg_double_rounding : IncomeConfig :=
  config_of_salary (Finite false 8999999999999999999999999999 (-24)).

(** [IncomeConfig(Decimal("1E+31"))], what [myi -s 1e31] builds. *)
Definition cfg_1e31 : IncomeConfig := config_of_salary (Finite false 1 31).

(** [IncomeConfig(Decimal("-1"))]. *)
Definition cfg_minus_1 : IncomeConfig := config_of_salary (Finite true 1 0).

(** C2, as stated, fails: the division rounds the quotient to 28 digits
    before [quantize] rounds it half up, so a total just below a rounding
    boundary is rounded up twice (0.0013 where the exact quotient gives
    0.0012); and a quotient of 10 ^ 24 or more does not fit the context
    and [quantize] raises [InvalidOperation]. *)
Lemma per_second_double_rounding :
  total_annual cfg_double_rounding
  = Ok (Finite false 8999999999999999999999999999 (-24)) /\
  total_seconds cfg_double_rounding = Ok (Finite false 7200000 0) /\
  rate_units 8999999999999999999999999999 (-24) 7200000 0 = 12 /\
  per_second cfg_double_rounding = Ok (Finite false 13 (-4)) /\
  per_second cfg_1e31 = Raise InvalidOperation.
Proof. vm_compute. repeat split; reflexivity. Qed.

(** C2 (amended): the rate is [0] whenever the computed divisor is zero,
    whatever the amounts; and when the fields are finite, the product
    [hours * 3600 * days] is exact and not zero, and the total has at
    most [k <= 27] digits with [k + e0 - eS <= 22], the rate is the exact
    quotient rounded half up to four places. *)
Theorem per_second_rounded_quotient :
  (forall cfg ts,
      total_seconds cfg = Ok ts -> is_zero ts = true ->
      per_second cfg = Ok (Finite false 0 0)) /\
  (forall cfg sh eh sd cd ed,
      work_hours_per_day cfg = Finite sh 0 eh ->
      work_days_per_year cfg = Finite sd cd ed ->
      per_second cfg = Ok (Finite false 0 0)) /\
  (forall cfg (s1 s2 s3 sh sd : bool) (c1 c2 c3 ch cd : N)
          (e1 e2 e3 eh ed k : Z),
      annual_salary cfg = Finite s1 c1 e1 ->
      side_income cfg = Finite s2 c2 e2 ->
      passive_income cfg = Finite s3 c3 e3 ->
      work_hours_per_day cfg = Finite sh ch eh ->
      work_days_per_year cfg = Finite sd cd ed ->
      let e0 := Z.min (Z.min e1 e2) e3 in
      let a := Z.of_N c1 * 10 ^ (e1 - e0) in
      let b := Z.of_N c2 * 10 ^ (e2 - e0) in
      let c := Z.of_N c3 * 10 ^ (e3 - e0) in
      let T := signed s1 a + signed s2 b + signed s3 c in
      let cS := Z.of_N ch * 3600 * Z.of_N cd in
      let eS := eh + ed in
      cS < 10 ^ 28 -> cS <> 0 ->
      Etiny <= eh <= Etop -> Etiny <= eS <= Etop ->
      a + b + c < 10 ^ k -> k <= 27 -> k + e0 - eS <= 22 ->
      Etiny <= e0 -> Z.max (Z.max e1 e2) e3 <= Etop ->
      -999900 <= e0 - eS ->
      exists s,
        per_second cfg
        = Ok (Finite s (Z.to_N (rate_units (Z.abs T) e0 cS eS)) (-4)) /\
        (T <> 0 -> s = xorb (T <? 0) (xorb sh sd))).
Proof.
  split; [|split].
  - intros cfg ts Hts Hz. unfold per_second. rewrite Hts.
    cbn [mbind result_bind]. destruct ts; try discriminate.
    cbn [eq_zero is_zero] in *. rewrite Hz. reflexivity.
  - intros cfg sh eh sd cd ed Hh Hd. unfold per_second, total_seconds.
    rewrite Hh, Hd. cbn [mul _check_nans sign_of N.mul _fix N.eqb
      mbind result_bind eq_zero].
    reflexivity.
  - intros. eapply per_second_exact_aux; eassumption.
Qed.

(** For salary 50000, hours 8 and days 250 the rate is 0.0069. *)
Lemma per_second_rounded_quotient_witness :
  exists s,
    per_second cfg50k = Ok (Finite s 69 (-4)) /\
    (50000 <> 0 -> s = false).
Proof.
  apply (proj2 (proj2 per_second_rounded_quotient) cfg50k
           false false false false false 50000%N 0%N 0%N 8%N 250%N
           0 0 0 0 0 5
           eq_refl eq_refl eq_refl eq_refl eq_refl);
    try reflexivity; try discriminate;
    unfold Etiny, Etop, Emin, Emax, prec; cbn; lia.
Defined.

(** C10, as stated, fails: a large amount makes [per_second] raise, and
    a small negative total gives the rate [-0.0000], which is zero. *)
Lemma per_second_raises_and_negative_zero :
  per_second cfg_1e31 = Raise InvalidOperation /\
  per_second cfg_minus_1 = Ok (Finite true 0 (-4)).
Proof. vm_compute. split; reflexivity. Qed.

(** C10 (amended): no sign is checked.  Within the digit bounds, a
    negative total over positive hours and days gives the total itself
    and a rate with the negative sign and the magnitude of the exact
    quotient rounded half up; no fault is raised. *)
Theorem negative_total_rate (cfg : IncomeConfig)
    (s1 s2 s3 : bool) (c1 c2 c3 ch cd : N) (e1 e2 e3 eh ed k : Z) :
  annual_salary cfg = Finite s1 c1 e1 ->
  side_income cfg = Finite s2 c2 e2 ->
  passive_income cfg = Finite s3 c3 e3 ->
  work_hours_per_day cfg = Finite false ch eh ->
  work_days_per_year cfg = Finite false cd ed ->
  let e0 := Z.min (Z.min e1 e2) e3 in
  let a := Z.of_N c1 * 10 ^ (e1 - e0) in
  let b := Z.of_N c2 * 10 ^ (e2 - e0) in
  let c := Z.of_N c3 * 10 ^ (e3 - e0) in
  let T := signed s1 a + signed s2 b + signed s3 c in
  let cS := Z.of_N ch * 3600 * Z.of_N cd in
  let eS := eh + ed in
  T < 0 ->
  cS < 10 ^ 28 -> cS <> 0 ->
  Etiny <= eh <= Etop -> Etiny <= eS <= Etop ->
  a + b + c < 10 ^ k -> k <= 27 -> k + e0 - eS <= 22 ->
  Etiny <= e0 -> Z.max (Z.max e1 e2) e3 <= Etop ->
  -999900 <= e0 - eS ->
  total_annual cfg = Ok (Finite true (Z.to_N (- T)) e0) /\
  per_second cfg
  = Ok (Finite true (Z.to_N (rate_units (- T) e0 cS eS)) (-4)).
Proof.
  intros H1 H2 H3 Hh Hd e0 a b c T cS eS HT HS HSnz Heh HeS Hk Hk27 Hmag
    Hlo Hhi Hdiff.
  split.
  - assert (H0k : 0 <= k).
    { destruct (Z_lt_le_dec k 0) as [Hn|]; [|assumption].
      rewrite Z.pow_neg_r in Hk by assumption.
      pose proof (pow10_pos (e1 - e0) ltac:(subst e0; lia)).
      pose proof (pow10_pos (e2 - e0) ltac:(subst e0; lia)).
      pose proof (pow10_pos (e3 - e0) ltac:(subst e0; lia)).
      subst a b c. nia. }
    pose proof (pow10_le k 27 ltac:(lia)).
    pose proof (pow10_lt 27 28 ltac:(lia)).
    destruct (total_annual_exact_aux cfg s1 s2 s3 c1 c2 c3 e1 e2 e3 H1 H2 H3)
      as (s & t & Ht & Hv & _); [fold e0 a b c; lia|assumption..|].
    fold e0 a b c in Ht, Hv. fold T in Hv. rewrite Ht.
    destruct s; cbn [signed] in Hv; [|lia].
    do 3 f_equal. lia.
  - destruct (per_second_exact_aux cfg s1 s2 s3 false false c1 c2 c3 ch cd
                e1 e2 e3 eh ed H1 H2 H3 Hh Hd k)
      as (s & Hr & Hs); try assumption.
    fold e0 a b c in Hr, Hs. fold T in Hr, Hs. fold cS eS in Hr.
    rewrite Hr, Hs by lia.
    replace (Z.abs T) with (- T) by lia.
    destruct (Z.ltb_spec T 0); [reflexivity|lia].
Qed.

(** For salary -50000 the total is -50000 and the rate is -0.0069. *)
Lemma negative_total_rate_witness :
  total_annual (config_of_salary (Finite true 50000 0))
  = Ok (Finite true 50000 0) /\
  per_second (config_of_salary (Finite true 50000 0))
  = Ok (Finite true 69 (-4)).
Proof.
  apply (negative_total_rate (config_of_salary (Finite true 50000 0))
           true false false 50000 0 0 8 250 0 0 0 0 0 5
           eq_refl eq_refl eq_refl eq_refl eq_refl);
    try reflexivity; try discriminate;
    unfold Etiny, Etop, Emin, Emax, prec; cbn; lia.
Defined.

(** * A product of more than 28 digits *)



(** * [start] has no guard (claim C3) *)

Lemma workers_app (l1 l2 : list pc) :
  length (List.filter is_worker (l1 ++ l2))
  = (length (List.filter is_worker l1)
     + length (List.filter is_worker l2))%nat.
Proof.
  induction l1 as [|p l1 IH]; [reflexivity|].
  cbn [app List.filter]. destruct (is_worker p); cbn [length]; rewrite IH; lia.
Qed.

(** C3, as stated, fails: a second [start] on a running tracker moves
    [start_time] and leaves two workers in the loop. *)
Lemma start_twice_two_workers :
  let w1 := start (mkWorld (__init__ cfg50k (of_Z 1000)) []) (of_Z 1000) in
  let w2 := start w1 (of_Z 1005) in
  _running (self w1) = true /\ workers w1 = 1%nat /\
  start_time (self w2) <> start_time (self w1) /\
  threads w2 = [L54; L54] /\ workers w2 = 2%nat.
Proof.
  cbv zeta. repeat split; try reflexivity. vm_compute. discriminate.
Qed.

(** C3 (amended): [start] is unconditional.  Whatever the state, it sets
    the running flag, re-baselines [start_time] to the current time and
    adds one more worker, which becomes [_thread]; the value, the
    subscribers, the configuration and the threads already there are
    left as they are. *)
Theorem start_unconditional (w : World) (now : float) :
  let w' := start w now in
  _running (self w') = true /\
  start_time (self w') = now /\
  _thread (self w') = Some (length (threads w)) /\
  threads w' = threads w ++ [L54] /\
  workers w' = S (workers w) /\
  accumulated (self w') = accumulated (self w) /\
  _callbacks (self w') = _callbacks (self w) /\
  config (self w') = config (self w).
Proof.
  cbv zeta. repeat split; try reflexivity.
  unfold workers, start. cbn [threads]. rewrite workers_app. cbn. lia.
Qed.

(** * Subscribers used as examples *)

(** A subscriber that returns, one whose exception derives from
    [Exception], and one that raises [SystemExit]. *)
Definition cb_returns : callback := fun _ _ => Returns.
Definition cb_raises : callback := fun _ _ => RaisesException.
Definition cb_exits : callback := fun _ _ => RaisesBaseException.

(** * Interleavings: the lock and the snapshot *)

(** What a step of a thread does to the lock. *)
Definition lock_move (i : nat) (p p' : pc) (t t' : IncomeTracker) : Prop :=
  (in_with p = false /\ in_with p' = true /\
   _lock t = None /\ _lock t' = Some i) \/
  (in_with p = true /\ in_with p' = false /\ _lock t' = None) \/
  (in_with p = in_with p' /\ _lock t' = _lock t).

(** Where a pair about to be returned, or returned, comes from. *)
Definition pair_origin (cfg : IncomeConfig) (p p' : pc) : Prop :=
  match p' with
  | L69 c e => value_at cfg e = Ok c
  | Done (Some (c, e)) => p = L69 c e
  | _ => True
  end.

Lemma thread_step_shape (now : float) (w w' : World) (i : nat) :
  thread_step now w i = Some w' ->
  exists p p' extra,
    threads w !! i = Some p /\
    threads w' = <[i := p']> (threads w) ++ extra /\
    (extra = [] \/ extra = [L54]) /\
    config (self w') = config (self w) /\
    lock_move i p p' (self w) (self w') /\
    pair_origin (config (self w)) p p'.
Proof.
  unfold thread_step. destruct (threads w !! i) as [p|] eqn:Hp;
    cbn [mbind option_bind]; [|discriminate].
  intros Hstep. exists p.
  destruct p; cbn in Hstep;
    repeat match type of Hstep with
      | context [match ?x with _ => _ end] => destruct x eqn:?
      end;
    try discriminate; injection Hstep as <-;
    eexists _, _; cbn [threads self config];
    (split; [reflexivity|]);
    (split; [first [reflexivity | symmetry; apply app_nil_r]|]);
    (split; [first [left; reflexivity | right; reflexivity]|]);
    (split; [reflexivity|]);
    unfold lock_move, pair_origin; cbn; auto 10.
Qed.

Lemma lookup_after_step (l extra : list pc) (i j : nat) (p p' q : pc) :
  l !! i = Some p ->
  (<[i := p']> l ++ extra) !! j = Some q ->
  (j = i /\ q = p') \/ (j <> i /\ l !! j = Some q) \/
  (length l <= j /\ In q extra)%nat.
Proof.
  intros Hi Hj. apply lookup_app_Some in Hj as [Hj|[Hlen Hj]].
  - apply list_lookup_insert_Some in Hj as [(-> & -> & _)|[Hne Hj]]; auto.
  - right. right. rewrite length_insert in Hlen. split; [exact Hlen|].
    apply list_elem_of_In. eapply list_elem_of_lookup_2. exact Hj.
Qed.

Lemma lookup_step_same (l extra : list pc) (i : nat) (p p' : pc) :
  l !! i = Some p -> (<[i := p']> l ++ extra) !! i = Some p'.
Proof.
  intros Hi. apply lookup_lt_Some in Hi as Hlt.
  rewrite lookup_app_l by (rewrite length_insert; exact Hlt).
  apply list_lookup_insert_eq. exact Hlt.
Qed.

Lemma lookup_step_other (l extra : list pc) (i j : nat) (p' q : pc) :
  j <> i -> l !! j = Some q -> (<[i := p']> l ++ extra) !! j = Some q.
Proof.
  intros Hne Hj. apply lookup_lt_Some in Hj as Hlt.
  rewrite lookup_app_l by (rewrite length_insert; exact Hlt).
  rewrite list_lookup_insert_ne by congruence. exact Hj.
Qed.

(** The lock is held by exactly the thread that is inside a [with]
    block, if any. *)
Definition lock_inv (w : World) : Prop :=
  (forall i p, threads w !! i = Some p -> in_with p = true ->
               _lock (self w) = Some i) /\
  (forall i, _lock (self w) = Some i ->
             exists p, threads w !! i = Some p /\ in_with p = true).

(** Every pair a call to [get_current] holds or has returned is the
    value for the elapsed time beside it. *)
Definition pairs_inv (cfg : IncomeConfig) (w : World) : Prop :=
  config (self w) = cfg /\
  forall i p, threads w !! i = Some p ->
    match p with
    | L69 c e | Done (Some (c, e)) => value_at cfg e = Ok c
    | _ => True
    end.

Lemma in_with_entry (m : method) : in_with (entry m) = false.
Proof. destruct m; reflexivity. Qed.

Lemma lock_inv_step (w w' : World) : lock_inv w -> step w w' -> lock_inv w'.
Proof.
  intros [Ha Hb] Hstep. destruct Hstep as [now i w' Hstep|m].
  - apply thread_step_shape in Hstep
      as (p & p' & extra & Hp & Hth & Hex & _ & Hmove & _).
    assert (Hextra : forall q, In q extra -> in_with q = false).
    { intros q Hq. destruct Hex as [-> | ->]; [destruct Hq|].
      destruct Hq as [<-|[]]. reflexivity. }
    split.
    + intros j q Hj Hq. rewrite Hth in Hj.
      destruct (lookup_after_step _ _ _ _ _ _ _ Hp Hj)
        as [[-> ->]|[[Hne Hold]|[_ Hin]]].
      * destruct Hmove as [(_ & _ & _ & H)|[(_ & H & _)|[H1 H2]]];
          [exact H|congruence|].
        rewrite H2. apply (Ha _ _ Hp). congruence.
      * pose proof (Ha _ _ Hold Hq) as Hl.
        destruct Hmove as [(_ & _ & H & _)|[(H & _ & _)|[_ H2]]];
          [congruence| |congruence].
        pose proof (Ha _ _ Hp H). congruence.
      * rewrite (Hextra _ Hin) in Hq. discriminate.
    + intros j Hl. rewrite Hth.
      destruct Hmove as [(_ & H1 & _ & H2)|[(_ & _ & H)|[H1 H2]]].
      * assert (j = i) as -> by congruence.
        exists p'. split; [eapply lookup_step_same; exact Hp|exact H1].
      * congruence.
      * rewrite H2 in Hl. destruct (Hb _ Hl) as (q & Hq & Hin).
        destruct (Nat.eq_dec j i) as [->|Hne].
        -- exists p'. split; [eapply lookup_step_same; exact Hp|].
           congruence.
        -- exists q. split; [apply lookup_step_other; assumption|exact Hin].
  - split; cbn [threads self].
    + intros j q Hj Hq. apply lookup_app_Some in Hj as [Hj|[_ Hj]].
      * exact (Ha _ _ Hj Hq).
      * apply list_lookup_singleton_Some in Hj as [_ <-].
        rewrite in_with_entry in Hq. discriminate.
    + intros j Hl. destruct (Hb _ Hl) as (q & Hq & Hin).
      exists q. split; [|exact Hin].
      apply lookup_app_Some. left. exact Hq.
Qed.

Lemma lock_inv_reachable (cfg : IncomeConfig) (w : World) :
  reachable cfg w -> lock_inv w.
Proof.
  induction 1 as [now|w w' _ IH Hstep].
  - split; cbn.
    + intros i p Hp. rewrite lookup_nil in Hp. discriminate.
    + intros i Hl. discriminate.
  - eapply lock_inv_step; eassumption.
Qed.

Lemma pairs_inv_reachable (cfg : IncomeConfig) (w : World) :
  reachable cfg w -> pairs_inv cfg w.
Proof.
  induction 1 as [now|w w' _ [Hcfg IH] Hstep].
  - split; [reflexivity|]. cbn. intros i p Hp.
    rewrite lookup_nil in Hp. discriminate.
  - destruct Hstep as [now i w' Hstep|m].
    + apply thread_step_shape in Hstep
        as (p & p' & extra & Hp & Hth & Hex & Hc & _ & Horigin).
      split; [congruence|]. intros j q Hj. rewrite Hth in Hj.
      destruct (lookup_after_step _ _ _ _ _ _ _ Hp Hj)
        as [[-> ->]|[[Hne Hold]|[_ Hin]]].
      * rewrite Hcfg in Horigin. unfold pair_origin in Horigin.
        destruct p' as [| | | | | | | | | | | | | | |c e| | | | | |ret|];
          try exact I; [exact Horigin|].
        destruct ret as [[c e]|]; [|exact I].
        subst p. exact (IH _ _ Hp).
      * exact (IH _ _ Hold).
      * destruct Hex as [-> | ->]; [destruct Hin|].
        destruct Hin as [<-|[]]. exact I.
    + split; [exact Hcfg|]. cbn [threads]. intros j q Hj.
      apply lookup_app_Some in Hj as [Hj|[_ Hj]]; [exact (IH _ _ Hj)|].
      apply list_lookup_singleton_Some in Hj as [_ <-].
      destruct m; exact I.
Qed.

(** A schedule: which thread moves (and what the clock shows), or which
    method is called, at each step. *)
Inductive event : Type :=
| Step (now : float) (i : nat)
| Call (m : method).

Fixpoint exec (evs : list event) (w : World) : option World :=
  match evs with
  | [] => Some w
  | Step now i :: rest => w' ← thread_step now w i; exec rest w'
  | Call m :: rest => exec rest (mkWorld (self w) (threads w ++ [entry m]))
  end.

Lemma exec_reachable (cfg : IncomeConfig) (evs : list event) :
  forall w w', reachable cfg w -> exec evs w = Some w' -> reachable cfg w'.
Proof.
  induction evs as [|[now i|m] rest IH]; intros w w' Hw Hexec; cbn in Hexec.
  - congruence.
  - destruct (thread_step now w i) as [w1|] eqn:Hstep; [|discriminate].
    apply (IH w1); [|exact Hexec].
    eapply reach_step; [exact Hw|]. eapply step_thread. exact Hstep.
  - eapply IH; [|exact Hexec].
    eapply reach_step; [exact Hw|]. apply step_call.
Qed.

(** * Snapshots are never torn (claim C7) *)

(** C7.  In every world an interleaving of method calls and worker steps
    reaches, a pair [(value, elapsed)] that a call of [get_current] has
    returned is the rate times exactly that elapsed time, and two
    different threads are never both inside a [with self._lock:] block:
    a call of [get_current] between its lines 67 and 69 excludes the
    worker's write of line 57 and the writes of [reset]. *)
Theorem get_current_never_torn (cfg : IncomeConfig) (w : World) :
  reachable cfg w ->
  (forall i value elapsed,
     threads w !! i = Some (Done (Some (value, elapsed))) ->
     exists rate, per_second cfg = Ok rate /\
                  mul (Decimal_of_str elapsed) rate = Ok value) /\
  (forall i j p q,
     threads w !! i = Some p -> threads w !! j = Some q ->
     in_with p = true -> in_with q = true -> i = j).
Proof.
  intros Hw. split.
  - intros i value elapsed Hi.
    destruct (pairs_inv_reachable _ _ Hw) as [_ H].
    specialize (H _ _ Hi). cbn in H. unfold value_at in H.
    destruct (per_second cfg) as [rate|] eqn:Hrate; [|discriminate].
    exists rate. split; [reflexivity|exact H].
  - intros i j p q Hi Hj Hp Hq.
    destruct (lock_inv_reachable _ _ Hw) as [Ha _].
    pose proof (Ha _ _ Hi Hp) as H1. pose proof (Ha _ _ Hj Hq) as H2.
    congruence.
Qed.

(** A worker is started and is inside a tick when a snapshot is asked
    for; the worker publishes first, the snapshot is taken seven seconds
    later. *)
Definition schedule_snapshot : list event :=
  [Call Mstart; Step (of_Z 1000) 0; Step (of_Z 1000) 0; Step (of_Z 1000) 0;
   Step (of_Z 1000) 1; Step (of_Z 1003) 1;
   Call Mget_current; Step (of_Z 1003) 1; Step (of_Z 1003) 1;
   Step (of_Z 1003) 1; Step (of_Z 1010) 2; Step (of_Z 1010) 2;
   Step (of_Z 1010) 2; Step (of_Z 1010) 2].

Definition world_snapshot : World :=
  Eval vm_compute in
    match exec schedule_snapshot (mkWorld (__init__ cfg50k (of_Z 1000)) []) with
    | Some w => w
    | None => mkWorld (__init__ cfg50k (of_Z 1000)) []
    end.

Lemma get_current_never_torn_witness :
  reachable cfg50k world_snapshot /\
  exists rate, per_second cfg50k = Ok rate /\
               mul (Decimal_of_str (of_Z 10)) rate
               = Ok (Finite false 6900 (-5)).
Proof.
  assert (Hw : reachable cfg50k world_snapshot).
  { apply (exec_reachable cfg50k schedule_snapshot
             (mkWorld (__init__ cfg50k (of_Z 1000)) [])).
    - apply reach_init.
    - vm_compute. reflexivity. }
  split; [exact Hw|].
  apply (proj1 (get_current_never_torn cfg50k world_snapshot Hw) 2%nat).
  vm_compute. reflexivity.
Defined.

(** * Clock readings and the zero value *)

(** What [time.time()] returns: a number, not an infinity or a NaN. *)
Definition finite_float (x : float) : bool :=
  match x with
  | S754_zero _ | S754_finite _ _ _ => true
  | S754_infinity _ | S754_nan => false
  end.

Lemma fsub_diag (x : float) : finite_float x = true -> fsub x x = S754_zero false.
Proof.
  destruct x as [s|s| |s m e]; intros H; try discriminate.
  - destruct s; reflexivity.
  - unfold fsub, SFsub. rewrite Z.sub_diag. reflexivity.
Qed.

Lemma mul_zero_l (s sr : bool) (cr : N) (e er : Z) :
  exists v, mul (Finite s 0 e) (Finite sr cr er) = Ok v /\ is_zero v = true.
Proof.
  eexists. split; [cbn; reflexivity|reflexivity].
Qed.

Lemma config_reachable (cfg : IncomeConfig) (w : World) :
  reachable cfg w -> config (self w) = cfg.
Proof. intros Hw. exact (proj1 (pairs_inv_reachable _ _ Hw)). Qed.

(** A worker runs; [reset] is called and has written [start_time], and a
    call of [get_current] waits for the lock. *)
Definition schedule_reset : list event :=
  [Call Mstart; Step (of_Z 1000) 0; Step (of_Z 1000) 0; Step (of_Z 1000) 0;
   Step (of_Z 1000) 1; Call Mreset; Call Mget_current;
   Step (of_Z 1004) 2; Step (of_Z 1005) 2].

Definition world_reset : World :=
  Eval vm_compute in
    match exec schedule_reset (mkWorld (__init__ cfg50k (of_Z 1000)) []) with
    | Some w => w
    | None => mkWorld (__init__ cfg50k (of_Z 1000)) []
    end.


(** * The saved configuration and its defaults (claim C9) *)

(** A numeric field of the saved dictionary is absent or holds a JSON
    number. *)
Definition numeric (saved : gmap string json) (key : string) : Prop :=
  match saved !! key with
  | None | Some (JInt _) | Some (JFloat _) => True
  | Some _ => False
  end.

(** The amount built from a numeric field: the default when the field is
    absent, the integer itself, or the decimal [str] prints for the
    float. *)
Definition amount_of (saved : gmap string json) (key : string)
    (dflt : Z) (d : Decimal) : Prop :=
  (saved !! key = None -> d = Finite false (Z.to_N dflt) 0) /\
  (forall z, saved !! key = Some (JInt z) -> d = Finite (z <? 0) (Z.abs_N z) 0) /\
  (forall f, saved !! key = Some (JFloat f) -> d = Decimal_of_str f).

Lemma Decimal_of_json_numeric (D : string -> result Decimal)
    (saved : gmap string json) (key : string) (dflt : Z) :
  0 <= dflt -> numeric saved key ->
  exists d, Decimal_of_json D (get saved key (JInt dflt)) = Ok d /\
            amount_of saved key dflt d.
Proof.
  intros Hd Hnum. unfold numeric in Hnum. unfold get, amount_of.
  destruct (saved !! key) as [[| |z|f| | |]|]; try contradiction; cbn.
  - eexists. split; [reflexivity|].
    split; [discriminate|]. split; [|discriminate].
    intros z' [= <-]. reflexivity.
  - eexists. split; [reflexivity|].
    split; [discriminate|]. split; [discriminate|].
    intros f' [= <-]. reflexivity.
  - eexists. split; [reflexivity|].
    split; [|split; discriminate].
    intros _. unfold of_int. destruct dflt; try lia; reflexivity.
Qed.

(** C9.  When each of the fields [salary], [side] and [passive] of the
    saved dictionary is absent or a JSON number, [get_default_config]
    returns a configuration in which an absent [salary] is [50000], an
    absent [side] or [passive] is [0] and an absent [currency] is ["$"];
    a present number is the amount (as [Decimal(str(v))] reads it), a
    present currency is carried as it is; hours and days are the
    defaults of the class. *)
Theorem get_default_config_defaults (D : string -> result Decimal)
    (file : option (gmap string json)) :
  let saved := load_config file in
  numeric saved "salary" -> numeric saved "side" -> numeric saved "passive" ->
  exists cfg,
    get_default_config D file = Ok cfg /\
    amount_of saved "salary" 50000 (annual_salary cfg) /\
    amount_of saved "side" 0 (side_income cfg) /\
    amount_of saved "passive" 0 (passive_income cfg) /\
    (saved !! "currency" = None -> currency cfg = JStr "$") /\
    (forall v, saved !! "currency" = Some v -> currency cfg = v) /\
    work_hours_per_day cfg = Finite false 8 0 /\
    work_days_per_year cfg = Finite false 250 0.
Proof.
  intros saved Hs Hsi Hp.
  destruct (Decimal_of_json_numeric D saved "salary" 50000 ltac:(lia) Hs)
    as (ds & Hds & Has).
  destruct (Decimal_of_json_numeric D saved "side" 0 ltac:(lia) Hsi)
    as (dsi & Hdsi & Hasi).
  destruct (Decimal_of_json_numeric D saved "passive" 0 ltac:(lia) Hp)
    as (dp & Hdp & Hap).
  exists (mkIncomeConfig ds (get saved "currency" dollar) default_hours
            default_days dsi dp).
  split.
  - unfold get_default_config. fold saved. rewrite Hds.
    cbn [mbind result_bind]. rewrite Hdsi. cbn [mbind result_bind].
    rewrite Hdp. reflexivity.
  - cbn [annual_salary side_income passive_income currency
         work_hours_per_day work_days_per_year].
    repeat split; try assumption; try apply Has; try apply Hasi;
      try apply Hap.
    + intros Hc. unfold get. rewrite Hc. reflexivity.
    + intros v Hc. unfold get. rewrite Hc. reflexivity.
Qed.

(** A file that holds a salary and a currency only; strings are not
    parsed here. *)
Definition file_salary_currency : option (gmap string json) :=
  Some (<["salary" := JInt 75000]> (<["currency" := JStr "EUR"]> ∅)).

Definition no_parse : string -> result Decimal :=
  fun _ => Raise InvalidOperation.

Lemma get_default_config_defaults_witness :
  exists cfg,
    get_default_config no_parse file_salary_currency = Ok cfg /\
    annual_salary cfg = Finite false 75000 0 /\
    currency cfg = JStr "EUR" /\
    side_income cfg = Finite false 0 0 /\
    passive_income cfg = Finite false 0 0.
Proof.
  destruct (get_default_config_defaults no_parse file_salary_currency)
    as (cfg & Hcfg & Hsalary & Hside & Hpassive & _ & Hcurrency & _);
    [vm_compute; exact I..|].
  exists cfg. split; [exact Hcfg|].
  split; [apply (proj1 (proj2 Hsalary) 75000); vm_compute; reflexivity|].
  split; [apply Hcurrency; vm_compute; reflexivity|].
  split; [apply (proj1 Hside)|apply (proj1 Hpassive)]; vm_compute; reflexivity.
Defined.

(** * The per-hour figure of the summary (claim C6) *)

(** C6: the code has no guard.  When the clock still shows the start
    time, the value is a zero and [_show_summary] divides it by [0.0]:
    [InvalidOperation] is raised, whatever the (finite) rate. *)
Theorem _show_summary_zero_elapsed (t : IncomeTracker) (now : float)
    (sr : bool) (cr : N) (er : Z) :
  finite_float now = true ->
  start_time t = now ->
  per_second (config t) = Ok (Finite sr cr er) ->
  (exists v, get_current t now = Ok (v, S754_zero false) /\
             is_zero v = true) /\
  _show_summary (Some t) now = Raise InvalidOperation.
Proof.
  intros Hfin Hstart Hrate.
  destruct (mul_zero_l false sr cr (-1) er) as (v & Hv & Hz).
  assert (Hget : get_current t now = Ok (v, S754_zero false)).
  { unfold get_current, value_at. rewrite Hstart, (fsub_diag _ Hfin), Hrate.
    change (Decimal_of_str (S754_zero false)) with (Finite false 0 (-1)).
    cbn [mbind result_bind]. rewrite Hv. reflexivity. }
  split; [exists v; split; assumption|].
  unfold _show_summary. rewrite Hget. cbn [mbind result_bind].
  destruct v as [s c e| | |]; try discriminate.
  cbn [is_zero] in Hz. apply N.eqb_eq in Hz. subst c. reflexivity.
Qed.

(** The tracker of the first example, summarised at once. *)
Lemma _show_summary_zero_elapsed_witness :
  _show_summary (Some (__init__ cfg50k (of_Z 1000))) (of_Z 1000)
  = Raise InvalidOperation.
Proof.
  apply (_show_summary_zero_elapsed (__init__ cfg50k (of_Z 1000))
           (of_Z 1000) false 69 (-4)); reflexivity.
Defined.

(** * Further properties of the income model *)

(** ** What the operations raise *)

(** The exceptions arithmetic on amounts can raise when no divisor is
    zero. *)
Definition benign (e : exn) : Prop := e = InvalidOperation \/ e = Overflow.

Lemma _fix_raises (d : Decimal) (e : exn) : _fix d = Raise e -> e = Overflow.
Proof.
  unfold _fix. intros H.
  repeat case_match; try discriminate; congruence.
Qed.

Lemma _check_nans_cases (x y : Decimal) (r : result Decimal) :
  _check_nans x y = Some r ->
  r = Raise InvalidOperation \/ exists s p, r = Ok (NaN s p).
Proof.
  unfold _check_nans, _fix_nan. intros H.
  repeat case_match; try discriminate; injection H as <-; eauto.
Qed.

Lemma add_raises (x y : Decimal) (e : exn) : add x y = Raise e -> benign e.
Proof.
  unfold add, benign. intros H.
  destruct (_check_nans x y) as [r|] eqn:Hn.
  { destruct (_check_nans_cases _ _ _ Hn) as [->|(s & p & ->)];
      [left; congruence|discriminate]. }
  repeat case_match; try discriminate;
    try (apply _fix_raises in H; auto); left; congruence.
Qed.

Lemma mul_raises (x y : Decimal) (e : exn) : mul x y = Raise e -> benign e.
Proof.
  unfold mul, benign. intros H.
  destruct (_check_nans x y) as [r|] eqn:Hn.
  { destruct (_check_nans_cases _ _ _ Hn) as [->|(s & p & ->)];
      [left; congruence|discriminate]. }
  repeat case_match; try discriminate;
    try (apply _fix_raises in H; auto); left; congruence.
Qed.

Lemma truediv_raises (x y : Decimal) (e : exn) :
  truediv x y = Raise e -> benign e \/ (e = DivisionByZero /\ is_zero y = true).
Proof.
  unfold truediv, benign. intros H.
  destruct (_check_nans x y) as [r|] eqn:Hn.
  { destruct (_check_nans_cases _ _ _ Hn) as [->|(s & p & ->)];
      [left; left; congruence|discriminate]. }
  destruct x as [s1 c1 e1|s1|s1 p1|s1 p1], y as [s2 c2 e2|s2|s2 p2|s2 p2];
    try discriminate; try (left; left; congruence).
  cbn [is_zero].
  destruct (c2 =? 0)%N eqn:Hc2.
  - destruct (c1 =? 0)%N; injection H as <-; auto.
  - left. repeat case_match; apply _fix_raises in H; auto.
Qed.

Lemma _rescale_exp (s : bool) (c : N) (e exp : Z) (r : rounding) :
  exists c', _rescale (Finite s c e) exp r = Finite s c' exp.
Proof.
  unfold _rescale, mk. repeat case_match; eauto.
Qed.

Lemma ndigits_bound (c : N) : ndigits c <= 28 -> Z.of_N c < 10 ^ 28.
Proof.
  intros H. destruct (N.eq_dec c 0%N) as [-> | Hc]; [reflexivity|].
  destruct (ndigits_spec c Hc) as (H1 & _ & Hhi).
  pose proof (pow10_le (ndigits c) 28 ltac:(lia)). lia.
Qed.

(** What [quantize] to four places gives. *)
Definition rate_like (res : result Decimal) : Prop :=
  match res with
  | Ok (Finite s c e) => e = -4 /\ Z.of_N c < 10 ^ 28
  | Ok (NaN _ _) => True
  | Ok (Infinity _) | Ok (sNaN _ _) => False
  | Raise e => benign e
  end.

Lemma quantize_cases (x : Decimal) (sq : bool) (cq : N) (r : rounding) :
  rate_like (quantize x (Finite sq cq (-4)) r).
Proof.
  unfold quantize.
  destruct (_check_nans x (Finite sq cq (-4))) as [res|] eqn:Hn.
  { destruct (_check_nans_cases _ _ _ Hn) as [->|(s & p & ->)];
      cbn; [left; reflexivity|exact I]. }
  destruct x as [s c e|s|s p|s p]; try discriminate.
  - destruct (negb _); [left; reflexivity|].
    destruct (c =? 0)%N.
    { rewrite _fix_exact; [cbn; split; [reflexivity|lia]|reflexivity|].
      unfold Etiny, Etop, Emin, Emax, prec. lia. }
    destruct (Emax <? adjusted c e); [left; reflexivity|].
    destruct (prec <? adjusted c e - -4 + 1); [left; reflexivity|].
    destruct (_rescale_exp s c e (-4) r) as [c' ->].
    destruct (Emax <? adjusted c' (-4)); [left; reflexivity|].
    destruct (Z.ltb_spec prec (ndigits c')) as [|Hd]; [left; reflexivity|].
    pose proof (ndigits_bound c' Hd) as Hc'.
    rewrite _fix_exact; [cbn; split; [reflexivity|assumption]|assumption|].
    unfold Etiny, Etop, Emin, Emax, prec. lia.
  - cbn. left. reflexivity.
Qed.

(** The results of [per_second], case by case. *)
Lemma per_second_cases (cfg : IncomeConfig) :
  match per_second cfg with
  | Ok (Finite s c e) =>
      (e = -4 /\ Z.of_N c < 10 ^ 28) \/ (s = false /\ c = 0%N /\ e = 0)
  | Ok (NaN _ _) => True
  | Ok (Infinity _) | Ok (sNaN _ _) => False
  | Raise e => e = InvalidOperation \/ e = Overflow
  end.
Proof.
  unfold per_second.
  destruct (total_seconds cfg) as [ts|e] eqn:Hts; cbn [mbind result_bind].
  2:{ unfold total_seconds in Hts.
      destruct (mul (work_hours_per_day cfg) (Finite false 3600 0)) as [h|e']
        eqn:Hh; cbn [mbind result_bind] in Hts.
      - exact (mul_raises _ _ _ Hts).
      - injection Hts as <-. exact (mul_raises _ _ _ Hh). }
  destruct (eq_zero ts) as [z|e] eqn:Hz; cbn [mbind result_bind].
  2:{ destruct ts; cbn in Hz; try discriminate. injection Hz as <-. auto. }
  destruct z; [right; auto|].
  destruct (total_annual cfg) as [t|e] eqn:Ht; cbn [mbind result_bind].
  2:{ unfold total_annual in Ht.
      destruct (add (annual_salary cfg) (side_income cfg)) as [a|e']
        eqn:Ha; cbn [mbind result_bind] in Ht.
      - exact (add_raises _ _ _ Ht).
      - injection Ht as <-. exact (add_raises _ _ _ Ha). }
  destruct (truediv t ts) as [q|e] eqn:Hq; cbn [mbind result_bind].
  2:{ destruct (truediv_raises _ _ _ Hq) as [H|[_ Hzero]]; [exact H|].
      destruct ts; cbn in Hz, Hzero; congruence. }
  pose proof (quantize_cases q false 1 ROUND_HALF_UP) as H.
  unfold rate_like in H.
  destruct (quantize q (Finite false 1 (-4)) ROUND_HALF_UP) as [[s c e| | |]|e];
    auto.
Qed.

(** X1.  Whatever the configuration, [per_second] raises nothing but
    [InvalidOperation] or [Overflow] (the guard keeps [DivisionByZero]
    away), never returns an infinity or a signalling NaN, and a finite
    rate is the [Decimal("0")] of the guard or has exactly four
    fractional digits and at most 28 digits in all. *)
Theorem per_second_results (cfg : IncomeConfig) :
  match per_second cfg with
  | Ok (Finite s c e) =>
      (e = -4 /\ Z.of_N c < 10 ^ 28) \/ (s = false /\ c = 0%N /\ e = 0)
  | Ok (NaN _ _) => True
  | Ok (Infinity _) | Ok (sNaN _ _) => False
  | Raise e => e = InvalidOperation \/ e = Overflow
  end.
Proof. exact (per_second_cases cfg). Qed.

(** ** The statistics panel *)

(** [_fix] does not overflow when the digits lie well below [Emax]; the
    coefficient it returns has at most 28 digits. *)
Lemma _fix_ok (s : bool) (c : N) (e D : Z) :
  Z.of_N c < 10 ^ D -> 0 <= D -> Etiny <= e -> e + D <= Etop ->
  exists c' e',
    _fix (Finite s c e) = Ok (Finite s c' e') /\
    Z.of_N c' < 10 ^ 28 /\ e <= e' <= e + D.
Proof.
  intros Hc HD Hlo Hhi. unfold _fix.
  destruct (N.eqb_spec c 0) as [-> | Hnz].
  { exists 0%N, e. split; [|split; [reflexivity|lia]].
    do 2 f_equal. unfold Etiny, Etop, Emin, Emax, prec in *. lia. }
  pose proof (ndigits_le c D HD Hc Hnz) as Hd.
  destruct (ndigits_spec c Hnz) as (Hd1 & Hdlo & Hdhi).
  set (d := ndigits c) in *.
  unfold Etiny, Etop, Emin, Emax, prec in *.
  destruct (Z.ltb_spec (999999 - 28 + 1) (d + e - 28)); [lia|].
  destruct (Z.ltb_spec e (Z.max (d + e - 28) (-999999 - 28 + 1))) as [Hlt|Hge].
  2:{ exists c, e. split; [reflexivity|]. split; [|lia].
      pose proof (pow10_le d 28 ltac:(lia)). lia. }
  assert (Hm : Z.max (d + e - 28) (-999999 - 28 + 1) = d + e - 28) by lia.
  rewrite Hm. clear Hm.
  replace (d + e - (d + e - 28)) with 28 by lia.
  replace (d + e - 28 - e) with (d - 28) by lia.
  change (28 <? 0) with false. cbv beta iota.
  set (k := d - 28) in *.
  pose proof (round_half_even_bounds (Z.of_N c) k ltac:(lia) ltac:(lia))
    as [Hv1 Hv2].
  cbv zeta in Hv1, Hv2.
  set (v := round_digits ROUND_HALF_EVEN (Z.of_N c) k) in *.
  pose proof (pow10_pos k ltac:(lia)) as Hpk.
  assert (Hsplit : 10 ^ d = 10 ^ 28 * 10 ^ k).
  { replace d with (28 + k) by lia. apply pow10_split; lia. }
  assert (Hv0 : 0 <= v).
  { pose proof (Z.div_pos (Z.of_N c) (10 ^ k) ltac:(lia) Hpk). lia. }
  assert (Hv28 : v <= 10 ^ 28).
  { apply (le_of_mul (2 * 10 ^ k) v (10 ^ 28) (10 ^ k)); nia. }
  destruct (Z.ltb_spec 28 (ndigits (Z.to_N v))) as [Hbig|Hsmall].
  - destruct (Z.ltb_spec (999999 - 28 + 1) (d + e - 28 + 1)); [lia|].
    exists (Z.to_N (v / 10)), (d + e - 28 + 1).
    split; [reflexivity|]. split; [|lia].
    pose proof (Z.div_pos v 10 Hv0 ltac:(lia)).
    rewrite Z2N.id by assumption.
    assert (v / 10 <= 10 ^ 28 / 10) by (apply Z.div_le_mono; lia).
    change (10 ^ 28 / 10) with (10 ^ 27) in *.
    pose proof (pow10_lt 27 28 ltac:(lia)). lia.
  - destruct (Z.ltb_spec (999999 - 28 + 1) (d + e - 28)); [lia|].
    exists (Z.to_N v), (d + e - 28).
    split; [reflexivity|]. split; [|lia].
    apply ndigits_bound. exact Hsmall.
Qed.

Lemma mul_finite_ok (s1 s2 : bool) (c1 c2 : N) (e1 e2 D : Z) :
  Z.of_N c1 * Z.of_N c2 < 10 ^ D -> 0 <= D ->
  Etiny <= e1 + e2 -> e1 + e2 + D <= Etop ->
  exists c' e',
    mul (Finite s1 c1 e1) (Finite s2 c2 e2) = Ok (Finite (xorb s1 s2) c' e') /\
    Z.of_N c' < 10 ^ 28 /\ e1 + e2 <= e' <= e1 + e2 + D.
Proof.
  intros Hc HD Hlo Hhi. cbn [mul _check_nans sign_of].
  apply _fix_ok; [lia|assumption..].
Qed.

Lemma mul_nan_l (s sy : bool) (p cy : N) (ey : Z) :
  exists s' p', mul (NaN s p) (Finite sy cy ey) = Ok (NaN s' p').
Proof. cbn. unfold _fix_nan. eauto. Qed.

(** X2.  Once the rate is there, the figures of the statistics panel
    are computed without a fault. *)
Theorem _create_stats_panel_returns (cfg : IncomeConfig) (rate : Decimal) :
  per_second cfg = Ok rate ->
  exists per_min per_hour per_day,
    _create_stats_panel cfg = Ok (rate, per_min, per_hour, per_day).
Proof.
  intros Hrate. unfold _create_stats_panel.
  pose proof (per_second_cases cfg) as Hcases. rewrite Hrate in Hcases.
  rewrite Hrate. cbn [mbind result_bind].
  change (of_int 60) with (Finite false 60 0).
  change (of_int 3600) with (Finite false 3600 0).
  change (of_int 8) with (Finite false 8 0).
  destruct rate as [s c e|s|s p|s p]; try contradiction.
  - assert (Hb : Z.of_N c < 10 ^ 28 /\ -4 <= e <= 0).
    { destruct Hcases as [[-> Hc]|(_ & -> & ->)]; [lia|].
      split; [reflexivity|lia]. }
    destruct Hb as [Hc He].
    assert (H28 : 10 ^ 32 = 10 ^ 28 * 10000) by reflexivity.
    destruct (mul_finite_ok s false c 60 e 0 32) as (cm & em & -> & _ & _);
      [cbn [Z.of_N]; lia|lia|unfold Etiny, Emin, prec; lia
      |unfold Etop, Emax, prec; lia|].
    destruct (mul_finite_ok s false c 3600 e 0 32) as (ch & eh & -> & Hch & Heh);
      [cbn [Z.of_N]; lia|lia|unfold Etiny, Emin, prec; lia
      |unfold Etop, Emax, prec; lia|].
    cbn [mbind result_bind].
    destruct (mul_finite_ok (xorb s false) false ch 8 eh 0 32)
      as (cd & ed & -> & _ & _);
      [cbn [Z.of_N]; lia|lia|unfold Etiny, Emin, prec; lia
      |unfold Etop, Emax, prec; lia|].
    cbn [mbind result_bind]. eauto.
  - destruct (mul_nan_l s false p 60 0) as (s1 & p1 & ->).
    destruct (mul_nan_l s false p 3600 0) as (s2 & p2 & ->).
    cbn [mbind result_bind].
    destruct (mul_nan_l s2 false p2 8 0) as (s3 & p3 & ->).
    cbn [mbind result_bind]. eauto.
Qed.

Lemma _create_stats_panel_returns_witness :
  exists per_min per_hour per_day,
    _create_stats_panel cfg50k
    = Ok (Finite false 69 (-4), per_min, per_hour, per_day).
Proof.
  apply (_create_stats_panel_returns cfg50k (Finite false 69 (-4))).
  reflexivity.
Defined.

(** X3.  A rate below [10 ^ 28 / 28800] units of [0.0001] is shown with
    its exact multiples: 60 times for the minute, 3600 times for the
    hour and 8 hours for the work day, whatever the hours of the
    configuration are. *)
Theorem _create_stats_panel_exact (cfg : IncomeConfig) (s : bool) (c : N) :
  per_second cfg = Ok (Finite s c (-4)) ->
  Z.of_N c * 28800 < 10 ^ 28 ->
  _create_stats_panel cfg
  = Ok (Finite s c (-4), Finite s (c * 60) (-4), Finite s (c * 3600) (-4),
        Finite s (c * 3600 * 8) (-4)).
Proof.
  intros Hrate Hc. unfold _create_stats_panel. rewrite Hrate.
  cbn [mbind result_bind].
  change (of_int 60) with (Finite false 60 0).
  change (of_int 3600) with (Finite false 3600 0).
  change (of_int 8) with (Finite false 8 0).
  assert (He : Etiny <= -4 + 0 <= Etop)
    by (unfold Etiny, Etop, Emin, Emax, prec; lia).
  rewrite (mul_exact s false c 60 (-4) 0) by (cbn [Z.of_N]; lia).
  rewrite (mul_exact s false c 3600 (-4) 0) by (cbn [Z.of_N]; lia).
  cbn [mbind result_bind]. rewrite xorb_false_r.
  replace (-4 + 0) with (-4) by lia.
  rewrite (mul_exact s false (c * 3600) 8 (-4) 0)
    by (rewrite ?N2Z.inj_mul; cbn [Z.of_N]; lia).
  cbn [mbind result_bind]. rewrite xorb_false_r. reflexivity.
Qed.

Lemma _create_stats_panel_exact_witness :
  _create_stats_panel cfg50k
  = Ok (Finite false 69 (-4), Finite false 4140 (-4),
        Finite false 248400 (-4), Finite false 1987200 (-4)).
Proof.
  apply (_create_stats_panel_exact cfg50k false 69); reflexivity.
Defined.

(** ** The breakdown panel *)

Lemma gt_zero_raises (x : Decimal) (e : exn) :
  gt_zero x = Raise e -> e = InvalidOperation.
Proof. destruct x; cbn; congruence. Qed.

Lemma gt_zero_not_zero (x : Decimal) : gt_zero x = Ok true -> is_zero x = false.
Proof.
  destruct x as [s c e|s|s p|s p]; cbn; try reflexivity.
  intros [= H]. apply andb_true_iff in H as [_ H].
  apply negb_true_iff in H. exact H.
Qed.

Lemma total_annual_raises (cfg : IncomeConfig) (e : exn) :
  total_annual cfg = Raise e -> benign e.
Proof.
  unfold total_annual. intros Ht.
  destruct (add (annual_salary cfg) (side_income cfg)) as [a|e'] eqn:Ha;
    cbn [mbind result_bind] in Ht.
  - exact (add_raises _ _ _ Ht).
  - injection Ht as <-. exact (add_raises _ _ _ Ha).
Qed.

Lemma breakdown_row_raises (cfg : IncomeConfig) (src : source)
    (amount : Decimal) (e : exn) :
  breakdown_row cfg src amount = Raise e -> benign e.
Proof.
  unfold breakdown_row. intros H.
  destruct (gt_zero amount) as [[|]|e1] eqn:Hshown;
    cbn [mbind result_bind] in H; try discriminate.
  2:{ injection H as <-. left. exact (gt_zero_raises _ _ Hshown). }
  destruct (total_annual cfg) as [t|e1] eqn:Ht; cbn [mbind result_bind] in H.
  2:{ injection H as <-. exact (total_annual_raises _ _ Ht). }
  destruct (gt_zero t) as [[|]|e1] eqn:Hpos; cbn [mbind result_bind] in H;
    try discriminate.
  2:{ injection H as <-. left. exact (gt_zero_raises _ _ Hpos). }
  destruct (truediv amount t) as [q|e1] eqn:Hq; cbn [mbind result_bind] in H.
  2:{ injection H as <-.
      destruct (truediv_raises _ _ _ Hq) as [Hb|[_ Hz]]; [exact Hb|].
      rewrite (gt_zero_not_zero _ Hpos) in Hz. discriminate. }
  destruct (mul q (of_int 100)) as [p|e1] eqn:Hp; cbn [mbind result_bind] in H;
    [discriminate|].
  injection H as <-. exact (mul_raises _ _ _ Hp).
Qed.

(** X4.  The breakdown panel never divides by zero: whatever the
    configuration, nothing but [InvalidOperation] or [Overflow] leaves
    [_create_breakdown_panel]. *)
Theorem _create_breakdown_panel_raises (cfg : IncomeConfig) (e : exn) :
  _create_breakdown_panel cfg = Raise e ->
  e = InvalidOperation \/ e = Overflow.
Proof.
  unfold _create_breakdown_panel. intros H.
  pose proof (per_second_cases cfg) as Hrate.
  destruct (per_second cfg) as [rate|e1]; cbn [mbind result_bind] in H.
  2:{ injection H as <-. exact Hrate. }
  destruct (breakdown_row cfg Salary (annual_salary cfg)) as [r1|e1] eqn:H1;
    cbn [mbind result_bind] in H.
  2:{ injection H as <-. exact (breakdown_row_raises _ _ _ _ H1). }
  destruct (breakdown_row cfg SideIncome (side_income cfg)) as [r2|e1] eqn:H2;
    cbn [mbind result_bind] in H.
  2:{ injection H as <-. exact (breakdown_row_raises _ _ _ _ H2). }
  destruct (breakdown_row cfg Passive (passive_income cfg)) as [r3|e1] eqn:H3;
    cbn [mbind result_bind] in H.
  2:{ injection H as <-. exact (breakdown_row_raises _ _ _ _ H3). }
  destruct (total_annual cfg) as [t|e1] eqn:Ht; cbn [mbind result_bind] in H;
    [discriminate|].
  injection H as <-. exact (total_annual_raises _ _ Ht).
Qed.

(** A salary of NaN: the comparison with 0 raises. *)
Lemma _create_breakdown_panel_raises_witness :
  _create_breakdown_panel (config_of_salary (NaN false 0))
  = Raise InvalidOperation /\
  (InvalidOperation = InvalidOperation \/ InvalidOperation = Overflow).
Proof.
  split; [vm_compute; reflexivity|].
  apply (_create_breakdown_panel_raises (config_of_salary (NaN false 0))).
  vm_compute. reflexivity.
Defined.

(** The amount of a source. *)
Definition component (cfg : IncomeConfig) (src : source) : Decimal :=
  match src with
  | Salary => annual_salary cfg
  | SideIncome => side_income cfg
  | Passive => passive_income cfg
  end.

(** What a row shows, given the total. *)
Definition row_ok (cfg : IncomeConfig) (total : Decimal) (r : row) : Prop :=
  row_annual r = component cfg (row_source r) /\
  gt_zero (row_annual r) = Ok true /\
  match row_pct r with
  | ShareInt z => z = 0 /\ gt_zero total = Ok false
  | ShareDecimal p =>
      gt_zero total = Ok true /\
      exists q, truediv (row_annual r) total = Ok q /\
                mul q (Finite false 100 0) = Ok p
  end.

Lemma breakdown_row_ok (cfg : IncomeConfig) (src : source) (rows : list row) :
  breakdown_row cfg src (component cfg src) = Ok rows ->
  (gt_zero (component cfg src) = Ok false /\ rows = []) \/
  (gt_zero (component cfg src) = Ok true /\
   exists total r, total_annual cfg = Ok total /\ rows = [r] /\
                   row_source r = src /\ row_ok cfg total r).
Proof.
  unfold breakdown_row. intros H.
  destruct (gt_zero (component cfg src)) as [[|]|e1] eqn:Hshown;
    cbn [mbind result_bind] in H; try discriminate.
  2:{ left. injection H as <-. auto. }
  right. split; [reflexivity|].
  destruct (total_annual cfg) as [t|e1] eqn:Ht; cbn [mbind result_bind] in H;
    [|discriminate].
  exists t.
  destruct (gt_zero t) as [[|]|e1] eqn:Hpos; cbn [mbind result_bind] in H;
    try discriminate.
  - destruct (truediv (component cfg src) t) as [q|e1] eqn:Hq;
      cbn [mbind result_bind] in H; [|discriminate].
    destruct (mul q (of_int 100)) as [p|e1] eqn:Hp;
      cbn [mbind result_bind] in H; [|discriminate].
    injection H as <-. eexists. split; [reflexivity|]. split; [reflexivity|].
    split; [reflexivity|]. unfold row_ok. cbn [row_annual row_source row_pct].
    repeat split; try assumption. exists q. split; assumption.
  - injection H as <-. eexists. split; [reflexivity|]. split; [reflexivity|].
    split; [reflexivity|]. unfold row_ok. cbn [row_annual row_source row_pct].
    repeat split; assumption.
Qed.

(** X5.  When the breakdown panel is built, its last row holds the total
    and the rate; a source has a row exactly when its amount is greater
    than zero, the rows come in the order salary, side income, passive
    income, and a row shows its amount with the share [amount / total *
    100], or the integer [0] when the total is not greater than zero. *)
Theorem _create_breakdown_panel_rows (cfg : IncomeConfig) (rows : list row)
    (total rate : Decimal) :
  _create_breakdown_panel cfg = Ok (rows, total, rate) ->
  total_annual cfg = Ok total /\ per_second cfg = Ok rate /\
  map row_source rows
  = List.filter (fun src => match gt_zero (component cfg src) with
                            | Ok true => true
                            | _ => false
                            end) [Salary; SideIncome; Passive] /\
  Forall (row_ok cfg total) rows.
Proof.
  unfold _create_breakdown_panel. intros H.
  destruct (per_second cfg) as [r|e1]; cbn [mbind result_bind] in H;
    [|discriminate].
  destruct (breakdown_row cfg Salary (annual_salary cfg)) as [r1|e1] eqn:H1;
    cbn [mbind result_bind] in H; [|discriminate].
  destruct (breakdown_row cfg SideIncome (side_income cfg)) as [r2|e1] eqn:H2;
    cbn [mbind result_bind] in H; [|discriminate].
  destruct (breakdown_row cfg Passive (passive_income cfg)) as [r3|e1] eqn:H3;
    cbn [mbind result_bind] in H; [|discriminate].
  destruct (total_annual cfg) as [t|e1] eqn:Ht; cbn [mbind result_bind] in H;
    [|discriminate].
  injection H as <- <- <-.
  split; [reflexivity|]. split; [reflexivity|].
  apply (breakdown_row_ok cfg Salary) in H1.
  apply (breakdown_row_ok cfg SideIncome) in H2.
  apply (breakdown_row_ok cfg Passive) in H3.
  rewrite Ht in H1, H2, H3.
  cbn [List.filter].
  destruct H1 as [[-> ->]|(-> & t1 & x1 & [= <-] & -> & Hs1 & Hx1)];
  destruct H2 as [[-> ->]|(-> & t2 & x2 & [= <-] & -> & Hs2 & Hx2)];
  destruct H3 as [[-> ->]|(-> & t3 & x3 & [= <-] & -> & Hs3 & Hx3)];
  cbn [app map]; rewrite ?Hs1, ?Hs2, ?Hs3;
  (split; [reflexivity|]);
  repeat (apply List.Forall_cons; [assumption|]); apply List.Forall_nil.
Qed.

(** The rows of the demo configuration: 85.7, 11.9 and 2.4 per cent. *)
Definition demo_rows : list row :=
  Eval vm_compute in
    match _create_breakdown_panel demo_config with
    | Ok (rows, _, _) => rows
    | Raise _ => []
    end.

Lemma _create_breakdown_panel_rows_witness :
  total_annual demo_config = Ok (Finite false 210000 0) /\
  per_second demo_config = Ok (Finite false 292 (-4)) /\
  map row_source demo_rows
  = List.filter (fun src => match gt_zero (component demo_config src) with
                            | Ok true => true
                            | _ => false
                            end) [Salary; SideIncome; Passive] /\
  Forall (row_ok demo_config (Finite false 210000 0)) demo_rows.
Proof.
  apply (_create_breakdown_panel_rows demo_config demo_rows
           (Finite false 210000 0) (Finite false 292 (-4))).
  vm_compute. reflexivity.
Defined.

(** * Further properties of the tracker *)

(** ** The lock *)

(** X6.  A worker that is calling the subscribers (line 58 to 62) does
    not hold the lock. *)
Theorem callbacks_outside_lock (cfg : IncomeConfig) (w : World) (i : nat)
    (elapsed : float) (k : nat) :
  reachable cfg w ->
  threads w !! i = Some (L58 elapsed k) ->
  _lock (self w) <> Some i.
Proof.
  intros Hw Hi Hl.
  destruct (lock_inv_reachable _ _ Hw) as [_ Hb].
  destruct (Hb _ Hl) as (p & Hp & Hin).
  rewrite Hi in Hp. injection Hp as <-. discriminate.
Qed.

(** One step of thread [i] in a world given by its parts. *)
Ltac step_at H :=
  cbn [mbind option_bind];
  lazymatch goal with
  | |- context [exec (Step ?n ?i :: ?rest) ?w] =>
      change (exec (Step n i :: rest) w) with (thread_step n w i ≫= exec rest)
  end;
  unfold thread_step; cbn [threads self];
  rewrite ?list_insert_insert_eq;
  rewrite ?list_lookup_insert_eq by (eapply lookup_lt_Some; exact H);
  rewrite ?H; cbn [mbind option_bind].

Ltac steps_done :=
  cbn [mbind option_bind exec self threads]; rewrite ?list_insert_insert_eq.

(** X7.  The lock is never held for long: the thread that holds it can
    take its next steps whatever the others do, and after at most three
    of them the lock is free, also when the computation inside the
    [with] block raises. *)
Theorem lock_released (cfg : IncomeConfig) (w : World) (i : nat) (now : float) :
  reachable cfg w ->
  _lock (self w) = Some i ->
  exists n w',
    (n <= 3)%nat /\
    exec (replicate n (Step now i)) w = Some w' /\
    _lock (self w') = None.
Proof.
  intros Hw Hl.
  destruct (lock_inv_reachable _ _ Hw) as [_ Hb].
  destruct (Hb _ Hl) as (p & Hp & Hin). clear Hb Hw.
  destruct w as [t l]. cbn [threads self] in *.
  destruct p; try discriminate Hin.
  - (* L57 *)
    destruct (value_at (config t) elapsed) as [a|e] eqn:Hv.
    + exists 2%nat. eexists. split; [lia|]. cbn [replicate].
      step_at Hp. rewrite Hv. step_at Hp. steps_done. split; reflexivity.
    + exists 1%nat. eexists. split; [lia|]. cbn [replicate].
      step_at Hp. rewrite Hv. steps_done. split; reflexivity.
  - (* L57x *)
    exists 1%nat. eexists. split; [lia|]. cbn [replicate].
    step_at Hp. steps_done. split; reflexivity.
  - (* L67 *)
    destruct (value_at (config t) (fsub now (start_time t))) as [a|e] eqn:Hv.
    + exists 3%nat. eexists. split; [lia|]. cbn [replicate].
      step_at Hp. step_at Hp. rewrite Hv. step_at Hp. steps_done. split; reflexivity.
    + exists 2%nat. eexists. split; [lia|]. cbn [replicate].
      step_at Hp. step_at Hp. rewrite Hv. steps_done. split; reflexivity.
  - (* L68 *)
    destruct (value_at (config t) elapsed) as [a|e] eqn:Hv.
    + exists 2%nat. eexists. split; [lia|]. cbn [replicate].
      step_at Hp. rewrite Hv. step_at Hp. steps_done. split; reflexivity.
    + exists 1%nat. eexists. split; [lia|]. cbn [replicate].
      step_at Hp. rewrite Hv. steps_done. split; reflexivity.
  - (* L69 *)
    exists 1%nat. eexists. split; [lia|]. cbn [replicate].
    step_at Hp. steps_done. split; reflexivity.
  - (* L76 *)
    exists 3%nat. eexists. split; [lia|]. cbn [replicate].
    step_at Hp. step_at Hp. step_at Hp. steps_done. split; reflexivity.
  - (* L77 *)
    exists 2%nat. eexists. split; [lia|]. cbn [replicate].
    step_at Hp. step_at Hp. steps_done. split; reflexivity.
  - (* L77x *)
    exists 1%nat. eexists. split; [lia|]. cbn [replicate].
    step_at Hp. steps_done. split; reflexivity.
Qed.

(** ** The published value *)

Lemma thread_step_accumulated (now : float) (w w' : World) (i : nat) :
  thread_step now w i = Some w' ->
  accumulated (self w') = accumulated (self w) \/
  accumulated (self w') = Finite false 0 0 \/
  exists e, value_at (config (self w)) e = Ok (accumulated (self w')).
Proof.
  unfold thread_step. destruct (threads w !! i) as [p|] eqn:Hp;
    cbn [mbind option_bind]; [|discriminate].
  intros Hstep.
  destruct p; cbn in Hstep;
    repeat match type of Hstep with
      | context [match ?x with _ => _ end] => destruct x eqn:?
      end;
    try discriminate; injection Hstep as <-; cbn; eauto.
Qed.

(** X8.  In every world an interleaving reaches, the published value is
    the zero of [__init__] and [reset] or the rate times some elapsed
    time: it is recomputed, never incremented, also when workers, resets
    and snapshots interleave. *)
Theorem accumulated_is_recomputed (cfg : IncomeConfig) (w : World) :
  reachable cfg w ->
  accumulated (self w) = Finite false 0 0 \/
  exists elapsed, value_at cfg elapsed = Ok (accumulated (self w)).
Proof.
  induction 1 as [now|w w' Hw IH Hstep]; [left; reflexivity|].
  destruct Hstep as [now i w' Hstep|m]; [|exact IH].
  pose proof (config_reachable _ _ Hw) as Hcfg.
  destruct (thread_step_accumulated _ _ _ _ Hstep) as [->|[->|[e He]]].
  - exact IH.
  - left. reflexivity.
  - right. exists e. rewrite <- Hcfg. exact He.
Qed.

(** ** After [stop] *)

(** How far a worker is in its iteration: from the reading of the clock
    (line 55) to the test of the flag (line 54), after which it is gone. *)
Definition phase (p : pc) : nat :=
  match p with
  | L55 => 0
  | L56 _ => 1
  | L57 _ => 2
  | L57x _ => 3
  | L58 _ _ => 4
  | L63 => 5
  | L54 => 6
  | _ => 7
  end.

(** The flag is down and no call of [start] is about to raise it. *)
Definition stopped (w : World) : Prop :=
  _running (self w) = false /\ forall j, threads w !! j <> Some L43.

(** A worker, or what is left of it. *)
Definition worker_or_gone (p : pc) : Prop :=
  is_worker p = true \/ p = Done None \/ p = Failed.

Lemma thread_step_stopped (now : float) (w w' : World) (i : nat) :
  thread_step now w i = Some w' ->
  _running (self w) = false ->
  exists p p' extra,
    threads w !! i = Some p /\
    threads w' = <[i := p']> (threads w) ++ extra /\
    (extra = [] \/ extra = [L54]) /\
    p' <> L43 /\
    (p <> L43 -> _running (self w') = false) /\
    (is_worker p = true -> (phase p <= phase p')%nat /\ worker_or_gone p').
Proof.
  unfold thread_step. destruct (threads w !! i) as [p|] eqn:Hp;
    cbn [mbind option_bind]; [|discriminate].
  intros Hstep Hrun. exists p.
  destruct p; cbn in Hstep; rewrite ?Hrun in Hstep;
    repeat match type of Hstep with
      | context [match ?x with _ => _ end] => destruct x eqn:?
      end;
    try discriminate; injection Hstep as <-;
    eexists _, _; cbn [threads self];
    (split; [reflexivity|]);
    (split; [first [reflexivity | symmetry; apply app_nil_r]|]);
    (split; [first [left; reflexivity | right; reflexivity]|]);
    (split; [discriminate|]);
    (split; [first [intros _; cbn; assumption | intros _; reflexivity
                   | intros H; contradiction]|]);
    unfold worker_or_gone; cbn; intros Hw; try discriminate Hw;
    (split; [lia|auto]).
Qed.

Lemma stopped_step (now : float) (w w' : World) (i : nat) :
  thread_step now w i = Some w' -> stopped w ->
  stopped w' /\
  forall j p, threads w !! j = Some p -> is_worker p = true ->
    exists p', threads w' !! j = Some p' /\
               (phase p <= phase p')%nat /\ worker_or_gone p'.
Proof.
  intros Hstep [Hrun Hno].
  destruct (thread_step_stopped _ _ _ _ Hstep Hrun)
    as (p & p' & extra & Hp & Hth & Hex & Hp' & Hflag & Hphase).
  split; [split|].
  - apply Hflag. intros ->. exact (Hno _ Hp).
  - intros j Hj. rewrite Hth in Hj.
    destruct (lookup_after_step _ _ _ _ _ _ _ Hp Hj)
      as [[_ H]|[[_ Hold]|[_ Hin]]].
    + congruence.
    + exact (Hno _ Hold).
    + destruct Hex as [-> | ->]; [destruct Hin|].
      destruct Hin as [H|[]]. discriminate.
  - intros j q Hj Hq. rewrite Hth.
    destruct (Nat.eq_dec j i) as [-> | Hne].
    + exists p'. split; [eapply lookup_step_same; exact Hp|].
      assert (q = p) as -> by congruence. apply Hphase. exact Hq.
    + exists q. split; [apply lookup_step_other; assumption|].
      split; [lia|left; exact Hq].
Qed.

Lemma phase_gone (p : pc) : worker_or_gone p -> is_worker p = false -> phase p = 7%nat.
Proof. intros [H|[-> | ->]] Hn; [congruence|reflexivity..]. Qed.

Lemma stopped_moves_forward (evs : list event) :
  forall (w w' : World) (j : nat) (p : pc),
  exec evs w = Some w' ->
  stopped w ->
  Forall (fun ev => ev <> Call Mstart) evs ->
  threads w !! j = Some p ->
  worker_or_gone p ->
  exists p', threads w' !! j = Some p' /\
             (phase p <= phase p')%nat /\ worker_or_gone p'.
Proof.
  induction evs as [|[now i|m] rest IH]; intros w w' j p Hexec Hst Hev Hj Hp;
    cbn [exec] in Hexec.
  - injection Hexec as <-. exists p. split; [exact Hj|]. split; [lia|exact Hp].
  - destruct (thread_step now w i) as [w1|] eqn:Hstep; [|discriminate].
    cbn [mbind option_bind] in Hexec.
    destruct (stopped_step _ _ _ _ Hstep Hst) as [Hst1 Hmove].
    apply Forall_cons in Hev as [_ Hev].
    destruct (is_worker p) eqn:Hwk.
    + destruct (Hmove _ _ Hj Hwk) as (p1 & Hj1 & Hle & Hp1).
      destruct (IH _ _ _ _ Hexec Hst1 Hev Hj1 Hp1) as (p' & Hj' & Hle' & Hp').
      exists p'. split; [exact Hj'|]. split; [lia|exact Hp'].
    + (* the thread is gone and does not move *)
      assert (Hj1 : threads w1 !! j = Some p).
      { destruct (thread_step_stopped _ _ _ _ Hstep (proj1 Hst))
          as (q & q' & extra & Hq & Hth & _).
        rewrite Hth. destruct (Nat.eq_dec j i) as [-> | Hne].
        - exfalso. assert (q = p) as -> by congruence.
          unfold thread_step in Hstep. rewrite Hq in Hstep.
          destruct Hp as [H|[-> | ->]]; [congruence|discriminate..].
        - apply lookup_step_other; assumption. }
      exact (IH _ _ _ _ Hexec Hst1 Hev Hj1 Hp).
  - apply Forall_cons in Hev as [Hm Hev].
    apply (IH (mkWorld (self w) (threads w ++ [entry m])) w' j p Hexec);
      [|exact Hev| |exact Hp].
    + destruct Hst as [Hrun Hno]. split; [exact Hrun|].
      cbn [threads]. intros k Hk.
      apply lookup_app_Some in Hk as [Hk|[_ Hk]]; [exact (Hno _ Hk)|].
      apply list_lookup_singleton_Some in Hk as [_ Hk].
      destruct m; try discriminate. contradiction.
    + cbn [threads]. apply lookup_app_Some. left. exact Hj.
Qed.

(** X9.  After [stop] has cleared the flag (line 49), and as long as
    [start] is not called again, a worker only moves forward through the
    iteration it is in: it never goes back to an earlier line, so it
    publishes at most one more value, calls the subscribers in at most
    one more round, and leaves the loop at its next test of the flag. *)
Theorem stop_lets_worker_finish (evs : list event) (w w' : World)
    (now : float) (s j : nat) (p : pc) :
  threads w !! s = Some L49 ->
  (forall k, threads w !! k <> Some L43) ->
  Forall (fun ev => ev <> Call Mstart) evs ->
  threads w !! j = Some p -> is_worker p = true ->
  exec (Step now s :: evs) w = Some w' ->
  exists p', threads w' !! j = Some p' /\
             (phase p <= phase p')%nat /\ worker_or_gone p'.
Proof.
  intros Hs Hno Hev Hj Hp Hexec. cbn [exec] in Hexec.
  pose proof (lookup_lt_Some _ _ _ Hs) as Hlen.
  assert (Hstep : thread_step now w s
                  = Some (mkWorld (set_running false (self w))
                            (<[s := L50]> (threads w)))).
  { unfold thread_step. rewrite Hs. reflexivity. }
  rewrite Hstep in Hexec. cbn [mbind option_bind] in Hexec.
  assert (Hne : j <> s) by (intros ->; rewrite Hs in Hj; injection Hj as <-;
                            discriminate).
  apply (stopped_moves_forward evs _ w' j p Hexec).
  - split; [reflexivity|]. cbn [threads]. intros k Hk.
    apply list_lookup_insert_Some in Hk as [(_ & H & _)|[_ Hk]];
      [discriminate|exact (Hno _ Hk)].
  - exact Hev.
  - cbn [threads]. rewrite list_lookup_insert_ne by congruence. exact Hj.
  - left. exact Hp.
Qed.

(** ** The methods as threads run them *)

Lemma set_lock_release (t : IncomeTracker) (i : nat) :
  _lock t = None -> set_lock None (set_lock (Some i) t) = t.
Proof. destruct t. cbn. intros ->. reflexivity. Qed.

(** X10.  A call of [get_current] that is not interrupted, on a tracker
    whose lock is free, returns what [get_current] computes from the
    clock reading of line 67 and leaves the tracker as it was, the lock
    free again; when the computation raises, the lock is freed too. *)
Theorem get_current_steps (w : World) (i : nat) (now n1 n3 n4 : float) :
  threads w !! i = Some L66 ->
  _lock (self w) = None ->
  match get_current (self w) now with
  | Ok r =>
      exec [Step n1 i; Step now i; Step n3 i; Step n4 i] w
      = Some (mkWorld (self w) (<[i := Done (Some r)]> (threads w)))
  | Raise _ =>
      exec [Step n1 i; Step now i; Step n3 i] w
      = Some (mkWorld (self w) (<[i := Failed]> (threads w)))
  end.
Proof.
  intros Hi Hl. destruct w as [t l]. cbn [threads self] in *.
  unfold get_current.
  destruct (value_at (config t) (fsub now (start_time t))) as [c|e] eqn:Hv;
    cbn [mbind result_bind].
  - step_at Hi. rewrite Hl. step_at Hi. step_at Hi.
    cbn [set_lock config start_time]. rewrite Hv. step_at Hi.
    steps_done. rewrite (set_lock_release _ _ Hl). reflexivity.
  - step_at Hi. rewrite Hl. step_at Hi. step_at Hi.
    cbn [set_lock config start_time]. rewrite Hv.
    steps_done. rewrite (set_lock_release _ _ Hl). reflexivity.
Qed.

(** X11.  A call of [reset] that is not interrupted, on a tracker whose
    lock is free, leaves the tracker [reset] gives for the clock reading
    of line 76. *)
Theorem reset_steps (w : World) (i : nat) (now n1 n3 n4 : float) :
  threads w !! i = Some L75 ->
  _lock (self w) = None ->
  exec [Step n1 i; Step now i; Step n3 i; Step n4 i] w
  = Some (mkWorld (reset (self w) now) (<[i := Done None]> (threads w))).
Proof.
  intros Hi Hl. destruct w as [t l]. cbn [threads self] in *.
  step_at Hi. rewrite Hl. step_at Hi. step_at Hi. step_at Hi.
  steps_done. do 2 f_equal. destruct t. cbn in *. subst. reflexivity.
Qed.

(** X12.  A call of [start] that is not interrupted leaves the tracker
    and the new worker that [start] gives for the clock reading of
    line 44, whatever the state before. *)
Theorem start_steps (w : World) (i : nat) (now n1 n3 : float) :
  threads w !! i = Some L43 ->
  exec [Step n1 i; Step now i; Step n3 i] w
  = Some (mkWorld (self (start w now))
            (<[i := Done None]> (threads w) ++ [L54])).
Proof.
  intros Hi. destruct w as [t l]. cbn [threads self] in *.
  step_at Hi. step_at Hi. step_at Hi. steps_done.
  rewrite !length_insert. reflexivity.
Qed.

(** ** Examples of the interleaving properties *)

Definition init_1000 : IncomeTracker := __init__ cfg50k (of_Z 1000).

Lemma callbacks_outside_lock_witness :
  _lock (self world_snapshot) <> Some 1%nat.
Proof.
  apply (callbacks_outside_lock cfg50k world_snapshot 1
           (S754_finite false 6755399441055744 (-51)) 0).
  - apply (exec_reachable cfg50k schedule_snapshot
             (mkWorld (__init__ cfg50k (of_Z 1000)) [])).
    + apply reach_init.
    + vm_compute. reflexivity.
  - reflexivity.
Defined.

Lemma lock_released_witness :
  exists n w',
    (n <= 3)%nat /\
    exec (replicate n (Step (of_Z 1006) 2)) world_reset = Some w' /\
    _lock (self w') = None.
Proof.
  apply (lock_released cfg50k world_reset 2 (of_Z 1006)).
  - apply (exec_reachable cfg50k schedule_reset
             (mkWorld (__init__ cfg50k (of_Z 1000)) [])).
    + apply reach_init.
    + vm_compute. reflexivity.
  - reflexivity.
Defined.

Lemma accumulated_is_recomputed_witness :
  accumulated (self world_snapshot) = Finite false 0 0 \/
  exists elapsed,
    value_at cfg50k elapsed = Ok (accumulated (self world_snapshot)).
Proof.
  apply (accumulated_is_recomputed cfg50k world_snapshot).
  apply (exec_reachable cfg50k schedule_snapshot
           (mkWorld (__init__ cfg50k (of_Z 1000)) [])).
  - apply reach_init.
  - vm_compute. reflexivity.
Defined.

(** [stop] is called while the worker of [world_snapshot] is at its
    subscribers; the worker reaches its sleep, tests the flag and is
    gone. *)
Definition world_stop : World :=
  mkWorld (self world_snapshot) (threads world_snapshot ++ [L49]).

Definition schedule_stop : list event :=
  [Step (of_Z 1011) 3; Step (of_Z 1011) 1; Step (of_Z 1011) 1;
   Step (of_Z 1011) 1].

Definition world_stopped : World :=
  Eval vm_compute in
    match exec (Step (of_Z 1011) 3 :: schedule_stop) world_stop with
    | Some w => w
    | None => world_stop
    end.

Lemma stop_lets_worker_finish_witness :
  exists p',
    threads world_stopped !! 1%nat = Some p' /\
    (phase (L58 (S754_finite false 6755399441055744 (-51)) 0) <= phase p')%nat /\
    worker_or_gone p'.
Proof.
  apply (stop_lets_worker_finish schedule_stop world_stop world_stopped
           (of_Z 1011) 3 1).
  - reflexivity.
  - intros [|[|[|[|k]]]]; discriminate.
  - repeat constructor; discriminate.
  - reflexivity.
  - reflexivity.
  - vm_compute. reflexivity.
Defined.

Lemma get_current_steps_witness :
  exec [Step (of_Z 1001) 0; Step (of_Z 1010) 0; Step (of_Z 1020) 0;
        Step (of_Z 1030) 0] (mkWorld init_1000 [L66])
  = Some (mkWorld init_1000
            [Done (Some (Finite false 6900 (-5), of_Z 10))]).
Proof.
  pose proof (get_current_steps (mkWorld init_1000 [L66]) 0 (of_Z 1010)
                (of_Z 1001) (of_Z 1020) (of_Z 1030) eq_refl eq_refl) as H.
  vm_compute in H |- *. exact H.
Defined.

Lemma reset_steps_witness :
  exec [Step (of_Z 1001) 0; Step (of_Z 1010) 0; Step (of_Z 1020) 0;
        Step (of_Z 1030) 0] (mkWorld init_1000 [L75])
  = Some (mkWorld (reset init_1000 (of_Z 1010)) [Done None]).
Proof.
  apply (reset_steps (mkWorld init_1000 [L75]) 0 (of_Z 1010)
           (of_Z 1001) (of_Z 1020) (of_Z 1030)); reflexivity.
Defined.

Lemma start_steps_witness :
  exec [Step (of_Z 1001) 0; Step (of_Z 1010) 0; Step (of_Z 1020) 0]
       (mkWorld init_1000 [L43])
  = Some (mkWorld (self (start (mkWorld init_1000 [L43]) (of_Z 1010)))
            [Done None; L54]).
Proof.
  apply (start_steps (mkWorld init_1000 [L43]) 0 (of_Z 1010)
           (of_Z 1001) (of_Z 1020)); reflexivity.
Defined.


(** * The command line *)

(** What [cli] shows and writes, in terms of the saved configuration. *)
Lemma cli_shows (D : string -> result Decimal)
    (file : option (gmap string json)) (salary : option float) (cur : string)
    (side passive : float) (cfg : IncomeConfig)
    (written : option (gmap string json)) :
  cli D file salary cur side passive = Shows cfg written ->
  exists cfg0,
    get_default_config D file = Ok cfg0 /\
    cfg = mkIncomeConfig
            (match salary with
             | Some x => Decimal_of_str x
             | None => annual_salary cfg0
             end)
            (if String.eqb cur "$" then currency cfg0 else JStr cur)
            (work_hours_per_day cfg0) (work_days_per_year cfg0)
            (if ne_zero side then Decimal_of_str side else side_income cfg0)
            (if ne_zero passive then Decimal_of_str passive
             else passive_income cfg0) /\
    (if is_Some_bool salary || negb (String.eqb cur "$")
        || ne_zero side || ne_zero passive
     then exists a b c,
         float_of_Decimal (annual_salary cfg) = Some a /\
         float_of_Decimal (side_income cfg) = Some b /\
         float_of_Decimal (passive_income cfg) = Some c /\
         written = Some (<["salary" := JFloat a]>
                           (<["currency" := currency cfg]>
                              (<["side" := JFloat b]>
                                 (<["passive" := JFloat c]> ∅))))
     else written = None).
Proof.
  unfold cli. intros H.
  destruct (get_default_config D file) as [cfg0|e]; [|discriminate].
  exists cfg0. split; [reflexivity|].
  destruct (String.eqb cur "$") eqn:Hcur; cbn [negb] in H |- *;
  destruct (is_Some_bool salary || _ || ne_zero side || ne_zero passive).
  all: repeat match type of H with
       | context [match float_of_Decimal ?d with _ => _ end] =>
           destruct (float_of_Decimal d) eqn:?
       end; try discriminate; injection H as <- <-;
       cbn [annual_salary side_income passive_income currency];
       (split; [reflexivity|]); eauto 10.
Qed.

(** X14.  An option of [cli] overrides the saved value only when it
    differs from its default: a salary that is given, a currency other
    than ["$"], a side or passive income other than zero.  So
    [--side 0] does not clear a saved side income and [-c "$"] does not
    bring back the dollar; and with no such option nothing is written. *)
Theorem cli_options (D : string -> result Decimal)
    (file : option (gmap string json)) (salary : option float) (cur : string)
    (side passive : float) (cfg : IncomeConfig)
    (written : option (gmap string json)) :
  cli D file salary cur side passive = Shows cfg written ->
  exists saved,
    get_default_config D file = Ok saved /\
    annual_salary cfg
    = match salary with
      | Some x => Decimal_of_str x
      | None => annual_salary saved
      end /\
    (cur = "$"%string -> currency cfg = currency saved) /\
    (cur <> "$"%string -> currency cfg = JStr cur) /\
    (ne_zero side = false -> side_income cfg = side_income saved) /\
    (ne_zero side = true -> side_income cfg = Decimal_of_str side) /\
    (ne_zero passive = false -> passive_income cfg = passive_income saved) /\
    (ne_zero passive = true -> passive_income cfg = Decimal_of_str passive) /\
    (salary = None -> cur = "$"%string -> ne_zero side = false ->
     ne_zero passive = false -> written = None /\ cfg = saved).
Proof.
  intros H. destruct (cli_shows _ _ _ _ _ _ _ _ H) as (saved & Hs & -> & Hw).
  exists saved. split; [exact Hs|].
  cbn [annual_salary side_income passive_income currency].
  split; [reflexivity|].
  split; [intros ->; reflexivity|].
  split; [intros Hne; apply String.eqb_neq in Hne; rewrite Hne; reflexivity|].
  split; [intros ->; reflexivity|].
  split; [intros ->; reflexivity|].
  split; [intros ->; reflexivity|].
  split; [intros ->; reflexivity|].
  intros -> -> Hside Hpassive. rewrite Hside, Hpassive in Hw |- *.
  cbn in Hw |- *. split; [exact Hw|]. destruct saved; reflexivity.
Qed.

(** X15.  What [cli] writes is read back by the next run: the file holds
    the four fields as numbers and the currency, [get_default_config]
    builds from it the configuration shown, each amount having gone
    through [float] and [str], and a run without options shows it
    again and writes nothing. *)
Theorem cli_written_file_reloads (D : string -> result Decimal)
    (file : option (gmap string json)) (salary : option float) (cur : string)
    (side passive : float) (cfg : IncomeConfig) (written : gmap string json) :
  cli D file salary cur side passive = Shows cfg (Some written) ->
  exists a b c,
    float_of_Decimal (annual_salary cfg) = Some a /\
    float_of_Decimal (side_income cfg) = Some b /\
    float_of_Decimal (passive_income cfg) = Some c /\
    let next :=
      mkIncomeConfig (Decimal_of_str a) (currency cfg)
        (work_hours_per_day cfg) (work_days_per_year cfg)
        (Decimal_of_str b) (Decimal_of_str c) in
    get_default_config D (Some written) = Ok next /\
    cli D (Some written) None "$" (S754_zero false) (S754_zero false)
    = Shows next None.
Proof.
  intros H. destruct (cli_shows _ _ _ _ _ _ _ _ H) as (saved & Hs & Hcfg & Hw).
  destruct (is_Some_bool salary || negb (String.eqb cur "$")
            || ne_zero side || ne_zero passive); [|discriminate].
  destruct Hw as (a & b & c & Ha & Hb & Hc & [= ->]).
  exists a, b, c. split; [exact Ha|]. split; [exact Hb|]. split; [exact Hc|].
  assert (Hhours : work_hours_per_day cfg = default_hours /\
                   work_days_per_year cfg = default_days).
  { unfold get_default_config in Hs.
    repeat match type of Hs with
    | context [Decimal_of_json ?d ?v] => destruct (Decimal_of_json d v)
    end; cbn [mbind result_bind] in Hs; try discriminate.
    injection Hs as <-. subst cfg. split; reflexivity. }
  destruct Hhours as [-> ->].
  assert (Hload : get_default_config D
                    (Some (<["salary" := JFloat a]>
                             (<["currency" := currency cfg]>
                                (<["side" := JFloat b]>
                                   (<["passive" := JFloat c]> ∅)))))
                  = Ok (mkIncomeConfig (Decimal_of_str a) (currency cfg)
                          default_hours default_days
                          (Decimal_of_str b) (Decimal_of_str c))).
  { unfold get_default_config, get, load_config.
    repeat (rewrite ?lookup_insert_eq;
            rewrite ?lookup_insert_ne by discriminate).
    reflexivity. }
  cbv zeta. split; [exact Hload|].
  unfold cli. rewrite Hload. reflexivity.
Qed.

(** The file holds a salary of 75000 and the currency EUR; the run
    [myi --side 0 -p -0.0] shows it and writes nothing. *)
Lemma cli_options_witness :
  exists saved,
    get_default_config no_parse file_salary_currency = Ok saved /\
    annual_salary saved = Finite false 75000 0 /\
    cli no_parse file_salary_currency None "$" (S754_zero false)
      (S754_zero true)
    = Shows saved None.
Proof.
  destruct (cli_options no_parse file_salary_currency None "$"
              (S754_zero false) (S754_zero true)
              (mkIncomeConfig (Finite false 75000 0) (JStr "EUR")
                 default_hours default_days (Finite false 0 0)
                 (Finite false 0 0)) None)
    as (saved & Hsaved & Hsalary & _ & _ & _ & _ & _ & _ & Hnone);
    [vm_compute; reflexivity|].
  exists saved. split; [exact Hsaved|].
  destruct (Hnone eq_refl eq_refl eq_refl eq_refl) as [_ <-].
  split; [reflexivity|]. vm_compute. reflexivity.
Defined.

(** The run [myi -s 80000] on that file. *)
Definition cfg_80000 : IncomeConfig :=
  mkIncomeConfig (Finite false 800000 (-1)) (JStr "EUR") default_hours
    default_days (Finite false 0 0) (Finite false 0 0).

Definition written_80000 : gmap string json :=
  <["salary" := JFloat (of_Z 80000)]>
    (<["currency" := JStr "EUR"]>
       (<["side" := JFloat (S754_zero false)]>
          (<["passive" := JFloat (S754_zero false)]> ∅))).

Lemma cli_written_file_reloads_witness :
  exists a b c,
    float_of_Decimal (annual_salary cfg_80000) = Some a /\
    float_of_Decimal (side_income cfg_80000) = Some b /\
    float_of_Decimal (passive_income cfg_80000) = Some c /\
    let next :=
      mkIncomeConfig (Decimal_of_str a) (currency cfg_80000)
        (work_hours_per_day cfg_80000) (work_days_per_year cfg_80000)
        (Decimal_of_str b) (Decimal_of_str c) in
    get_default_config no_parse (Some written_80000) = Ok next /\
    cli no_parse (Some written_80000) None "$" (S754_zero false)
      (S754_zero false)
    = Shows next None.
Proof.
  apply (cli_written_file_reloads no_parse file_salary_currency
           (Some (of_Z 80000)) "$" (S754_zero false) (S754_zero false)).
  vm_compute. reflexivity.
Defined.

(** * The rate grows with the income *)

Lemma half_up_div_mono (a a' b : Z) :
  0 < b -> a <= a' -> half_up_div a b <= half_up_div a' b.
Proof.
  intros Hb Ha. unfold half_up_div. apply Z.div_le_mono; lia.
Qed.

Lemma half_up_div_nonneg (a b : Z) : 0 <= a -> 0 < b -> 0 <= half_up_div a b.
Proof. intros Ha Hb. unfold half_up_div. apply Z.div_pos; lia. Qed.

Lemma rate_units_mono (cx cx' ex cy ey : Z) :
  0 <= cx <= cx' -> 0 < cy ->
  0 <= rate_units cx ex cy ey <= rate_units cx' ex cy ey.
Proof.
  intros Hc Hy. unfold rate_units.
  destruct (Z.leb_spec 0 (ex - ey + 4)) as [Hd|Hd].
  - pose proof (pow10_pos (ex - ey + 4) Hd).
    split; [apply half_up_div_nonneg; nia|apply half_up_div_mono; nia].
  - pose proof (pow10_pos (- (ex - ey + 4)) ltac:(lia)).
    split; [apply half_up_div_nonneg; nia|apply half_up_div_mono; nia].
Qed.

(** X16.  More income never gives a lower rate: of two configurations
    with the same positive hours and days whose amounts are not
    negative, have the same exponents and stay within the digit bounds,
    the one with the larger coefficients has the rate that is at least
    as large. *)
Theorem per_second_monotone (cfg cfg' : IncomeConfig)
    (c1 c2 c3 c1' c2' c3' ch cd : N) (e1 e2 e3 eh ed k : Z) :
  annual_salary cfg = Finite false c1 e1 ->
  side_income cfg = Finite false c2 e2 ->
  passive_income cfg = Finite false c3 e3 ->
  annual_salary cfg' = Finite false c1' e1 ->
  side_income cfg' = Finite false c2' e2 ->
  passive_income cfg' = Finite false c3' e3 ->
  work_hours_per_day cfg = Finite false ch eh ->
  work_days_per_year cfg = Finite false cd ed ->
  work_hours_per_day cfg' = Finite false ch eh ->
  work_days_per_year cfg' = Finite false cd ed ->
  (c1 <= c1')%N -> (c2 <= c2')%N -> (c3 <= c3')%N ->
  let e0 := Z.min (Z.min e1 e2) e3 in
  let cS := Z.of_N ch * 3600 * Z.of_N cd in
  let eS := eh + ed in
  cS < 10 ^ 28 -> cS <> 0 ->
  Etiny <= eh <= Etop -> Etiny <= eS <= Etop ->
  Z.of_N c1' * 10 ^ (e1 - e0) + Z.of_N c2' * 10 ^ (e2 - e0)
  + Z.of_N c3' * 10 ^ (e3 - e0) < 10 ^ k ->
  k <= 27 -> k + e0 - eS <= 22 ->
  Etiny <= e0 -> Z.max (Z.max e1 e2) e3 <= Etop -> -999900 <= e0 - eS ->
  exists s r s' r',
    per_second cfg = Ok (Finite s r (-4)) /\
    per_second cfg' = Ok (Finite s' r' (-4)) /\
    (r <= r')%N.
Proof.
  intros H1 H2 H3 H1' H2' H3' Hh Hd Hh' Hd' Hc1 Hc2 Hc3 e0 cS eS
    HS HSnz Heh HeS Hk Hk27 Hmag Hlo Hhi Hdiff.
  pose proof (pow10_pos (e1 - e0) ltac:(subst e0; lia)) as Hp1.
  pose proof (pow10_pos (e2 - e0) ltac:(subst e0; lia)) as Hp2.
  pose proof (pow10_pos (e3 - e0) ltac:(subst e0; lia)) as Hp3.
  set (a := Z.of_N c1 * 10 ^ (e1 - e0)) in *.
  set (b := Z.of_N c2 * 10 ^ (e2 - e0)) in *.
  set (c := Z.of_N c3 * 10 ^ (e3 - e0)) in *.
  set (a' := Z.of_N c1' * 10 ^ (e1 - e0)) in *.
  set (b' := Z.of_N c2' * 10 ^ (e2 - e0)) in *.
  set (c' := Z.of_N c3' * 10 ^ (e3 - e0)) in *.
  assert (Ha : 0 <= a <= a') by (subst a a'; nia).
  assert (Hb : 0 <= b <= b') by (subst b b'; nia).
  assert (Hc : 0 <= c <= c') by (subst c c'; nia).
  destruct (per_second_exact_aux cfg false false false false false
              c1 c2 c3 ch cd e1 e2 e3 eh ed H1 H2 H3 Hh Hd k)
    as (s & Hr & _); try assumption.
  { fold e0 a b c. lia. }
  destruct (per_second_exact_aux cfg' false false false false false
              c1' c2' c3' ch cd e1 e2 e3 eh ed H1' H2' H3' Hh' Hd' k)
    as (s' & Hr' & _); try assumption.
  fold e0 a b c cS eS in Hr. fold e0 a' b' c' cS eS in Hr'.
  cbn [signed] in Hr, Hr'.
  eexists s, _, s', _. split; [exact Hr|]. split; [exact Hr'|].
  assert (HcS : 0 < cS) by (subst cS; lia).
  pose proof (rate_units_mono (Z.abs (a + b + c)) (Z.abs (a' + b' + c'))
                e0 cS eS ltac:(lia) HcS) as [Hn Hm].
  lia.
Qed.

(** A salary of 60000 instead of 50000: 0.0083 instead of 0.0069. *)
Lemma per_second_monotone_witness :
  exists s r s' r',
    per_second cfg50k = Ok (Finite s r (-4)) /\
    per_second (config_of_salary (Finite false 60000 0))
    = Ok (Finite s' r' (-4)) /\
    (r <= r')%N.
Proof.
  apply (per_second_monotone cfg50k (config_of_salary (Finite false 60000 0))
           50000 0 0 60000 0 0 8 250 0 0 0 0 0 5
           eq_refl eq_refl eq_refl eq_refl eq_refl eq_refl
           eq_refl eq_refl eq_refl eq_refl);
    try reflexivity; try discriminate;
    unfold Etiny, Etop, Emin, Emax, prec; cbn; lia.
Defined.

(** ** Subscribers *)

Lemma thread_step_callbacks (now : float) (w w' : World) (i : nat) :
  thread_step now w i = Some w' ->
  config (self w') = config (self w) /\
  exists added, _callbacks (self w') = _callbacks (self w) ++ added.
Proof.
  unfold thread_step. destruct (threads w !! i) as [p|] eqn:Hp;
    cbn [mbind option_bind]; [|discriminate].
  intros Hstep.
  destruct p; cbn in Hstep;
    repeat match type of Hstep with
      | context [match ?x with _ => _ end] => destruct x eqn:?
      end;
    try discriminate; injection Hstep as <-; cbn;
    (split; [reflexivity|]);
    first [exists []; symmetry; apply app_nil_r | eexists; reflexivity].
Qed.

(** X17.  Whatever the threads do, the configuration of the tracker
    stays the same and subscribers are only added, at the end of the
    list: one that is registered is never removed and keeps its place. *)
Theorem subscribers_only_appended (evs : list event) :
  forall (w w' : World),
  exec evs w = Some w' ->
  config (self w') = config (self w) /\
  exists added, _callbacks (self w') = _callbacks (self w) ++ added.
Proof.
  induction evs as [|[now i|m] rest IH]; intros w w' Hexec; cbn [exec] in Hexec.
  - injection Hexec as <-. split; [reflexivity|].
    exists []. symmetry. apply app_nil_r.
  - destruct (thread_step now w i) as [w1|] eqn:Hstep; [|discriminate].
    cbn [mbind option_bind] in Hexec.
    destruct (thread_step_callbacks _ _ _ _ Hstep) as [Hc1 [a1 Ha1]].
    destruct (IH _ _ Hexec) as [Hc2 [a2 Ha2]].
    split; [congruence|]. exists (a1 ++ a2).
    rewrite Ha2, Ha1, app_assoc. reflexivity.
  - exact (IH _ _ Hexec).
Qed.

Lemma subscribers_only_appended_witness :
  config (self world_snapshot) = config (__init__ cfg50k (of_Z 1000)) /\
  exists added,
    _callbacks (self world_snapshot)
    = _callbacks (__init__ cfg50k (of_Z 1000)) ++ added.
Proof.
  apply (subscribers_only_appended schedule_snapshot
           (mkWorld (__init__ cfg50k (of_Z 1000)) []) world_snapshot).
  vm_compute. reflexivity.
Defined.

(** ** A saved field that is no number *)

(** [None], a boolean, a list or a dictionary. *)
Definition no_amount (v : json) : bool :=
  match v with
  | JNull | JBool _ | JArray _ | JObject _ => true
  | JInt _ | JFloat _ | JStr _ => false
  end.

Lemma Decimal_of_json_no_amount (D : string -> result Decimal) (v : json) :
  no_amount v = true -> Decimal_of_json D v = Raise InvalidOperation.
Proof. destruct v; try discriminate; reflexivity. Qed.

(** X19.  When the first of the fields [salary], [side] and [passive]
    of the saved dictionary that is not a number is [null], a boolean, a
    list or a dictionary, [get_default_config] raises
    [InvalidOperation], and so does every run of [cli]. *)
Theorem get_default_config_no_amount (D : string -> result Decimal)
    (file : option (gmap string json)) (v : json) :
  let saved := load_config file in
  no_amount v = true ->
  saved !! "salary" = Some v \/
  (numeric saved "salary" /\ saved !! "side" = Some v) \/
  (numeric saved "salary" /\ numeric saved "side" /\
   saved !! "passive" = Some v) ->
  get_default_config D file = Raise InvalidOperation /\
  forall salary cur side passive,
    cli D file salary cur side passive = DecimalRaises InvalidOperation.
Proof.
  intros saved Hv H. subst saved.
  assert (Hget : get_default_config D file = Raise InvalidOperation).
  { unfold get_default_config. cbv zeta.
    destruct H as [Hs|[[Hs Hsi]|(Hs & Hsi & Hp)]].
    - unfold get. rewrite Hs, (Decimal_of_json_no_amount D v Hv).
      reflexivity.
    - destruct (Decimal_of_json_numeric D (load_config file) "salary" 50000 ltac:(lia) Hs)
        as (ds & -> & _). cbn [mbind result_bind].
      unfold get. rewrite Hsi, (Decimal_of_json_no_amount D v Hv).
      reflexivity.
    - destruct (Decimal_of_json_numeric D (load_config file) "salary" 50000 ltac:(lia) Hs)
        as (ds & -> & _). cbn [mbind result_bind].
      destruct (Decimal_of_json_numeric D (load_config file) "side" 0 ltac:(lia) Hsi)
        as (dsi & -> & _). cbn [mbind result_bind].
      unfold get. rewrite Hp, (Decimal_of_json_no_amount D v Hv).
      reflexivity. }
  split; [exact Hget|]. intros. unfold cli. rewrite Hget. reflexivity.
Qed.

Definition file_side_null : option (gmap string json) :=
  Some (<["salary" := JInt 75000]> (<["side" := JNull]> ∅)).

Lemma get_default_config_no_amount_witness :
  get_default_config no_parse file_side_null = Raise InvalidOperation /\
  forall salary cur side passive,
    cli no_parse file_side_null salary cur side passive
    = DecimalRaises InvalidOperation.
Proof.
  apply (get_default_config_no_amount no_parse file_side_null JNull).
  - reflexivity.
  - right. left. split; [vm_compute; exact I|vm_compute; reflexivity].
Defined.



(** * The published value (claim C1) *)













(** * Exceptions raised by subscribers (claim C5) *)

(** Two subscribers are registered, the first of which raises
    [SystemExit]; a worker has published and is at its first
    subscriber. *)
Definition schedule_exits : list event :=
  [Call (Mon_update cb_exits); Step (of_Z 1000) 0;
   Call (Mon_update cb_returns); Step (of_Z 1000) 1;
   Call Mstart; Step (of_Z 1000) 2; Step (of_Z 1000) 2; Step (of_Z 1000) 2;
   Step (of_Z 1000) 3; Step (of_Z 1010) 3; Step (of_Z 1010) 3;
   Step (of_Z 1010) 3; Step (of_Z 1010) 3].

Definition world_exits : World :=
  Eval vm_compute in
    match exec schedule_exits (mkWorld (__init__ cfg50k (of_Z 1000)) []) with
    | Some w => w
    | None => mkWorld (__init__ cfg50k (of_Z 1000)) []
    end.

(** C5, as stated, fails: [except Exception] does not catch an exception
    that is not derived from [Exception].  The worker that calls the
    first subscriber is gone after the call: the second subscriber is
    never called and the loop is left. *)
Lemma base_exception_leaves_loop :
  reachable cfg50k world_exits /\
  threads world_exits !! 3%nat = Some (L58 (of_Z 10) 0) /\
  _callbacks (self world_exits) = [cb_exits; cb_returns] /\
  exists w',
    thread_step (of_Z 1010) world_exits 3 = Some w' /\
    threads w' !! 3%nat = Some Failed /\
    forall now, thread_step now w' 3 = None.
Proof.
  split.
  { apply (exec_reachable cfg50k schedule_exits
             (mkWorld (__init__ cfg50k (of_Z 1000)) [])).
    - apply reach_init.
    - vm_compute. reflexivity. }
  split; [reflexivity|]. split; [reflexivity|].
  eexists. split; [vm_compute; reflexivity|].
  split; [reflexivity|]. intros now. reflexivity.
Qed.

(** Rewriting the subscriber that a step looks up. *)
Ltac subscriber_is H :=
  match type of H with
  | _ = ?v =>
      match goal with
      | |- context [match ?x with Some _ => _ | None => _ end] =>
          replace x with v by (symmetry; exact H)
      end
  end.

(** The steps of thread [i] in a schedule. *)
Fixpoint steps_of (i : nat) (evs : list event) : nat :=
  match evs with
  | [] => 0
  | Step _ j :: rest => (if Nat.eqb j i then 1 else 0) + steps_of i rest
  | Call _ :: rest => steps_of i rest
  end.

Lemma thread_step_frame (now : float) (w w' : World) (i j : nat) :
  thread_step now w j = Some w' -> j <> i ->
  forall p, threads w !! i = Some p -> threads w' !! i = Some p.
Proof.
  intros Hstep Hne p Hp.
  destruct (thread_step_shape _ _ _ _ Hstep)
    as (q & q' & extra & _ & Hth & _).
  rewrite Hth. apply lookup_step_other; [congruence|exact Hp].
Qed.

Lemma subscribers_in_order (e : float) (cbs : list callback)
    (evs : list event) :
  (forall cb, In cb cbs -> forall v, cb v e <> RaisesBaseException) ->
  forall (w w' : World) (i k : nat) (more : list callback),
  exec evs w = Some w' ->
  threads w !! i = Some (L58 e k) ->
  _callbacks (self w) = cbs ++ more ->
  (k + steps_of i evs <= length cbs)%nat ->
  threads w' !! i = Some (L58 e (k + steps_of i evs)).
Proof.
  intros Hcatch.
  induction evs as [|[now j|m] rest IH]; intros w w' i k more Hexec Hi Hcbs Hlen;
    cbn [exec steps_of] in *.
  - injection Hexec as <-. rewrite Nat.add_0_r. exact Hi.
  - destruct (thread_step now w j) as [w1|] eqn:Hstep; [|discriminate].
    cbn [mbind option_bind] in Hexec.
    destruct (Nat.eqb_spec j i) as [-> | Hne].
    + assert (Hk : (k < length cbs)%nat) by lia.
      destruct (lookup_lt_is_Some_2 cbs k Hk) as [cb Hcb].
      assert (Hin : In cb cbs).
      { apply list_elem_of_In. eapply list_elem_of_lookup_2. exact Hcb. }
      assert (Hw1 : w1 = mkWorld (self w) (<[i := L58 e (S k)]> (threads w))).
      { unfold thread_step in Hstep. rewrite Hi in Hstep.
        cbn [mbind option_bind] in Hstep. rewrite Hcbs in Hstep.
        rewrite (lookup_app_l_Some _ _ _ _ Hcb) in Hstep.
        pose proof (Hcatch cb Hin (accumulated (self w))) as Hout.
        destruct (cb (accumulated (self w)) e);
          [injection Hstep as <-; reflexivity..|contradiction]. }
      subst w1.
      replace (k + (1 + steps_of i rest))%nat
        with (S k + steps_of i rest)%nat by lia.
      apply (IH _ w' i (S k) more Hexec).
      * cbn [threads]. apply list_lookup_insert_eq.
        eapply lookup_lt_Some. exact Hi.
      * exact Hcbs.
      * lia.
    + destruct (thread_step_callbacks _ _ _ _ Hstep) as [_ [added Hadd]].
      apply (IH w1 w' i k (more ++ added) Hexec).
      * eapply thread_step_frame; eassumption.
      * rewrite Hadd, Hcbs, app_assoc. reflexivity.
      * exact Hlen.
  - apply (IH _ w' i k more Hexec).
    + cbn [threads]. apply lookup_app_Some. left. exact Hi.
    + exact Hcbs.
    + exact Hlen.
Qed.

(** C5 (amended).  An exception derived from [Exception] is caught where
    the subscriber is called: the worker goes on to the next subscriber
    with the tracker as it is, and after the last one to its sleep.  So
    when no subscriber raises an exception of another kind, then in
    every interleaving the worker calls the subscribers in registration
    order, each with the elapsed time of the tick and the value
    published at the moment of the call, and is not stopped. *)
Theorem exceptions_isolated (w : World) (i : nat) (elapsed : float) (k : nat) :
  threads w !! i = Some (L58 elapsed k) ->
  (forall cb now,
     _callbacks (self w) !! k = Some cb ->
     cb (accumulated (self w)) elapsed <> RaisesBaseException ->
     thread_step now w i
     = Some (mkWorld (self w) (<[i := L58 elapsed (S k)]> (threads w)))) /\
  (forall now,
     _callbacks (self w) !! k = None ->
     thread_step now w i
     = Some (mkWorld (self w) (<[i := L63]> (threads w)))) /\
  (forall evs w',
     (forall cb, In cb (_callbacks (self w)) ->
                 forall v, cb v elapsed <> RaisesBaseException) ->
     exec evs w = Some w' ->
     (k + steps_of i evs <= length (_callbacks (self w)))%nat ->
     threads w' !! i = Some (L58 elapsed (k + steps_of i evs))).
Proof.
  intros Hi. split; [|split].
  - intros cb now Hcb Hout. unfold thread_step. rewrite Hi.
    cbn [mbind option_bind]. subscriber_is Hcb.
    destruct (cb (accumulated (self w)) elapsed);
      [reflexivity..|contradiction].
  - intros now Hcb. unfold thread_step. rewrite Hi.
    cbn [mbind option_bind]. subscriber_is Hcb. reflexivity.
  - intros evs w' Hcatch Hexec Hlen.
    apply (subscribers_in_order elapsed (_callbacks (self w)) evs Hcatch
             w w' i k [] Hexec Hi).
    + symmetry. apply app_nil_r.
    + exact Hlen.
Qed.

(** Two subscribers, the first of which always raises an exception
    derived from [Exception]; a snapshot is asked for between the two
    calls. *)
Definition schedule_raises : list event :=
  [Call (Mon_update cb_raises); Step (of_Z 1000) 0;
   Call (Mon_update cb_returns); Step (of_Z 1000) 1;
   Call Mstart; Step (of_Z 1000) 2; Step (of_Z 1000) 2; Step (of_Z 1000) 2;
   Step (of_Z 1000) 3; Step (of_Z 1010) 3; Step (of_Z 1010) 3;
   Step (of_Z 1010) 3; Step (of_Z 1010) 3].

Definition world_raises : World :=
  Eval vm_compute in
    match exec schedule_raises (mkWorld (__init__ cfg50k (of_Z 1000)) []) with
    | Some w => w
    | None => mkWorld (__init__ cfg50k (of_Z 1000)) []
    end.

Definition schedule_two_calls : list event :=
  [Step (of_Z 1010) 3; Call Mget_current; Step (of_Z 1011) 4;
   Step (of_Z 1011) 3].

Definition world_two_calls : World :=
  Eval vm_compute in
    match exec schedule_two_calls world_raises with
    | Some w => w
    | None => world_raises
    end.

Lemma exceptions_isolated_witness :
  threads world_two_calls !! 3%nat = Some (L58 (of_Z 10) 2) /\
  thread_step (of_Z 1011) world_two_calls 3
  = Some (mkWorld (self world_two_calls)
            (<[3%nat := L63]> (threads world_two_calls))).
Proof.
  split.
  - apply (proj2 (proj2 (exceptions_isolated world_raises 3 (of_Z 10) 0
                           eq_refl))
             schedule_two_calls world_two_calls).
    + intros cb [<-|[<-|[]]] v; discriminate.
    + vm_compute. reflexivity.
    + cbn. lia.
  - apply (proj1 (proj2 (exceptions_isolated world_two_calls 3 (of_Z 10) 2
                           eq_refl))).
    reflexivity.
Defined.


(** * [reset] among the other threads (claim C4) *)

(** A worker has published 0.06900 and is back at line 55 when [reset]
    takes the lock and writes [start_time] at 1020. *)
Definition schedule_between : list event :=
  [Call Mstart; Step (of_Z 1000) 0; Step (of_Z 1000) 0; Step (of_Z 1000) 0;
   Step (of_Z 1000) 1; Step (of_Z 1010) 1; Step (of_Z 1010) 1;
   Step (of_Z 1010) 1; Step (of_Z 1010) 1; Step (of_Z 1010) 1;
   Step (of_Z 1010) 1; Step (of_Z 1010) 1;
   Call Mreset; Step (of_Z 1020) 2; Step (of_Z 1020) 2].

Definition world_between : World :=
  Eval vm_compute in
    match exec schedule_between (mkWorld (__init__ cfg50k (of_Z 1000)) []) with
    | Some w => w
    | None => mkWorld (__init__ cfg50k (of_Z 1000)) []
    end.

(** C4, as stated, fails: line 55 reads [start_time] without the lock, so
    a read can fall between the two writes of [reset].  Here [reset] has
    written [start_time] (1020) and not yet [accumulated] (still
    0.06900, published when [start_time] was 1000), and the worker reads
    the clock and the new [start_time]. *)
Lemma reset_read_between_writes :
  reachable cfg50k world_between /\
  threads world_between !! 2%nat = Some L77 /\
  start_time (self world_between) = of_Z 1020 /\
  accumulated (self world_between) = Finite false 6900 (-5) /\
  threads world_between !! 1%nat = Some L55 /\
  exists w',
    thread_step (of_Z 1020) world_between 1 = Some w' /\
    threads w' !! 1%nat = Some (L56 (S754_zero false)) /\
    threads w' !! 2%nat = Some L77 /\
    accumulated (self w') = Finite false 6900 (-5).
Proof.
  split.
  { apply (exec_reachable cfg50k schedule_between
             (mkWorld (__init__ cfg50k (of_Z 1000)) [])).
    - apply reach_init.
    - vm_compute. reflexivity. }
  repeat (split; [reflexivity|]).
  eexists. split; [vm_compute; reflexivity|].
  repeat split; reflexivity.
Qed.

(** A schedule in which thread [i] does not move. *)
Definition others_only (i : nat) (evs : list event) : Prop :=
  Forall (fun ev => match ev with Step _ j => j <> i | Call _ => True end) evs.

(** No call of [start] is on its way to line 44, which writes
    [start_time] without the lock. *)
Definition no_start (l : list pc) (evs : list event) : Prop :=
  Forall (fun p => p <> L43 /\ p <> L44) l /\
  Forall (fun ev => ev <> Call Mstart) evs.

(** A step of a thread while another thread holds the lock. *)
Lemma thread_step_outside (now : float) (w w' : World) (j h : nat) (p : pc) :
  thread_step now w j = Some w' ->
  threads w !! j = Some p -> in_with p = false ->
  _lock (self w) = Some h ->
  exists p' extra,
    threads w' = <[j := p']> (threads w) ++ extra /\
    (extra = [] \/ extra = [L54]) /\
    in_with p' = false /\
    _lock (self w') = Some h /\
    accumulated (self w') = accumulated (self w) /\
    (p <> L44 -> start_time (self w') = start_time (self w)) /\
    p' <> L43 /\ (p' = L44 -> p = L43) /\
    (forall r, p' <> Done (Some r)) /\
    (forall e k, p' = L58 e k -> exists k0, k = S k0 /\ p = L58 e k0).
Proof.
  unfold thread_step. intros Hstep Hp Hin Hl. rewrite Hp in Hstep.
  cbn [mbind option_bind] in Hstep.
  destruct p; try discriminate Hin; cbn in Hstep; rewrite ?Hl in Hstep;
    repeat match type of Hstep with
      | context [match ?x with _ => _ end] => destruct x eqn:?
      end;
    try discriminate; injection Hstep as <-;
    eexists _, _; cbn [threads self];
    (split; [first [reflexivity | symmetry; apply app_nil_r]|]);
    (split; [first [left; reflexivity | right; reflexivity]|]);
    (split; [reflexivity|]);
    (split; [exact Hl|]);
    (split; [reflexivity|]);
    (split; [first [intros _; reflexivity | intros H; contradiction]|]);
    (split; [discriminate|]);
    (split; [first [discriminate | reflexivity]|]);
    (split; [discriminate|]);
    intros e' k' [=]; subst; eauto.
Qed.

(** While thread [i] is inside a [with] block and does not move, the
    others stay outside: nothing is published, no snapshot is taken, and
    no worker enters its subscriber loop. *)
Lemma while_lock_held (i : nat) (p : pc) (evs : list event) :
  in_with p = true ->
  forall (w w' : World),
  exec evs w = Some w' ->
  others_only i evs ->
  lock_inv w ->
  threads w !! i = Some p ->
  lock_inv w' /\
  threads w' !! i = Some p /\
  accumulated (self w') = accumulated (self w) /\
  (no_start (threads w) evs -> start_time (self w') = start_time (self w)) /\
  (forall j r, threads w' !! j = Some (Done (Some r)) ->
               threads w !! j = Some (Done (Some r))) /\
  (forall j e k, threads w' !! j = Some (L58 e k) ->
                 exists k0, (k0 <= k)%nat /\ threads w !! j = Some (L58 e k0)).
Proof.
  intros Hin.
  induction evs as [|[now j|m] rest IH]; intros w w' Hexec Hothers Hinv Hi;
    cbn [exec] in Hexec.
  - injection Hexec as <-.
    split; [exact Hinv|]. split; [exact Hi|]. split; [reflexivity|].
    split; [reflexivity|]. split; [auto|]. intros j e k Hj. eauto.
  - destruct (thread_step now w j) as [w1|] eqn:Hstep; [|discriminate].
    cbn [mbind option_bind] in Hexec.
    apply Forall_cons in Hothers as [Hne Hothers].
    assert (Hl : _lock (self w) = Some i) by exact (proj1 Hinv _ _ Hi Hin).
    destruct (threads w !! j) as [q|] eqn:Hq;
      [|unfold thread_step in Hstep; rewrite Hq in Hstep; discriminate].
    assert (Hqout : in_with q = false).
    { destruct (in_with q) eqn:E; [|reflexivity].
      pose proof (proj1 Hinv _ _ Hq E). congruence. }
    destruct (thread_step_outside _ _ _ _ _ _ Hstep Hq Hqout Hl)
      as (q' & extra & Hth & Hex & Hq' & Hl1 & Hacc & Hst & H43 & H44
          & Hdone & H58).
    assert (Hinv1 : lock_inv w1).
    { eapply lock_inv_step; [exact Hinv|]. eapply step_thread. exact Hstep. }
    assert (Hi1 : threads w1 !! i = Some p).
    { rewrite Hth. apply lookup_step_other; [congruence|exact Hi]. }
    destruct (IH _ _ Hexec Hothers Hinv1 Hi1)
      as (Hinv' & Hi' & Hacc' & Hst' & Hdone' & H58').
    split; [exact Hinv'|]. split; [exact Hi'|].
    split; [congruence|].
    split; [|split].
    + intros [Hno Hev]. apply Forall_cons in Hev as [_ Hev].
      rewrite Hst'.
      * apply Hst. intros ->.
        rewrite Forall_lookup in Hno. destruct (Hno _ _ Hq) as [_ H].
        contradiction.
      * split; [|exact Hev]. rewrite Hth. apply Forall_app. split.
        -- apply Forall_insert; [exact Hno|]. split; [exact H43|].
           intros H. apply H44 in H. subst q.
           rewrite Forall_lookup in Hno. destruct (Hno _ _ Hq) as [H _].
           contradiction.
        -- destruct Hex as [-> | ->]; repeat constructor; discriminate.
    + intros j' r Hj'. apply Hdone' in Hj'. rewrite Hth in Hj'.
      destruct (lookup_after_step _ _ _ _ _ _ _ Hq Hj')
        as [[_ H]|[[_ Hold]|[_ Hinx]]].
      * symmetry in H. exfalso. exact (Hdone r H).
      * exact Hold.
      * destruct Hex as [-> | ->]; [destruct Hinx|].
        destruct Hinx as [H|[]]. discriminate.
    + intros j' e k Hj'. destruct (H58' _ _ _ Hj') as (k1 & Hle & Hj1).
      rewrite Hth in Hj1.
      destruct (lookup_after_step _ _ _ _ _ _ _ Hq Hj1)
        as [[-> H]|[[_ Hold]|[_ Hinx]]].
      * symmetry in H. destruct (H58 _ _ H) as (k0 & -> & ->).
        exists k0. split; [lia|exact Hq].
      * exists k1. split; [exact Hle|exact Hold].
      * destruct Hex as [-> | ->]; [destruct Hinx|].
        destruct Hinx as [H|[]]. discriminate.
  - apply Forall_cons in Hothers as [_ Hothers].
    assert (Hinv1 : lock_inv (mkWorld (self w) (threads w ++ [entry m]))).
    { eapply lock_inv_step; [exact Hinv|]. apply step_call. }
    assert (Hi1 : threads (mkWorld (self w) (threads w ++ [entry m])) !! i
                  = Some p).
    { cbn [threads]. apply lookup_app_Some. left. exact Hi. }
    destruct (IH _ _ Hexec Hothers Hinv1 Hi1)
      as (Hinv' & Hi' & Hacc' & Hst' & Hdone' & H58').
    cbn [threads self] in *.
    split; [exact Hinv'|]. split; [exact Hi'|]. split; [exact Hacc'|].
    split; [|split].
    + intros [Hno Hev]. apply Forall_cons in Hev as [Hm Hev].
      apply Hst'. split; [|exact Hev]. apply Forall_app. split; [exact Hno|].
      repeat constructor; destruct m; try discriminate; contradiction.
    + intros j' r Hj'. apply Hdone' in Hj'.
      apply lookup_app_Some in Hj' as [Hj'|[_ Hj']]; [exact Hj'|].
      apply list_lookup_singleton_Some in Hj' as [_ Hj'].
      destruct m; discriminate.
    + intros j' e k Hj'. destruct (H58' _ _ _ Hj') as (k1 & Hle & Hj1).
      apply lookup_app_Some in Hj1 as [Hj1|[_ Hj1]]; [eauto|].
      apply list_lookup_singleton_Some in Hj1 as [_ Hj1].
      destruct m; discriminate.
Qed.

Lemma exec_app (evs1 evs2 : list event) :
  forall w, exec (evs1 ++ evs2) w = exec evs1 w ≫= exec evs2.
Proof.
  induction evs1 as [|[now i|m] rest IH]; intros w; cbn [app exec].
  - reflexivity.
  - destruct (thread_step now w i) as [w1|]; cbn [mbind option_bind];
      [apply IH|reflexivity].
  - apply IH.
Qed.

Lemma exec_call (m : method) (rest : list event) (w : World) :
  exec (Call m :: rest) w
  = exec rest (mkWorld (self w) (threads w ++ [entry m])).
Proof. reflexivity. Qed.

(** A call of [get_current] that is not interrupted. *)
Lemma snapshot_run (w : World) (j : nat) (now n1 n3 n4 : float) (v : Decimal) :
  threads w !! j = Some L66 ->
  _lock (self w) = None ->
  value_at (config (self w)) (fsub now (start_time (self w))) = Ok v ->
  exec [Step n1 j; Step now j; Step n3 j; Step n4 j] w
  = Some (mkWorld (self w)
            (<[j := Done (Some (v, fsub now (start_time (self w))))]>
               (threads w))).
Proof.
  intros Hj Hl Hv. destruct w as [t l]. cbn [threads self] in *.
  step_at Hj. rewrite Hl. step_at Hj. step_at Hj.
  cbn [set_lock config start_time]. rewrite Hv. step_at Hj.
  steps_done. rewrite (set_lock_release _ _ Hl). reflexivity.
Qed.

(** C4 (amended).  A call of [reset] that holds the lock writes
    [start_time] and then [accumulated].  Whatever the other threads do
    between the two writes, they stay outside the [with] blocks: nothing
    is published,
    no snapshot is taken, and the subscribers that are called belong to
    ticks that measured their elapsed time before [reset] took the lock;
    the second write leaves everything but [accumulated] as it is.  A
    call that is not interrupted leaves the tracker [reset] gives, and
    the snapshot taken next holds the time since the reset and its
    value, which at the same clock reading are zero. *)
Theorem reset_rebaselines (cfg : IncomeConfig) (w : World) (i : nat) :
  reachable cfg w ->
  threads w !! i = Some L76 ->
  (forall now n2 evs w2,
     others_only i evs ->
     exec (Step now i :: evs) w = Some w2 ->
     threads w2 !! i = Some L77 /\
     accumulated (self w2) = accumulated (self w) /\
     (no_start (threads w) evs -> start_time (self w2) = now) /\
     (forall j q, threads w2 !! j = Some q -> in_with q = true -> j = i) /\
     (forall j r, threads w2 !! j = Some (Done (Some r)) ->
                  threads w !! j = Some (Done (Some r))) /\
     (forall j e k, threads w2 !! j = Some (L58 e k) ->
                    exists k0, (k0 <= k)%nat /\
                               threads w !! j = Some (L58 e k0)) /\
     thread_step n2 w2 i
     = Some (mkWorld (set_accumulated (Finite false 0 0) (self w2))
               (<[i := L77x]> (threads w2)))) /\
  (forall now n2 n3 n5 now' n7 n8 v,
     value_at cfg (fsub now' now) = Ok v ->
     let j := length (threads w) in
     exec [Step now i; Step n2 i; Step n3 i; Call Mget_current;
           Step n5 j; Step now' j; Step n7 j; Step n8 j] w
     = Some (mkWorld (set_lock None (reset (self w) now))
               (<[i := Done None]> (threads w)
                ++ [Done (Some (v, fsub now' now))]))) /\
  (forall now sr cr er,
     finite_float now = true ->
     per_second cfg = Ok (Finite sr cr er) ->
     fsub now now = S754_zero false /\
     exists v, value_at cfg (fsub now now) = Ok v /\ is_zero v = true).
Proof.
  intros Hw Hi. pose proof (config_reachable _ _ Hw) as Hcfg.
  pose proof (lock_inv_reachable _ _ Hw) as Hinv.
  pose proof (lookup_lt_Some _ _ _ Hi) as Hlen.
  split; [|split].
  - intros now n2 evs w2 Hothers Hexec. cbn [exec] in Hexec.
    assert (Hstep : thread_step now w i
                    = Some (mkWorld (set_start_time now (self w))
                              (<[i := L77]> (threads w)))).
    { unfold thread_step. rewrite Hi. reflexivity. }
    rewrite Hstep in Hexec. cbn [mbind option_bind] in Hexec.
    assert (Hinv1 : lock_inv (mkWorld (set_start_time now (self w))
                                (<[i := L77]> (threads w)))).
    { eapply lock_inv_step; [exact Hinv|]. eapply step_thread. exact Hstep. }
    assert (Hi1 : threads (mkWorld (set_start_time now (self w))
                             (<[i := L77]> (threads w))) !! i = Some L77).
    { cbn [threads]. apply list_lookup_insert_eq. exact Hlen. }
    destruct (while_lock_held i L77 evs eq_refl _ _ Hexec Hothers Hinv1 Hi1)
      as (Hinv2 & Hi2 & Hacc & Hst & Hdone & H58).
    cbn [threads self] in Hacc, Hst, Hdone, H58.
    split; [exact Hi2|]. split; [exact Hacc|].
    split; [|split; [|split; [|split]]].
    + intros [Hno Hev]. apply Hst. split; [|exact Hev].
      apply Forall_insert; [exact Hno|]. split; discriminate.
    + intros j q Hj Hq.
      pose proof (proj1 Hinv2 _ _ Hj Hq) as H1.
      pose proof (proj1 Hinv2 _ _ Hi2 eq_refl) as H2. congruence.
    + intros j r Hj. apply Hdone in Hj.
      apply list_lookup_insert_Some in Hj as [(_ & H & _)|[_ Hj]];
        [discriminate|exact Hj].
    + intros j e k Hj. destruct (H58 _ _ _ Hj) as (k0 & Hle & Hj0).
      apply list_lookup_insert_Some in Hj0 as [(_ & H & _)|[_ Hj0]];
        [discriminate|eauto].
    + unfold thread_step. rewrite Hi2. reflexivity.
  - intros now n2 n3 n5 now' n7 n8 v Hv j.
    change [Step now i; Step n2 i; Step n3 i; Call Mget_current;
            Step n5 j; Step now' j; Step n7 j; Step n8 j]
      with ([Step now i; Step n2 i; Step n3 i]
            ++ Call Mget_current
               :: [Step n5 j; Step now' j; Step n7 j; Step n8 j]).
    rewrite exec_app.
    assert (Hreset : exec [Step now i; Step n2 i; Step n3 i] w
                     = Some (mkWorld (set_lock None (reset (self w) now))
                               (<[i := Done None]> (threads w)))).
    { destruct w as [t l]. cbn [threads self] in *.
      step_at Hi. step_at Hi. step_at Hi. steps_done. reflexivity. }
    rewrite Hreset. cbn [mbind option_bind]. rewrite exec_call.
    cbn [self threads entry].
    assert (Hj : (<[i := Done None]> (threads w) ++ [L66]) !! j = Some L66).
    { subst j. rewrite lookup_app_r by (rewrite length_insert; lia).
      rewrite length_insert, Nat.sub_diag. reflexivity. }
    rewrite (snapshot_run
               (mkWorld (set_lock None (reset (self w) now))
                  (<[i := Done None]> (threads w) ++ [L66]))
               j now' n5 n7 n8 v Hj eq_refl).
    + cbn [self threads reset set_lock set_accumulated set_start_time
           start_time].
      do 2 f_equal. subst j.
      rewrite <- (length_insert (threads w) i (Done None)).
      rewrite insert_app_r_alt by lia. rewrite Nat.sub_diag. reflexivity.
    + cbn [self reset set_lock set_accumulated set_start_time start_time
           config]. rewrite Hcfg. exact Hv.
  - intros now sr cr er Hfin Hrate.
    rewrite (fsub_diag _ Hfin). split; [reflexivity|].
    destruct (mul_zero_l false sr cr (-1) er) as (v & Hv & Hz).
    exists v. split; [|exact Hz]. unfold value_at. rewrite Hrate.
    exact Hv.
Qed.

(** A worker is about to read the clock and a call of [get_current]
    waits, when [reset] has taken the lock. *)
Definition schedule_reset_locked : list event :=
  [Call Mstart; Step (of_Z 1000) 0; Step (of_Z 1000) 0; Step (of_Z 1000) 0;
   Step (of_Z 1000) 1; Call Mreset; Call Mget_current; Step (of_Z 1004) 2].

Definition world_reset_locked : World :=
  Eval vm_compute in
    match exec schedule_reset_locked
            (mkWorld (__init__ cfg50k (of_Z 1000)) []) with
    | Some w => w
    | None => mkWorld (__init__ cfg50k (of_Z 1000)) []
    end.

(** [reset] writes [start_time] at 1005; the worker then reads the clock
    and the new [start_time], and waits for the lock. *)
Definition world_half_reset : World :=
  Eval vm_compute in
    match exec [Step (of_Z 1005) 2; Step (of_Z 1005) 1] world_reset_locked with
    | Some w => w
    | None => world_reset_locked
    end.

Lemma reset_rebaselines_witness :
  threads world_half_reset !! 2%nat = Some L77 /\
  threads world_half_reset !! 1%nat = Some (L56 (S754_zero false)) /\
  start_time (self world_half_reset) = of_Z 1005 /\
  accumulated (self world_half_reset) = accumulated (self world_reset_locked) /\
  thread_step (of_Z 1006) world_half_reset 2
  = Some (mkWorld (set_accumulated (Finite false 0 0) (self world_half_reset))
            (<[2%nat := L77x]> (threads world_half_reset))).
Proof.
  assert (Hw : reachable cfg50k world_reset_locked).
  { apply (exec_reachable cfg50k schedule_reset_locked
             (mkWorld (__init__ cfg50k (of_Z 1000)) [])).
    - apply reach_init.
    - vm_compute. reflexivity. }
  destruct (proj1 (reset_rebaselines cfg50k world_reset_locked 2 Hw eq_refl)
              (of_Z 1005) (of_Z 1006) [Step (of_Z 1005) 1] world_half_reset)
    as (Hi & Hacc & Hstart & _ & _ & _ & Hstep).
  - repeat constructor. discriminate.
  - vm_compute. reflexivity.
  - split; [exact Hi|]. split; [reflexivity|].
    split; [|split; [exact Hacc|exact Hstep]].
    apply Hstart. split; repeat constructor; discriminate.
Defined.


(** * What a subscriber is handed after a [reset] *)

(** A call of [reset] that is not interrupted. *)
Lemma reset_run (w : World) (j : nat) (now n1 n3 n4 : float) :
  threads w !! j = Some L75 ->
  _lock (self w) = None ->
  exec [Step n1 j; Step now j; Step n3 j; Step n4 j] w
  = Some (mkWorld (reset (self w) now) (<[j := Done None]> (threads w))).
Proof.
  intros Hj Hl. destruct w as [t l]. cbn [threads self] in *.
  step_at Hj. rewrite Hl. step_at Hj. step_at Hj. step_at Hj.
  steps_done. do 2 f_equal. destruct t. cbn in *. subst. reflexivity.
Qed.

(** X18.  A subscriber is called with the value that is published at
    the moment of its call (line 60 reads [self.accumulated] again), not
    with the value of the tick: when a [reset] runs between two calls of
    a tick, the next subscriber is handed the value [0] together with
    the elapsed time the tick measured before the reset. *)
Theorem subscriber_after_reset (w : World) (i j k : nat)
    (elapsed now n1 n3 n4 n5 : float) (cb : callback) :
  threads w !! i = Some (L58 elapsed k) ->
  threads w !! j = Some L75 ->
  _lock (self w) = None ->
  _callbacks (self w) !! k = Some cb ->
  exec [Step n1 j; Step now j; Step n3 j; Step n4 j; Step n5 i] w
  = Some (mkWorld (reset (self w) now)
            (<[i := match cb (Finite false 0 0) elapsed with
                    | RaisesBaseException => Failed
                    | _ => L58 elapsed (S k)
                    end]> (<[j := Done None]> (threads w)))).
Proof.
  intros Hi Hj Hl Hcb.
  assert (Hne : i <> j) by (intros ->; rewrite Hi in Hj; discriminate).
  change [Step n1 j; Step now j; Step n3 j; Step n4 j; Step n5 i]
    with ([Step n1 j; Step now j; Step n3 j; Step n4 j] ++ [Step n5 i]).
  rewrite exec_app, (reset_run w j now n1 n3 n4 Hj Hl).
  cbn [mbind option_bind exec]. unfold thread_step. cbn [threads self].
  rewrite list_lookup_insert_ne by congruence. rewrite Hi.
  cbn [mbind option_bind].
  cbn [reset set_accumulated set_start_time _callbacks accumulated].
  subscriber_is Hcb.
  destruct (cb (Finite false 0 0) elapsed); reflexivity.
Qed.

(** A subscriber that leaves the loop when it is handed a zero. *)
Definition cb_zero_exits : callback :=
  fun value _ => if is_zero value then RaisesBaseException else Returns.

(** The worker has published 0.06900 and is at this subscriber when
    [reset] is called. *)
Definition schedule_zero : list event :=
  [Call (Mon_update cb_zero_exits); Step (of_Z 1000) 0;
   Call Mstart; Step (of_Z 1000) 1; Step (of_Z 1000) 1; Step (of_Z 1000) 1;
   Step (of_Z 1000) 2; Step (of_Z 1010) 2; Step (of_Z 1010) 2;
   Step (of_Z 1010) 2; Step (of_Z 1010) 2; Call Mreset].

Definition world_zero : World :=
  Eval vm_compute in
    match exec schedule_zero (mkWorld (__init__ cfg50k (of_Z 1000)) []) with
    | Some w => w
    | None => mkWorld (__init__ cfg50k (of_Z 1000)) []
    end.

Lemma subscriber_after_reset_witness :
  accumulated (self world_zero) = Finite false 6900 (-5) /\
  exec [Step (of_Z 1011) 3; Step (of_Z 1011) 3; Step (of_Z 1011) 3;
        Step (of_Z 1011) 3; Step (of_Z 1011) 2] world_zero
  = Some (mkWorld (reset (self world_zero) (of_Z 1011))
            (<[2%nat := Failed]> (<[3%nat := Done None]> (threads world_zero)))).
Proof.
  split; [reflexivity|].
  apply (subscriber_after_reset world_zero 2 3 0 (of_Z 10) (of_Z 1011)
           (of_Z 1011) (of_Z 1011) (of_Z 1011) (of_Z 1011) cb_zero_exits);
    reflexivity.
Defined.
